(** * The file cache of hphp/util/file-cache.cpp

    A shallow embedding of [HPHP::FileCache] (the archive builder, its
    binary format, the two loaders and the query interface) and the
    properties established about it.

    Conventions of the embedding.
    - [short], [int] and [int64_t] values are integers of [Z]; conversions
      that narrow are written out with [wrap].  Objects are laid out in
      little-endian byte order, as on the hosts the archive is produced on.
    - A [char*] is modelled by the bytes that can be addressed through it:
      [None] is the null pointer, [Some bs] a pointer whose allocation
      holds [bs] from that address on.  A pointer into the mapped region is
      the suffix of the region that starts at its offset.
    - A [const char*] name is a [string]; it ends at its first NUL
      character ([c_str]).  A null name fails the same [name && *name]
      test as the empty one and is not represented separately.
    - [assert] and [always_assert] end the run with [Abort] ([assert] is
      taken as compiled in); a C++ exception is [Throw]; behaviour the
      language leaves undefined (reads outside an allocation, overflow of
      [int] arithmetic in a size) is [Undefined].
    - Loops run on fuel that is shown to suffice; [OutOfFuel] is the
      outcome of a run of the model that has none left.
    - Calls to [Logger] and to [free], failures of [malloc] and of
      reading an open file leave no trace in the model; of the destructor
      the model keeps its assertions ([destroy]). *)

From Stdlib Require Import ZArith Lia List.
From Stdlib.Strings Require Import String Ascii Byte.
From stdpp Require Import base option list strings gmap fin_maps sorting.

Local Open Scope Z_scope.

(** ** Machine integers and their object representation *)

Module MachInt.

(** The value of a [w]-bit two's complement integer holding [z]. *)
Definition wrap (w : Z) (z : Z) : Z :=
  (z + 2 ^ (w - 1)) mod 2 ^ w - 2 ^ (w - 1).

Definition to_short : Z → Z := wrap 16.
Definition to_int : Z → Z := wrap 32.
Definition to_int64 : Z → Z := wrap 64.

Definition byte_of_Z (z : Z) : byte :=
  default x00 (Byte.of_N (Z.to_N (z mod 256))).

Definition Z_of_byte (b : byte) : Z := Z.of_N (Byte.to_N b).

(** The [n] bytes of the object holding [z], least significant first. *)
Fixpoint le_bytes (n : nat) (z : Z) : list byte :=
  match n with
  | O => []
  | S n' => byte_of_Z z :: le_bytes n' (z / 256)
  end.

(** The unsigned value of a little-endian byte sequence. *)
Fixpoint le_value (bs : list byte) : Z :=
  match bs with
  | [] => 0
  | b :: bs' => Z_of_byte b + 256 * le_value bs'
  end.

Definition short_bytes (z : Z) : list byte := le_bytes 2 z.
Definition int_bytes (z : Z) : list byte := le_bytes 4 z.
Definition bytes_short (bs : list byte) : Z := to_short (le_value bs).
Definition bytes_int (bs : list byte) : Z := to_int (le_value bs).

(** The C division of [int]s truncates towards zero. *)
Definition int_div (a b : Z) : Z := to_int (Z.quot a b).
Definition int_mul (a b : Z) : Z := to_int (a * b).

End MachInt.
Export MachInt.

#[global] Instance byte_eq_decision : EqDecision byte := Byte.byte_eq_dec.

(** ** Strings *)

(** What a [const char*] made from the characters of [s] denotes: the
    characters before the first NUL ([std::string::c_str] read back as a
    C string, or a [std::string] built from a [const char*]). *)
Fixpoint c_str (s : string) : string :=
  match s with
  | EmptyString => EmptyString
  | String c s' =>
      if Ascii.eqb c Ascii.zero then EmptyString else String c (c_str s')
  end.

Definition string_bytes (s : string) : list byte := String.list_byte_of_string s.
Definition bytes_string (bs : list byte) : string := String.string_of_list_byte bs.

(** [s[i] == c] for [i] below the size of [s]. *)
Definition char_is (s : string) (i : nat) (c : ascii) : bool :=
  match String.get i s with
  | Some c' => Ascii.eqb c' c
  | None => false
  end.

(** [std::string::size()] *)
Definition ssize (s : string) : Z := Z.of_nat (String.length s).

(** ** Outcomes of a call *)

Inductive Exception : Type :=
  | UnableToAddEntry (name : string)
  | UnableToAddFile (name fullpath : string)
  | UnableToStat (path : string)
  | UnableToOpen (path : string)
  | UnableToReadAll (path : string)
  | UnableToSave (path : string)
  | UnableToMmap (path : string)
  | UnableToLoadCache (path : string)
  | NonMmapNotSupported
  | BadFileNameLength (archive : string)
  | BadFileName (archive : string)
  | SameFileTwice (file archive : string)
  | BadDataLength (archive : string)
  | BadData (archive : string)
  | BadCompressedData (archive : string).

Inductive outcome (A : Type) : Type :=
  | Ok (a : A)
  | Throw (e : Exception)
  | Abort
  | Undefined
  | OutOfFuel.

Arguments Ok {A} a.
Arguments Throw {A} e.
Arguments Abort {A}.
Arguments Undefined {A}.
Arguments OutOfFuel {A}.

Definition is_Ok {A} (o : outcome A) : bool :=
  match o with Ok _ => true | _ => false end.

Definition is_Throw {A} (o : outcome A) : bool :=
  match o with Throw _ => true | _ => false end.

(** ** Streams ([FILE*] opened for reading on a regular file) *)

Record FILE : Type := mkFILE {
  f_rest : list byte;   (* the bytes not yet read *)
  f_eof : bool          (* the end-of-file indicator, [feof] *)
}.

Definition fopen_r (content : list byte) : FILE :=
  {| f_rest := content; f_eof := false |}.

(** [fread(buf, 1, n, f)]: as many bytes as remain, at most [n]; coming up
    short sets the end-of-file indicator. *)
Definition fread (f : FILE) (n : nat) : list byte * FILE :=
  (take n (f_rest f),
   {| f_rest := drop n (f_rest f);
      f_eof := f_eof f || (length (f_rest f) <? n)%nat |}).

(** The loop of [read_bytes(FILE*, char*, int)].  [nread] is the local of
    the same name, [got] what has been stored through [buf] so far. *)
Fixpoint read_bytes_loop (fuel : nat) (f : FILE) (n nread : nat)
    (got : list byte) : nat * list byte * FILE :=
  match fuel with
  | O => (nread, got, f)
  | S fuel' =>
      if (n =? 0)%nat then (nread, got, f)
      else
        let '(bs, f') := fread f n in
        if (length bs =? 0)%nat then (O, got, f')
        else read_bytes_loop fuel' f' (n - length bs) (length bs) (got ++ bs)
  end.

(** [read_bytes(f, buf, len)] for [len >= 0]: whether the last [fread]
    returned anything, the bytes stored in [buf], and the stream. *)
Definition read_bytes (f : FILE) (n : nat) : bool * list byte * FILE :=
  let '(nread, got, f') := read_bytes_loop (S n) f n O [] in
  (negb (nread =? 0)%nat, got, f').

(** Bytes stored at the start of an object whose former content was
    [old]. *)
Definition overlay (new old : list byte) : list byte :=
  new ++ drop (length new) old.

(** ** Mapped memory *)

(** [memcpy] of [n] bytes out of the region at offset [p]; reading
    outside the region has no defined result. *)
Definition region_read (region : list byte) (p n : Z) : option (list byte) :=
  if (0 <=? p) && (0 <=? n) && (p + n <=? Z.of_nat (length region))
  then Some (take (Z.to_nat n) (drop (Z.to_nat p) region))
  else None.

(** [*p] for a pointer at offset [p] of the region. *)
Definition region_deref (region : list byte) (p : Z) : option byte :=
  if 0 <=? p then region !! Z.to_nat p else None.

(** The first [n] bytes behind a pointer, as [fwrite] and the codec read
    them. *)
Definition mem_take (p : option (list byte)) (n : Z) : option (list byte) :=
  match p with
  | Some bs =>
      if (0 <=? n) && (n <=? Z.of_nat (length bs))
      then Some (take (Z.to_nat n) bs) else None
  | None => None
  end.

(** ** External collaborators

    The codec of hphp/util/compression.h, the compressibility test, the
    alternate cache of hphp/util/cache, the part of the file system that
    decides whether a file can be created and the buffering of output
    streams are used through their interfaces only. *)

Abbreviation Disk := (gmap string (list byte)).

Class Externals : Type := {
  (* [gzencode(data, len, 9, CODING_GZIP)]: the compressed buffer, or null *)
  gzencode : list byte → option (list byte);
  (* [gzdecode(data, len)]: the uncompressed buffer, or null *)
  gzdecode : list byte → option (list byte);
  is_compressible_file : string → bool;
  (* [CacheType::isNewCache] on the content of the named file *)
  isNewCache : option (list byte) → bool;
  (* whether [fopen(filename, "w")] succeeds *)
  can_create : string → bool;
  (* of the bytes written to a stream that is still open when the process
     ends, the number that have reached the file *)
  stdio_flushed : list byte → nat;
  CacheManager : Type;
  new_CacheManager : CacheManager;
  addEmptyEntry : CacheManager → string → bool * CacheManager;
  addFileContents : CacheManager → Disk → string → string → bool * CacheManager;
  saveCache : CacheManager → Disk → string → bool * Disk;
  loadCache : CacheManager → Disk → string → bool * CacheManager;
  cm_entryExists : CacheManager → string → bool;
  cm_fileExists : CacheManager → string → bool;
  cm_dirExists : CacheManager → string → bool;
  cm_emptyEntryExists : CacheManager → string → bool;
  (* data pointer, [uint64_t] length and compressed flag *)
  getFileContents : CacheManager → string → option (option (list byte) * Z * bool);
  getUncompressedFileSize : CacheManager → string → option Z;
  getEntryNames : CacheManager → list string
}.

(** ** Data model *)

(** [FileCache::Buffer] *)
Record Buffer : Type := mkBuffer {
  len : Z;
  data : option (list byte);
  clen : Z;
  cdata : option (list byte)
}.

Definition php_file : Buffer :=
  {| len := -1; data := None; clen := -1; cdata := None |}.
Definition directory : Buffer :=
  {| len := -2; data := None; clen := -2; cdata := None |}.

(** The statics [FileCache::SourceRoot] and [FileCache::UseNewCache], and
    the files the process can see. *)
Record World : Type := mkWorld {
  SourceRoot : string;
  UseNewCache : bool;
  disk : Disk
}.

Section FileCache.
Context `{E : Externals}.

Record FileCache : Type := mkFileCache {
  m_fd : Z;
  m_size : Z;
  m_addr : option (list byte);
  m_files : gmap string Buffer;
  cache_manager_ : CacheManager
}.

(** [FileCache::FileCache()] *)
Definition new_FileCache : FileCache :=
  {| m_fd := -1; m_size := 0; m_addr := None; m_files := ∅;
     cache_manager_ := new_CacheManager |}.

Definition with_files (fc : FileCache) (m : gmap string Buffer) : FileCache :=
  {| m_fd := m_fd fc; m_size := m_size fc; m_addr := m_addr fc;
     m_files := m; cache_manager_ := cache_manager_ fc |}.

Definition with_manager (fc : FileCache) (cm : CacheManager) : FileCache :=
  {| m_fd := m_fd fc; m_size := m_size fc; m_addr := m_addr fc;
     m_files := m_files fc; cache_manager_ := cm |}.

Definition with_mapping (fc : FileCache) (fd size : Z)
    (addr : option (list byte)) : FileCache :=
  {| m_fd := fd; m_size := size; m_addr := addr;
     m_files := m_files fc; cache_manager_ := cache_manager_ fc |}.

Definition with_UseNewCache (w : World) (b : bool) : World :=
  {| SourceRoot := SourceRoot w; UseNewCache := b; disk := disk w |}.

Definition with_disk (w : World) (d : Disk) : World :=
  {| SourceRoot := SourceRoot w; UseNewCache := UseNewCache w; disk := d |}.

(** ** Methods as state transformers *)

Definition M (A : Type) : Type :=
  World → FileCache → outcome A * World * FileCache.

Definition ret {A} (a : A) : M A := λ w fc, (Ok a, w, fc).

Definition bind {A B} (m : M A) (k : A → M B) : M B :=
  λ w fc,
    match m w fc with
    | (Ok a, w', fc') => k a w' fc'
    | (Throw e, w', fc') => (Throw e, w', fc')
    | (Abort, w', fc') => (Abort, w', fc')
    | (Undefined, w', fc') => (Undefined, w', fc')
    | (OutOfFuel, w', fc') => (OutOfFuel, w', fc')
    end.

Definition throw {A} (e : Exception) : M A := λ w fc, (Throw e, w, fc).
Definition abort {A} : M A := λ w fc, (Abort, w, fc).
Definition undefined {A} : M A := λ w fc, (Undefined, w, fc).
Definition out_of_fuel {A} : M A := λ w fc, (OutOfFuel, w, fc).

Definition assert (b : bool) : M unit := if b then ret tt else abort.

Definition world : M World := λ w fc, (Ok w, w, fc).
Definition this : M FileCache := λ w fc, (Ok fc, w, fc).
Definition set_world (w' : World) : M unit := λ _ fc, (Ok tt, w', fc).
Definition set_this (fc' : FileCache) : M unit := λ w _, (Ok tt, w, fc').

(** [m_files[key] = b] *)
Definition store (key : string) (b : Buffer) : M unit :=
  λ w fc, (Ok tt, w, with_files fc (<[key := b]> (m_files fc))).

Definition lift {A} (o : outcome A) : M A := λ w fc, (o, w, fc).

Fixpoint for_each {A} (l : list A) (body : A → M unit) : M unit :=
  match l with
  | [] => ret tt
  | x :: l' => bind (body x) (λ _, for_each l' body)
  end.

End FileCache.

Declare Scope fc_scope.
Delimit Scope fc_scope with fc.
Notation "x <- m ;; k" := (bind m (λ x, k))
  (at level 100, m at next level, right associativity) : fc_scope.
Notation "m ;;; k" := (bind m (λ _, k))
  (at level 100, right associativity) : fc_scope.

Section Operations.
Context `{E : Externals}.
Local Open Scope fc_scope.

(** ** Path normalisation and queries *)

(** The test [name && *name]. *)
Definition nonempty (name : string) : bool :=
  match c_str name with EmptyString => false | String _ _ => true end.

(** [std::string::substr(pos)] for [pos <= size()]. *)
Definition substr_from (s : string) (pos : nat) : string :=
  String.substring pos (String.length s - pos) s.

Definition last_char (s : string) : option ascii :=
  String.get (String.length s - 1) s.

(** [FileCache::GetRelativePath] *)
Definition GetRelativePath (w : World) (path : string) : string :=
  let relative := c_str path in
  let n := ssize (SourceRoot w) mod 2 ^ 32 in      (* unsigned int len *)
  let relative :=
    if (0 <? n) && (n <? ssize relative) &&
       String.eqb (String.substring 0 (Z.to_nat n) relative)
                  (String.substring 0 (Z.to_nat n) (SourceRoot w))
    then substr_from relative (Z.to_nat n)
    else relative in
  match relative, last_char relative with
  | String _ _, Some "/"%char =>
      String.substring 0 (String.length relative - 1) relative
  | _, _ => relative
  end.

(** [m_files.find(name)] for a [const char*] name *)
Definition find (fc : FileCache) (name : string) : option Buffer :=
  m_files fc !! c_str name.

Definition fileExists_relative (w : World) (fc : FileCache) (name : string) : bool :=
  if UseNewCache w then
    cm_fileExists (cache_manager_ fc) (c_str name)
    || cm_emptyEntryExists (cache_manager_ fc) (c_str name)
  else if nonempty name then
    match find fc name with
    | Some b => -1 <=? len b
    | None => false
    end
  else false.

(** [FileCache::fileExists] *)
Definition fileExists (w : World) (fc : FileCache) (name : string)
    (isRelative : bool) : bool :=
  if isRelative then fileExists_relative w fc name
  else fileExists_relative w fc (GetRelativePath w name).

Definition dirExists_relative (w : World) (fc : FileCache) (name : string) : bool :=
  if UseNewCache w then cm_dirExists (cache_manager_ fc) (c_str name)
  else if nonempty name then
    match find fc name with
    | Some b => len b =? -2
    | None => false
    end
  else false.

(** [FileCache::dirExists] *)
Definition dirExists (w : World) (fc : FileCache) (name : string)
    (isRelative : bool) : bool :=
  if isRelative then dirExists_relative w fc name
  else dirExists_relative w fc (GetRelativePath w name).

Definition exists_relative (w : World) (fc : FileCache) (name : string) : bool :=
  if UseNewCache w then cm_entryExists (cache_manager_ fc) (c_str name)
  else if nonempty name then bool_decide (is_Some (find fc name))
  else false.

(** [FileCache::exists] *)
Definition exists_ (w : World) (fc : FileCache) (name : string)
    (isRelative : bool) : bool :=
  if isRelative then exists_relative w fc name
  else exists_relative w fc (GetRelativePath w name).

(** What [read] hands back: the returned pointer and the two reference
    parameters. *)
Record ReadResult : Type := mkRead {
  r_ptr : option (list byte);
  r_len : Z;
  r_compressed : bool
}.

(** [FileCache::read]; [len0] and [compressed] are the values the caller's
    variables hold at the call. *)
Definition read (w : World) (fc : FileCache) (name : string) (len0 : Z)
    (compressed : bool) : outcome ReadResult :=
  if nonempty name then
    if UseNewCache w then
      match getFileContents (cache_manager_ fc) (c_str name) with
      | None => Ok (mkRead None len0 compressed)
      | Some (p, data_len, data_compressed) =>
          Ok (mkRead p (to_int data_len) data_compressed)
      end
    else
      match find fc name with
      | Some buf =>
          if compressed && bool_decide (is_Some (cdata buf)) then
            if 0 <? clen buf then Ok (mkRead (cdata buf) (clen buf) compressed)
            else Abort
          else if negb compressed && bool_decide (data buf = None)
                  && bool_decide (is_Some (cdata buf)) then
            (* only compressed data available, the client has to uncompress it *)
            if 0 <? clen buf then Ok (mkRead (cdata buf) (clen buf) true)
            else Abort
          else if len buf =? 0 then
            if bool_decide (data buf = None) then Ok (mkRead (Some []) 0 false)
            else Abort
          else Ok (mkRead (data buf) (len buf) false)
      | None => Ok (mkRead None len0 compressed)
      end
  else Ok (mkRead None len0 compressed).

Definition fileSize_relative (w : World) (fc : FileCache) (name : string) : outcome Z :=
  if UseNewCache w then
    match getUncompressedFileSize (cache_manager_ fc) (c_str name) with
    | None => Ok (-1)
    | Some size => Ok (to_int64 size)
    end
  else
    match find fc name with
    | Some buf =>
        if 0 <=? len buf then Ok (len buf)
        else
          match cdata buf with
          | Some _ =>
              match mem_take (cdata buf) (clen buf) with
              | None => Undefined
              | Some cbytes =>
                  match gzdecode cbytes with
                  | None => Throw (BadCompressedData (c_str name))
                  | Some uncompressed => Ok (Z.of_nat (length uncompressed))
                  end
              end
          | None => Ok (-1)
          end
    | None => Ok (-1)
    end.

(** [FileCache::fileSize]; the call on the relative path makes the test
    of the name again. *)
Definition fileSize (w : World) (fc : FileCache) (name : string)
    (isRelative : bool) : outcome Z :=
  if negb (nonempty name) then Ok (-1)
  else if isRelative then fileSize_relative w fc name
  else
    let relative := GetRelativePath w name in
    if negb (nonempty relative) then Ok (-1)
    else fileSize_relative w fc relative.

(** [FileCache::dump]: the names printed, one per line.  The names come
    out of a [std::set], so each appears once, in increasing order;
    [merge_sort] over the duplicate-free key list gives the same lines. *)
Definition dump (w : World) (fc : FileCache) : list string :=
  let names :=
    if UseNewCache w then remove_dups (getEntryNames (cache_manager_ fc))
    else (map_to_list (m_files fc)).*1 in
  merge_sort (λ a b : string, bool_decide (String.leb a b = true)) names.

End Operations.

Section Builder.
Context `{E : Externals}.
Local Open Scope fc_scope.

(** ** The archive builder *)

(** The body of the loop of [FileCache::writeDirectories] at index [i]. *)
Definition writeDirectories_at (sname : string) (i : nat) : M unit :=
  if char_is sname i "/" then
    let dir := String.substring 0 i sname in
    w <- world ;; fc <- this ;;
    if exists_ w fc dir true then ret tt else store dir directory
  else ret tt.

(** [FileCache::writeDirectories]: [i] runs from 1 while
    [i < (int)sname.size()]. *)
Definition writeDirectories (name : string) : M unit :=
  let sname := c_str name in
  for_each (seq 1 (Z.to_nat (to_int (ssize sname)) - 1))
           (writeDirectories_at sname).

(** [FileCache::write(const char *name, bool addDirectories)] *)
Definition write (name : string) (addDirectories : bool) : M unit :=
  assert (nonempty name) ;;;
  w <- world ;; fc <- this ;;
  assert (negb (exists_ w fc name true)) ;;;
  if UseNewCache w then
    let r := addEmptyEntry (cache_manager_ fc) (c_str name) in
    set_this (with_manager fc r.2) ;;;
    if r.1 then ret tt else throw (UnableToAddEntry (c_str name))
  else
    store (c_str name) php_file ;;;
    if addDirectories then writeDirectories name else ret tt.

(** The compression attempt of [write(name, fullpath)]: the buffer after
    the [is_compressible_file] block. *)
Definition compress_gate (name : string) (buffer : Buffer) : outcome Buffer :=
  if is_compressible_file (c_str name) then
    match mem_take (data buffer) (len buffer) with
    | None => Undefined
    | Some raw =>
        match gzencode raw with
        | Some compressed =>
            let new_len := Z.of_nat (length compressed) in
            if new_len <? int_div (int_mul (len buffer) 3) 4 then
              Ok {| len := len buffer; data := data buffer;
                    clen := new_len; cdata := Some compressed |}
            else Ok buffer
        | None => Ok buffer
        end
    end
  else Ok buffer.

(** [FileCache::write(const char *name, const char *fullpath)].  [stat]
    and [fopen] succeed exactly on the files of the disk. *)
Definition write_file (name fullpath : string) : M unit :=
  assert (nonempty name) ;;;
  assert (nonempty fullpath) ;;;
  w <- world ;; fc <- this ;;
  assert (negb (exists_ w fc name true)) ;;;
  if UseNewCache w then
    let r := addFileContents (cache_manager_ fc) (disk w) (c_str name)
                             (c_str fullpath) in
    set_this (with_manager fc r.2) ;;;
    if r.1 then ret tt
    else throw (UnableToAddFile (c_str name) (c_str fullpath))
  else
    match disk w !! c_str fullpath with
    | None => throw (UnableToStat (c_str fullpath))
    | Some content =>
        let n := to_int (Z.of_nat (length content)) in
        let buffer := {| len := n; data := None; clen := -1; cdata := None |} in
        store (c_str name) buffer ;;;
        (if n =? 0 then ret tt
         else if n <? 0 then undefined      (* malloc and fread of a negative size *)
         else
           let r := read_bytes (fopen_r content) (Z.to_nat n) in
           let buffer :=
             {| len := n; data := Some r.1.2; clen := -1; cdata := None |} in
           store (c_str name) buffer ;;;
           if negb r.1.1 then throw (UnableToReadAll (c_str fullpath))
           else
             buffer' <- lift (compress_gate name buffer) ;;
             store (c_str name) buffer') ;;;
        writeDirectories name
    end.

(** One turn of the loop of [FileCache::save]: the bytes appended to the
    file, and whether the turn ran to its end. *)
Definition save_record (file : string * Buffer) : list byte * outcome unit :=
  let name_len := to_short (ssize file.1) in
  if name_len =? 0 then ([], Abort)
  else
    let out := short_bytes name_len in
    if name_len <? 0 then (out, Undefined)   (* fwrite of a size past the name *)
    else
      let out := out ++ take (Z.to_nat name_len) (string_bytes file.1) in
      let buffer := file.2 in
      let c := bool_decide (is_Some (cdata buffer)) in
      let out := out ++ [if c then x01 else x00] in
      if c then
        if negb (0 <? clen buffer) then (out, Abort)
        else
          let out := out ++ int_bytes (clen buffer) in
          match mem_take (cdata buffer) (clen buffer) with
          | None => (out, Undefined)
          | Some bs => (out ++ bs ++ [x00], Ok tt)
          end
      else
        let out := out ++ int_bytes (len buffer) in
        if 0 <? len buffer then
          match data buffer with
          | None => (out, Abort)
          | Some _ =>
              match mem_take (data buffer) (len buffer) with
              | None => (out, Undefined)
              | Some bs => (out ++ bs ++ [x00], Ok tt)
              end
          end
        else (out, Ok tt).

Fixpoint save_records (files : list (string * Buffer)) : list byte * outcome unit :=
  match files with
  | [] => ([], Ok tt)
  | file :: files' =>
      match save_record file with
      | (out, Ok _) =>
          let r := save_records files' in (out ++ r.1, r.2)
      | (out, o) => (out, o)
      end
  end.

Definition kFileCacheVersion_1 : Z := 1.
Definition kCurrentFileCacheVersion : Z := kFileCacheVersion_1.

(** The leading invalid length and the version number. *)
Definition archive_header : list byte :=
  short_bytes (-1) ++ short_bytes kCurrentFileCacheVersion.

(** [FileCache::save].  The records follow the iteration order of
    [m_files].  [fopen] empties the file and [fclose] hands it all that
    was written; a run that ends before [fclose] leaves in the file what
    the stream had passed on by then. *)
Definition save (filename : string) : M unit :=
  assert (nonempty filename) ;;;
  w <- world ;; fc <- this ;;
  if UseNewCache w then
    let r := saveCache (cache_manager_ fc) (disk w) (c_str filename) in
    set_world (with_disk w r.2) ;;;
    if r.1 then ret tt else throw (UnableToSave (c_str filename))
  else if negb (can_create (c_str filename)) then
    throw (UnableToOpen (c_str filename))
  else
    let r := save_records (map_to_list (m_files fc)) in
    let written := archive_header ++ r.1 in
    let content :=
      if is_Ok r.2 then written else take (stdio_flushed written) written in
    set_world (with_disk w (<[c_str filename := content]> (disk w))) ;;;
    lift r.2.

End Builder.

Section Loaders.
Context `{E : Externals}.
Local Open Scope fc_scope.

(** ** Version detection *)

(** [FileCache::getVersion].  [tag] and [version] start as [-1]; a short
    read leaves the bytes it did not reach. *)
Definition getVersion (filename : string) : M Z :=
  assert (nonempty filename) ;;;
  w <- world ;;
  if isNewCache (disk w !! c_str filename) then
    set_world (with_UseNewCache w true) ;;;
    ret 2
  else
    match disk w !! c_str filename with
    | None => throw (UnableToOpen (c_str filename))
    | Some content =>
        let r := read_bytes (fopen_r content) 2 in
        let tag := bytes_short (overlay r.1.2 (short_bytes (-1))) in
        if negb r.1.1 || (0 <? tag) then ret (-1)
        else
          let r' := read_bytes r.2 2 in
          ret (bytes_short (overlay r'.1.2 (short_bytes (-1))))
    end.

(** ** The loader into owned buffers *)

(** What one turn of the loop of [FileCache::load] leaves behind. *)
Inductive turn : Type :=
  | Next (f : FILE)    (* the record was stored, the loop goes on *)
  | Break.             (* end of file *)

(** The payload of a record of [n > 0] bytes ([n] is [len] in the source):
    whether the read was complete, the content of [buffer.data] and the
    stream; [Abort] when the terminator is not NUL.  The size [len + 1]
    of the allocation is computed before the sub-formats part. *)
Definition load_payload (version : Z) (f : FILE) (n : Z)
    : outcome (bool * list byte * FILE) :=
  if to_int (n + 1) <? 0 then Undefined        (* len + 1 overflows *)
  else if 0 <? version then
    let r := read_bytes f (Z.to_nat (n + 1)) in
    if negb r.1.1 then Ok (false, r.1.2, r.2)
    else if bool_decide (r.1.2 !! Z.to_nat n = Some x00)
    then Ok (true, r.1.2, r.2)
    else Abort
  else
    let r := read_bytes f (Z.to_nat n) in
    if negb r.1.1 then Ok (false, r.1.2, r.2)
    else Ok (true, r.1.2 ++ [x00], r.2).

(** The buffer of a record whose flag byte is set, once its payload is in
    [buffer.data]. *)
Definition load_compressed (filename : string) (onDemandUncompress : bool)
    (buffer : Buffer) : outcome Buffer :=
  if onDemandUncompress then
    Ok {| len := -1; data := None; clen := len buffer; cdata := data buffer |}
  else
    match mem_take (data buffer) (len buffer) with
    | None => Undefined
    | Some cbytes =>
        match gzdecode cbytes with
        | None => Throw (BadCompressedData (c_str filename))
        | Some uncompressed =>
            Ok {| len := Z.of_nat (length uncompressed);
                  data := Some uncompressed;
                  clen := len buffer; cdata := data buffer |}
        end
    end.

(** The body of the [while (true)] loop of [FileCache::load]. *)
Definition load_record (filename : string) (onDemandUncompress : bool)
    (version : Z) (f : FILE) : M turn :=
  let r := read_bytes f 2 in
  let name_len := bytes_short r.1.2 in
  if negb r.1.1 || (name_len <=? 0) then
    if f_eof r.2 then ret Break
    else throw (BadFileNameLength (c_str filename))
  else
    let r := read_bytes r.2 (Z.to_nat name_len) in
    if negb r.1.1 then throw (BadFileName (c_str filename))
    else
      let file := bytes_string r.1.2 in
      w <- world ;; fc <- this ;;
      if exists_ w fc file true then
        throw (SameFileTwice (c_str file) (c_str filename))
      else
        let rc := read_bytes r.2 1 in
        let rl := read_bytes rc.2 4 in
        if negb rc.1.1 || negb rl.1.1 then
          throw (BadDataLength (c_str filename))
        else
          let c := negb (bool_decide (rc.1.2 = [x00])) in
          let n := bytes_int rl.1.2 in
          let buffer := {| len := n; data := None; clen := -1; cdata := None |} in
          store file buffer ;;;
          if 0 <? n then
            p <- lift (load_payload version rl.2 n) ;;
            let buffer :=
              {| len := n; data := Some p.1.2; clen := -1; cdata := None |} in
            store file buffer ;;;
            if negb p.1.1 then throw (BadData (c_str filename))
            else if c then
              buffer' <- lift (load_compressed filename onDemandUncompress buffer) ;;
              store file buffer' ;;;
              ret (Next p.2)
            else ret (Next p.2)
          else ret (Next rl.2).

Fixpoint load_loop (fuel : nat) (filename : string) (onDemandUncompress : bool)
    (version : Z) (f : FILE) : M unit :=
  match fuel with
  | O => out_of_fuel
  | S fuel' =>
      t <- load_record filename onDemandUncompress version f ;;
      match t with
      | Break => ret tt
      | Next f' => load_loop fuel' filename onDemandUncompress version f'
      end
  end.

(** [FileCache::load].  Every turn that does not end the loop takes at
    least two bytes off the stream, so one turn per byte is enough. *)
Definition load (filename : string) (onDemandUncompress : bool)
    (version : Z) : M unit :=
  assert (nonempty filename) ;;;
  w <- world ;;
  if UseNewCache w then throw NonMmapNotSupported
  else
    match disk w !! c_str filename with
    | None => throw (UnableToOpen (c_str filename))
    | Some content =>
        let f := fopen_r content in
        let f :=
          if 0 <? version then (read_bytes (read_bytes f 2).2 2).2 else f in
        load_loop (S (length content)) filename onDemandUncompress version f
    end.

(** ** The loader over a mapped region *)

(** [FileCache::adviseOutMemory]: a hint to the memory manager, nothing
    the model records. *)
Definition adviseOutMemory : M unit :=
  w <- world ;;
  if UseNewCache w then ret tt else ret tt.

(** [read_bytes(char *&ptr, char *end, char *buf, int len)] over the
    region: the result, the bytes copied and the new [ptr].  Offsets count
    from the start of the region, [e] is the offset of [end]. *)
Definition read_bytes_mem (region : list byte) (p e n : Z)
    : outcome (bool * list byte * Z) :=
  if p + n <=? e then
    match region_read region p n with
    | None => Undefined
    | Some bs => Ok (negb (n =? 0), bs, p + n)
    end
  else Ok (false, [], p).

(** The descriptor [open] returns; which one is of no consequence. *)
Definition opened_fd : Z := 3.

(** The body of the [while (p < e)] loop of [FileCache::loadMmap]; the
    result is [p] at the end of the turn. *)
Definition loadMmap_record (filename : string) (region : list byte)
    (e p : Z) : M Z :=
  r <- lift (read_bytes_mem region p e 2) ;;
  let name_len := bytes_short (overlay r.1.2 (short_bytes (-1))) in
  if negb r.1.1 || (name_len <=? 0) then
    throw (BadFileNameLength (c_str filename))
  else
    r <- lift (read_bytes_mem region r.2 e name_len) ;;
    if negb r.1.1 then throw (BadFileName (c_str filename))
    else
      let file := bytes_string r.1.2 in
      w <- world ;; fc <- this ;;
      if exists_ w fc file true then
        throw (SameFileTwice (c_str file) (c_str filename))
      else
        rc <- lift (read_bytes_mem region r.2 e 1) ;;
        if negb rc.1.1 then throw (BadDataLength (c_str filename))
        else
          rl <- lift (read_bytes_mem region rc.2 e 4) ;;
          if negb rl.1.1 then throw (BadDataLength (c_str filename))
          else
            let c := negb (bool_decide (rc.1.2 = [x00])) in
            let n := bytes_int rl.1.2 in
            let p := rl.2 in
            store file {| len := n; data := None; clen := -1; cdata := None |} ;;;
            if 0 <? n then
              if e <=? p + n then throw (BadData (c_str filename))
              else
                let q := Some (drop (Z.to_nat p) region) in
                store file {| len := n; data := q; clen := -1; cdata := None |} ;;;
                let p := p + n in
                match region_deref region p with
                | None => undefined
                | Some b =>
                    assert (bool_decide (b = x00)) ;;;
                    (if c then
                       store file {| len := -1; data := None; clen := n; cdata := q |}
                     else ret tt) ;;;
                    ret (p + 1)
                end
            else ret p.

Fixpoint loadMmap_loop (fuel : nat) (filename : string) (region : list byte)
    (e p : Z) : M unit :=
  match fuel with
  | O => out_of_fuel
  | S fuel' =>
      if p <? e then
        p' <- loadMmap_record filename region e p ;;
        loadMmap_loop fuel' filename region e p'
      else ret tt
  end.

(** [FileCache::loadMmap] from the test of [UseNewCache] on.  [stat] and
    [open] succeed exactly on the files of the disk, and [mmap] on those
    that are not empty; a failed [mmap] leaves no usable address in
    [m_addr]. *)
Definition loadMmap_parse (filename : string) (version : Z) : M unit :=
  w <- world ;; fc <- this ;;
  if UseNewCache w then
    let r := loadCache (cache_manager_ fc) (disk w) (c_str filename) in
    set_this (with_manager fc r.2) ;;;
    if r.1 then ret tt else throw (UnableToLoadCache (c_str filename))
  else
    assert (0 <? version) ;;;
    match disk w !! c_str filename with
    | None => throw (UnableToStat (c_str filename))
    | Some content =>
        let size := Z.of_nat (length content) in
        if size =? 0 then
          set_this (with_mapping fc opened_fd (m_size fc) None) ;;;
          throw (UnableToMmap (c_str filename))
        else
          set_this (with_mapping fc opened_fd size (Some content)) ;;;
          loadMmap_loop (S (length content)) filename content size 4 ;;;
          adviseOutMemory
    end.

(** [FileCache::loadMmap]: the detection of the alternate format, then
    the rest. *)
Definition loadMmap (filename : string) (version : Z) : M unit :=
  assert (nonempty filename) ;;;
  w <- world ;;
  (if isNewCache (disk w !! c_str filename)
   then set_world (with_UseNewCache w true) else ret tt) ;;;
  loadMmap_parse filename version.

End Loaders.

(** ** A small instance of the collaborators

    A run-length codec, a cache manager that keeps a list of names, a
    magic number for the alternate format and streams that pass nothing
    on before they are closed; used to run the model on concrete
    archives. *)

Module Toy.

Fixpoint rle (bs : list byte) : list byte :=
  match bs with
  | [] => []
  | b :: bs' =>
      match rle bs' with
      | c :: b' :: t =>
          if bool_decide (b = b') && (Z_of_byte c <? 255)
          then byte_of_Z (Z_of_byte c + 1) :: b' :: t
          else x01 :: b :: c :: b' :: t
      | _ => [x01; b]
      end
  end.

Fixpoint unrle (cs : list byte) : option (list byte) :=
  match cs with
  | [] => Some []
  | c :: cs' =>
      match cs' with
      | [] => None
      | b :: t =>
          match unrle t with
          | Some bs => Some (replicate (Z.to_nat (Z_of_byte c)) b ++ bs)
          | None => None
          end
      end
  end.

Definition encode (bs : list byte) : option (list byte) := Some (x1f :: rle bs).

Definition decode (cs : list byte) : option (list byte) :=
  match cs with
  | x1f :: cs' => unrle cs'
  | _ => None
  end.

(** Everything but [.png] is worth compressing. *)
Definition compressible (name : string) : bool :=
  negb (String.eqb (String.substring (String.length name - 4) 4 name) ".png").

Definition magic (content : option (list byte)) : bool :=
  match content with
  | Some (xca :: xfe :: _) => true
  | _ => false
  end.

#[export] Instance externals : Externals := {|
  gzencode := encode;
  gzdecode := decode;
  is_compressible_file := compressible;
  isNewCache := magic;
  can_create := λ _, true;
  stdio_flushed := λ _, 0%nat;
  CacheManager := list string;
  new_CacheManager := [];
  addEmptyEntry := λ cm name, (true, name :: cm);
  addFileContents := λ cm d name fullpath,
    (bool_decide (is_Some (d !! fullpath)), name :: cm);
  saveCache := λ cm d filename, (true, <[filename := [xca; xfe]]> d);
  loadCache := λ cm d filename, (magic (d !! filename), cm);
  cm_entryExists := λ cm name, bool_decide (name ∈ cm);
  cm_fileExists := λ cm name, false;
  cm_dirExists := λ cm name, false;
  cm_emptyEntryExists := λ cm name, bool_decide (name ∈ cm);
  getFileContents := λ cm name, None;
  getUncompressedFileSize := λ cm name, None;
  getEntryNames := λ cm, cm
|}.

Definition world0 : World :=
  {| SourceRoot := "/var/www/"; UseNewCache := false; disk := ∅ |}.

End Toy.

(** The byte slice a pointer and a length denote: what a caller of [read]
    can look at. *)
Definition view (r : ReadResult) : option (list byte) * Z * bool :=
  (take (Z.to_nat (r_len r)) <$> r_ptr r, r_len r, r_compressed r).


Section Invariants.
Context `{E : Externals}.

(** Raw data, where an entry has it, has a length that is not negative. *)
Definition raw_lengths_ok (fc : FileCache) : Prop :=
  map_Forall (λ _ b, is_Some (data b) → 0 ≤ len b) (m_files fc).

#[global] Instance raw_lengths_ok_dec fc : Decision (raw_lengths_ok fc).
Proof. unfold raw_lengths_ok. apply _. Defined.

End Invariants.


Ltac mrun :=
  cbv [bind ret world this store assert lift throw abort undefined
       out_of_fuel set_this set_world negb].

Section DirectoryEntries.
Context `{E : Externals}.

(** The directory entries [writeDirectories] considers for the indices of
    [l]. *)
Fixpoint dir_entries (sname : string) (l : list nat) : gmap string Buffer :=
  match l with
  | [] => ∅
  | i :: l' =>
      if char_is sname i "/"
      then <[String.substring 0 i sname := directory]> (dir_entries sname l')
      else dir_entries sname l'
  end.

End DirectoryEntries.

Section DirectoryIndices.
Context `{E : Externals}.

(** The indices [writeDirectories] runs over. *)
Definition dir_indices (name : string) : list nat :=
  seq 1 (Z.to_nat (to_int (ssize (c_str name))) - 1).

End DirectoryIndices.

Section FileBuffer.
Context `{E : Externals}.

(** The buffer [write(name, fullpath)] leaves for a file of the given
    content (shorter than 2^31 bytes). *)
Definition file_buffer (name : string) (content : list byte) : Buffer :=
  let n := Z.of_nat (length content) in
  let raw := {| len := n; data := Some content; clen := -1; cdata := None |} in
  if n =? 0 then {| len := 0; data := None; clen := -1; cdata := None |}
  else if is_compressible_file (c_str name) then
    match gzencode content with
    | Some compressed =>
        if Z.of_nat (length compressed) <? int_div (int_mul n 3) 4
        then {| len := n; data := Some content;
                clen := Z.of_nat (length compressed); cdata := Some compressed |}
        else raw
    | None => raw
    end
  else raw.

End FileBuffer.

Section Calls.
Context `{E : Externals}.

(** A [const] method: it reads the statics and the instance and leaves
    both as they are. *)
Definition const_method {A} (f : World → FileCache → outcome A) : M A :=
  λ w fc, (f w fc, w, fc).

(** The operations of [FileCache], with their arguments. *)
Inductive operation : Type :=
  | CallWrite (name : string) (addDirectories : bool)
  | CallWriteFile (name fullpath : string)
  | CallSave (filename : string)
  | CallGetVersion (filename : string)
  | CallLoad (filename : string) (onDemandUncompress : bool) (version : Z)
  | CallLoadMmap (filename : string) (version : Z)
  | CallAdviseOutMemory
  | CallFileExists (name : string) (isRelative : bool)
  | CallDirExists (name : string) (isRelative : bool)
  | CallExists (name : string) (isRelative : bool)
  | CallRead (name : string) (len0 : Z) (compressed : bool)
  | CallFileSize (name : string) (isRelative : bool)
  | CallDump
  | CallGetRelativePath (path : string).

(** The effect of a call (its result is dropped). *)
Definition call (op : operation) : M unit :=
  (match op with
   | CallWrite name addDirectories => write name addDirectories
   | CallWriteFile name fullpath => write_file name fullpath
   | CallSave filename => save filename
   | CallGetVersion filename => _ <- getVersion filename ;; ret tt
   | CallLoad filename onDemandUncompress version =>
       load filename onDemandUncompress version
   | CallLoadMmap filename version => loadMmap filename version
   | CallAdviseOutMemory => adviseOutMemory
   | CallFileExists name isRelative =>
       _ <- const_method (λ w fc, Ok (fileExists w fc name isRelative)) ;; ret tt
   | CallDirExists name isRelative =>
       _ <- const_method (λ w fc, Ok (dirExists w fc name isRelative)) ;; ret tt
   | CallExists name isRelative =>
       _ <- const_method (λ w fc, Ok (exists_ w fc name isRelative)) ;; ret tt
   | CallRead name len0 compressed =>
       _ <- const_method (λ w fc, read w fc name len0 compressed) ;; ret tt
   | CallFileSize name isRelative =>
       _ <- const_method (λ w fc, fileSize w fc name isRelative) ;; ret tt
   | CallDump => _ <- const_method (λ w fc, Ok (dump w fc)) ;; ret tt
   | CallGetRelativePath path =>
       _ <- const_method (λ w fc, Ok (GetRelativePath w path)) ;; ret tt
   end)%fc.

(** The call is one of the two that look for the alternate format, on a
    file that is in that format. *)
Definition detects_new_cache (op : operation) (w : World) : bool :=
  match op with
  | CallGetVersion filename | CallLoadMmap filename _ =>
      nonempty filename && isNewCache (disk w !! c_str filename)
  | _ => false
  end.

(** A computation that leaves the statics and the disk as they are. *)
Definition world_unchanged {A} (m : M A) : Prop :=
  ∀ w fc, (m w fc).1.2 = w.

(** A computation that leaves the two configuration values as they are. *)
Definition config_unchanged {A} (m : M A) : Prop :=
  ∀ w fc, SourceRoot (m w fc).1.2 = SourceRoot w
          ∧ UseNewCache (m w fc).1.2 = UseNewCache w.

End Calls.

(** An outcome other than undefined behaviour and an exhausted model. *)
Definition defined {A} (o : outcome A) : Prop :=
  o ≠ Undefined ∧ o ≠ OutOfFuel.

(** The record that starts at offset [p] of the region declares a field
    that would cross the end of the region: the name length, the name,
    the flag, the payload length, or the payload with its terminator. *)
Definition truncated_record (region : list byte) (p : Z) : bool :=
  let e := Z.of_nat (length region) in
  if e <? p + 2 then true
  else
    let name_len := bytes_short (take 2 (drop (Z.to_nat p) region)) in
    if name_len <=? 0 then false
    else if e <? p + 2 + name_len then true
    else if e <? p + 2 + name_len + 1 then true
    else if e <? p + 2 + name_len + 1 + 4 then true
    else
      let n := bytes_int (take 4 (drop (Z.to_nat (p + 2 + name_len + 1)) region)) in
      (0 <? n) && (e <? p + 2 + name_len + 1 + 4 + n + 1).

Section MappedPlan.
Context `{E : Externals}.

(** One turn of the loop of [loadMmap] with its bounds tests written as
    comparisons of offsets; [loadMmap_record_plan_eq] shows it is the
    turn of the loop. *)
Definition loadMmap_record_plan (filename : string) (region : list byte)
    (p : Z) (w : World) (fc : FileCache) : outcome Z * World * FileCache :=
  let e := Z.of_nat (length region) in
  if e <? p + 2 then (Throw (BadFileNameLength (c_str filename)), w, fc)
  else
    let name_len := bytes_short (take 2 (drop (Z.to_nat p) region)) in
    if name_len <=? 0 then (Throw (BadFileNameLength (c_str filename)), w, fc)
    else if e <? p + 2 + name_len then (Throw (BadFileName (c_str filename)), w, fc)
    else
      let file :=
        bytes_string (take (Z.to_nat name_len) (drop (Z.to_nat (p + 2)) region)) in
      if exists_ w fc file true then
        (Throw (SameFileTwice (c_str file) (c_str filename)), w, fc)
      else if e <? p + 2 + name_len + 1 + 4 then
        (Throw (BadDataLength (c_str filename)), w, fc)
      else
        let c :=
          negb (bool_decide
                  (take 1 (drop (Z.to_nat (p + 2 + name_len)) region) = [x00])) in
        let n :=
          bytes_int (take 4 (drop (Z.to_nat (p + 2 + name_len + 1)) region)) in
        let q := p + 2 + name_len + 1 + 4 in
        let stored b := with_files fc (<[file := b]> (m_files fc)) in
        let empty := {| len := n; data := None; clen := -1; cdata := None |} in
        if n <=? 0 then (Ok q, w, stored empty)
        else if e <=? q + n then (Throw (BadData (c_str filename)), w, stored empty)
        else
          let ptr := Some (drop (Z.to_nat q) region) in
          let raw := {| len := n; data := ptr; clen := -1; cdata := None |} in
          match region !! Z.to_nat (q + n) with
          | Some b =>
              if bool_decide (b = x00) then
                (Ok (q + n + 1), w,
                 stored (if c
                         then {| len := -1; data := None; clen := n; cdata := ptr |}
                         else raw))
              else (Abort, w, stored raw)
          | None => (Undefined, w, stored raw)
          end.

End MappedPlan.
Section Records.
Context `{E : Externals}.

(** The fields that start a record: the name length, the name, the flag
    byte and the payload length. *)
Definition record_head (name : string) (flag : byte) (n : Z) : list byte :=
  short_bytes (ssize name) ++ string_bytes name ++ [flag] ++ int_bytes n.

(** The buffer [load] stores for a record of flag [flag] and length
    [n > 0] once [alloc] has been read into [buffer.data]. *)
Definition loaded_buffer (filename : string) (onDemandUncompress : bool)
    (flag : byte) (n : Z) (alloc : list byte) : outcome Buffer :=
  let buffer := {| len := n; data := Some alloc; clen := -1; cdata := None |} in
  if bool_decide (flag = x00) then Ok buffer
  else load_compressed filename onDemandUncompress buffer.

End Records.
Section Archives.
Context `{E : Externals}.

(** A record of the archive: its name, flag byte, length field and, when
    the length is positive, its payload. *)
Record record : Type := mkRecord {
  rec_name : string;
  rec_flag : byte;
  rec_len : Z;
  rec_payload : list byte
}.

(** The bytes of a record in the sub-format of [version]: the terminator
    follows the payload when [version > 0]. *)
Definition record_bytes (version : Z) (r : record) : list byte :=
  record_head (rec_name r) (rec_flag r) (rec_len r)
  ++ (if 0 <? rec_len r
      then rec_payload r ++ (if 0 <? version then [x00] else [])
      else []).

(** The leading invalid length and version number, present when
    [version > 0]. *)
Definition header_bytes (version : Z) : list byte :=
  if 0 <? version then short_bytes (-1) ++ short_bytes version else [].

Definition archive_bytes (version : Z) (rs : list record) : list byte :=
  header_bytes version ++ concat (map (record_bytes version) rs).

(** A record the format can hold: a path of 1 to 32767 characters, none
    of them NUL, a length that fits an [int] (with room for the
    terminator), and as many payload bytes as the length says. *)
Definition record_ok (r : record) : Prop :=
  0 < ssize (rec_name r) < 32768
  ∧ c_str (rec_name r) = rec_name r
  ∧ -2147483648 ≤ rec_len r < 2147483647
  ∧ (0 < rec_len r → Z.of_nat (length (rec_payload r)) = rec_len r).

(** The buffer [load] stores for a record. *)
Definition record_buffer (filename : string) (onDemandUncompress : bool)
    (r : record) : outcome Buffer :=
  if 0 <? rec_len r then
    loaded_buffer filename onDemandUncompress (rec_flag r) (rec_len r)
                  (rec_payload r ++ [x00])
  else Ok {| len := rec_len r; data := None; clen := -1; cdata := None |}.

(** [load] told on records instead of bytes: the outcome, and the table
    when it is [Ok]. *)
Fixpoint load_records (filename : string) (onDemandUncompress : bool)
    (rs : list record) (m : gmap string Buffer)
    : outcome unit * gmap string Buffer :=
  match rs with
  | [] => (Ok tt, m)
  | r :: rs' =>
      if bool_decide (is_Some (m !! rec_name r)) then
        (Throw (SameFileTwice (rec_name r) (c_str filename)), m)
      else
        match record_buffer filename onDemandUncompress r with
        | Ok b =>
            load_records filename onDemandUncompress rs' (<[rec_name r := b]> m)
        | Throw e => (Throw e, m)
        | Abort => (Abort, m)
        | Undefined => (Undefined, m)
        | OutOfFuel => (OutOfFuel, m)
        end
  end.

End Archives.
Section MappedRecords.
Context `{E : Externals}.

(** The buffer [loadMmap] stores for a record that is followed by
    [post] in the region: its pointers reach to the end of the region. *)
Definition mapped_buffer (r : record) (post : list byte) : Buffer :=
  if 0 <? rec_len r then
    let ptr := Some (rec_payload r ++ [x00] ++ post) in
    if bool_decide (rec_flag r = x00)
    then {| len := rec_len r; data := ptr; clen := -1; cdata := None |}
    else {| len := -1; data := None; clen := rec_len r; cdata := ptr |}
  else {| len := rec_len r; data := None; clen := -1; cdata := None |}.

(** [loadMmap] told on records: the outcome, and the table when it is
    [Ok]. *)
Fixpoint loadMmap_records (filename : string) (rs : list record)
    (m : gmap string Buffer) : outcome unit * gmap string Buffer :=
  match rs with
  | [] => (Ok tt, m)
  | r :: rs' =>
      if bool_decide (is_Some (m !! rec_name r)) then
        (Throw (SameFileTwice (rec_name r) (c_str filename)), m)
      else
        loadMmap_records filename rs'
          (<[rec_name r := mapped_buffer r (concat (map (record_bytes 1) rs'))]> m)
  end.

End MappedRecords.
Section RoundTrip.
Context `{E : Externals}.

(** The record [save] writes for an entry of the table. *)
Definition entry_record (file : string * Buffer) : record :=
  match cdata file.2 with
  | Some c =>
      {| rec_name := file.1; rec_flag := x01; rec_len := clen file.2;
         rec_payload := take (Z.to_nat (clen file.2)) c |}
  | None =>
      {| rec_name := file.1; rec_flag := x00; rec_len := len file.2;
         rec_payload := match data file.2 with
                        | Some d => take (Z.to_nat (len file.2)) d
                        | None => []
                        end |}
  end.

(** The buffer [load] makes of the record of an entry. *)
Definition reloaded_buffer (onDemandUncompress : bool) (b : Buffer) : Buffer :=
  match cdata b with
  | Some c =>
      let alloc := take (Z.to_nat (clen b)) c ++ [x00] in
      if onDemandUncompress then
        {| len := -1; data := None; clen := clen b; cdata := Some alloc |}
      else
        {| len := len b;
           data := take (Z.to_nat (len b)) <$> data b;
           clen := clen b; cdata := Some alloc |}
  | None =>
      {| len := len b;
         data := if 0 <? len b
                 then (λ d, take (Z.to_nat (len b)) d ++ [x00]) <$> data b
                 else None;
         clen := -1; cdata := None |}
  end.

(** An entry that [save] can write and [load] can read back: a path of
    1 to 32767 characters without NUL; lengths that leave room for the
    terminator in an [int]; raw data exactly when the length is
    positive; and a compressed form, if any, that is not empty and that
    the codec decodes to the raw data. *)
Definition entry_ok (k : string) (b : Buffer) : Prop :=
  0 < ssize k < 32768 ∧ c_str k = k
  ∧ -2147483648 ≤ len b < 2147483647
  ∧ match data b with
    | Some d => 0 < len b ≤ Z.of_nat (length d)
    | None => len b ≤ 0
    end
  ∧ match cdata b with
    | Some c =>
        0 < clen b < 2147483647 ∧ clen b ≤ Z.of_nat (length c)
        ∧ 0 < len b
        ∧ gzdecode (take (Z.to_nat (clen b)) c)
          = take (Z.to_nat (len b)) <$> data b
    | None => True
    end.

Definition table_ok (m : gmap string Buffer) : Prop :=
  map_Forall entry_ok m.

(** [read] on the entry it has found. *)
Definition read_buffer (buf : Buffer) (compressed : bool) : outcome ReadResult :=
  if compressed && bool_decide (is_Some (cdata buf)) then
    if 0 <? clen buf then Ok (mkRead (cdata buf) (clen buf) compressed)
    else Abort
  else if negb compressed && bool_decide (data buf = None)
          && bool_decide (is_Some (cdata buf)) then
    if 0 <? clen buf then Ok (mkRead (cdata buf) (clen buf) true)
    else Abort
  else if len buf =? 0 then
    if bool_decide (data buf = None) then Ok (mkRead (Some []) 0 false)
    else Abort
  else Ok (mkRead (data buf) (len buf) false).

(** [fileSize] on the entry it has found. *)
Definition fileSize_buffer (name : string) (buf : Buffer) : outcome Z :=
  if 0 <=? len buf then Ok (len buf)
  else
    match cdata buf with
    | Some _ =>
        match mem_take (cdata buf) (clen buf) with
        | None => Undefined
        | Some cbytes =>
            match gzdecode cbytes with
            | None => Throw (BadCompressedData (c_str name))
            | Some uncompressed => Ok (Z.of_nat (length uncompressed))
            end
        end
    | None => Ok (-1)
    end.

Definition outcome_map {A B} (f : A → B) (o : outcome A) : outcome B :=
  match o with
  | Ok a => Ok (f a)
  | Throw e => Throw e
  | Abort => Abort
  | Undefined => Undefined
  | OutOfFuel => OutOfFuel
  end.

(** The result of [read] as the caller can observe it. *)
Definition read_view (w : World) (fc : FileCache) (name : string) (len0 : Z)
    (compressed : bool) : outcome (option (list byte) * Z * bool) :=
  outcome_map view (read w fc name len0 compressed).

(** A call of the builder. *)
Inductive registration : Type :=
  | RegisterPlaceholder (name : string) (addDirectories : bool)
  | RegisterFile (name fullpath : string).

Definition register (r : registration) : M unit :=
  match r with
  | RegisterPlaceholder name addDirectories => write name addDirectories
  | RegisterFile name fullpath => write_file name fullpath
  end.

(** A build: the registrations, in order. *)
Definition build (script : list registration) : M unit :=
  for_each script register.

(** Every file of the disk is shorter than 2^31 bytes. *)
Definition small_files (d : Disk) : Prop :=
  map_Forall (λ _ content, Z.of_nat (length content) < 2147483648) d.

(** What a build must be checked for before its table is saved: paths
    shorter than 32768 characters, lengths below 2^31 - 1, and compressed
    forms that are not empty and that the codec decodes to the raw
    bytes. *)
Definition savable (k : string) (b : Buffer) : Prop :=
  ssize k < 32768 ∧ len b < 2147483647
  ∧ match cdata b with
    | Some c => c ≠ [] ∧ gzdecode c = data b
    | None => True
    end.

#[global] Instance savable_dec k b : Decision (savable k b).
Proof. unfold savable. destruct (cdata b); apply _. Defined.

Definition table_savable (m : gmap string Buffer) : Prop :=
  map_Forall savable m.

(** The entries a build makes. *)
Definition built_buffer (b : Buffer) : Prop :=
  b = directory ∨ b = php_file
  ∨ ∃ name content,
      Z.of_nat (length content) < 2147483648 ∧ b = file_buffer name content.

Definition built_table (m : gmap string Buffer) : Prop :=
  map_Forall (λ k b, nonempty k = true ∧ c_str k = k ∧ built_buffer b) m.

End RoundTrip.
Section Checks.
Context `{E : Externals}.

#[global] Instance small_files_dec d : Decision (small_files d).
Proof. unfold small_files. apply _. Defined.

#[global] Instance table_savable_dec m : Decision (table_savable m).
Proof. unfold table_savable. apply _. Defined.

End Checks.

Section Lengths.
Context `{E : Externals}.

(** Raw data has a length that is not negative, and a compressed form a
    length that is positive. *)
Definition lengths_ok (fc : FileCache) : Prop :=
  map_Forall (λ _ b, (is_Some (data b) → 0 ≤ len b)
                     ∧ (is_Some (cdata b) → 0 < clen b)) (m_files fc).

End Lengths.

(** ** Definitions for the further properties *)

(** The last step of [GetRelativePath]: a trailing slash is taken off. *)
Definition strip_slash (relative : string) : string :=
  match relative, last_char relative with
  | String _ _, Some "/"%char =>
      String.substring 0 (String.length relative - 1) relative
  | _, _ => relative
  end.

Section InBoundsDefs.
Context `{E : Externals}.

(** The bytes behind each pointer of an entry reach as far as the length
    that goes with it says. *)
Definition in_bounds (b : Buffer) : Prop :=
  (∀ d, data b = Some d → 0 ≤ len b ≤ Z.of_nat (length d))
  ∧ (∀ c, cdata b = Some c → 0 ≤ clen b ≤ Z.of_nat (length c)).

Definition table_in_bounds (fc : FileCache) : Prop :=
  map_Forall (λ _, in_bounds) (m_files fc).

(** A run that returned has left a table that is in bounds. *)
Definition ok_in_bounds {A} (x : outcome A * World * FileCache) : Prop :=
  is_Ok x.1.1 = true → table_in_bounds x.2.

(** A session: calls made one after the other on the same instance, as
    long as they return. *)
Definition session (calls : list operation) : M unit := for_each calls call.

End InBoundsDefs.

Section Views.
Context `{E : Externals}.

(** Two entries that the queries cannot tell apart: the same lengths and,
    behind each pointer, the same bytes as far as its length reaches
    (the compressed form within its allocation). *)
Definition same_view (b b' : Buffer) : Prop :=
  len b = len b' ∧ clen b = clen b'
  ∧ match data b, data b' with
    | Some d, Some d' => take (Z.to_nat (len b)) d = take (Z.to_nat (len b)) d'
    | None, None => True
    | _, _ => False
    end
  ∧ match cdata b, cdata b' with
    | Some c, Some c' =>
        0 ≤ clen b ≤ Z.of_nat (length c) ∧ clen b ≤ Z.of_nat (length c')
        ∧ take (Z.to_nat (clen b)) c = take (Z.to_nat (clen b)) c'
    | None, None => True
    | _, _ => False
    end.

Definition same_views (m m' : gmap string Buffer) : Prop :=
  ∀ k, match m !! k, m' !! k with
       | Some b, Some b' => same_view b b'
       | None, None => True
       | _, _ => False
       end.

End Views.

Section Canonical.
Context `{E : Externals}.

(** A record as [save] writes them: the flag byte is 0 or 1, it is set
    only when a payload follows, and no payload goes with a length that
    is not positive. *)
Definition canonical (r : record) : Prop :=
  if 0 <? rec_len r then rec_flag r = x00 ∨ rec_flag r = x01
  else rec_flag r = x00 ∧ rec_payload r = [].

(** The codec accepts the payload of a record whose flag is set. *)
Definition decodable (r : record) : Prop :=
  0 < rec_len r → rec_flag r ≠ x00 → is_Some (gzdecode (rec_payload r)).

End Canonical.

Section Destructor.
Context `{E : Externals}.
Local Open Scope fc_scope.

(** [m_addr != nullptr].  [m_addr] is null as the constructor leaves it;
    once [loadMmap] has put a descriptor in [m_fd] it holds what [mmap]
    returned, the mapping or [MAP_FAILED], and neither is null.  The
    model has [None] in [m_addr] for both null and [MAP_FAILED], and the
    descriptor tells them apart. *)
Definition addr_not_null (fc : FileCache) : bool :=
  bool_decide (is_Some (m_addr fc)) || negb (m_fd fc =? -1).

(** [FileCache::~FileCache()].  What it frees, unmaps and closes leaves
    no trace in the model; what is left is whether its [always_assert]s
    hold. *)
Definition destroy : M unit :=
  w <- world ;; fc <- this ;;
  if UseNewCache w then ret tt
  else
    for_each (map_to_list (m_files fc))
      (λ file,
         let buffer := file.2 in
         if m_fd fc =? -1 then ret tt      (* the two buffers are freed *)
         else assert (bool_decide (data buffer = None)
                      || bool_decide (cdata buffer = None))) ;;;
    if negb (m_fd fc =? -1) then
      assert (addr_not_null fc) ;;;
      assert (0 <? m_size fc)
    else ret tt.

(** No entry has both a raw and a compressed form. *)
Definition one_form (fc : FileCache) : Prop :=
  map_Forall (λ _ b, data b = None ∨ cdata b = None) (m_files fc).

End Destructor.

(** ** A sample run of the small instance *)

Module Sample.
Import Toy.
Local Open Scope fc_scope.

Definition disk1 : Disk :=
  {[ "/src/a.txt" := replicate 40 x61 ++ [x62; x63];
     "/src/l.png" := [x01; x02; x03] ]}.

Definition world1 : World :=
  {| SourceRoot := "/var/www/"; UseNewCache := false; disk := disk1 |}.

Definition script1 : list registration :=
  [ RegisterPlaceholder "app.php" true;
    RegisterFile "assets/data.txt" "/src/a.txt";
    RegisterFile "assets/l.png" "/src/l.png" ].

Definition built := build script1 world1 new_FileCache.
Definition saved := save "/tmp/archive" built.1.2 built.2.
Definition reloaded (onDemandUncompress : bool) :=
  load "/tmp/archive" onDemandUncompress 1 saved.1.2 new_FileCache.
Definition mapped := loadMmap "/tmp/archive" 1 saved.1.2 new_FileCache.

(** A file whose first field is zero, and one that starts with the
    marker. *)
Definition world_zero_tag : World :=
  {| SourceRoot := ""; UseNewCache := false;
     disk := {[ "cache" := [x00; x00; x01; x00] ]} |}.
Definition world_marker : World :=
  {| SourceRoot := ""; UseNewCache := false;
     disk := {[ "cache" := [xff; xff; x01; x00] ]} |}.

(** A file that ends inside its header. *)
Definition world_short_header : World :=
  {| SourceRoot := ""; UseNewCache := false;
     disk := {[ "cache" := [xff; xff; x01] ]} |}.

(** Fifty bytes in eighteen runs: the run-length codec makes 37 bytes
    of them, which is 74% of 50. *)
Definition fifty : list byte :=
  concat (replicate 8 [x61; x62]) ++ [x61] ++ replicate 33 x63.

Definition world_fifty : World :=
  {| SourceRoot := ""; UseNewCache := false;
     disk := {[ "/src/fifty.txt" := fifty ]} |}.

(** A file in the alternate format. *)
Definition world_new_format : World :=
  {| SourceRoot := "/var/www/"; UseNewCache := false;
     disk := {[ "new.cache" := [xca; xfe; x00; x01] ]} |}.

(** An archive that ends inside the name of its only record. *)
Definition truncated_archive : list byte :=
  archive_header ++ short_bytes 5 ++ [x61; x2f].

(** An archive in which the path [a/b] occurs twice. *)
Definition twice : list record :=
  [ {| rec_name := "a/b"; rec_flag := x00; rec_len := 2;
       rec_payload := [x68; x69] |};
    {| rec_name := "a/b"; rec_flag := x00; rec_len := -1; rec_payload := [] |} ].

Definition world_twice : World :=
  {| SourceRoot := ""; UseNewCache := false;
     disk := {[ "/tmp/twice" := archive_bytes 1 twice ]} |}.

(** A path of 65537 characters. *)
Definition long_path : string :=
  String "a" (String "/" (string_of_list_ascii (replicate (Z.to_nat 65535) "b"%char))).

(** A world that runs on the alternate backend. *)
Definition world_new_cache : World :=
  {| SourceRoot := ""; UseNewCache := true; disk := ∅ |}.

(** An archive of two records, the second stored compressed, alone and
    followed by a stray byte. *)
Definition pair : list record :=
  [ {| rec_name := "a/b"; rec_flag := x00; rec_len := 2;
       rec_payload := [x68; x69] |};
    {| rec_name := "a/c"; rec_flag := x01; rec_len := 3;
       rec_payload := [x1f; x02; x61] |} ].

Definition world_pair : World :=
  {| SourceRoot := ""; UseNewCache := false;
     disk := {[ "/tmp/pair" := archive_bytes 1 pair ]} |}.

Definition world_stray : World :=
  {| SourceRoot := ""; UseNewCache := false;
     disk := {[ "/tmp/pair" := archive_bytes 1 pair ++ [x07] ]} |}.

(** A path with a NUL character after its first character, in two
    records without payload. *)
Definition nul_path : string := String "a" (String zero "b").

Definition nul_records : list record :=
  [ {| rec_name := nul_path; rec_flag := x00; rec_len := -1; rec_payload := [] |};
    {| rec_name := nul_path; rec_flag := x00; rec_len := -2; rec_payload := [] |} ].

Definition world_nul : World :=
  {| SourceRoot := ""; UseNewCache := false;
     disk := {[ "/tmp/nul" := archive_bytes 1 nul_records ]} |}.

(** An archive whose two records carry the same path, one with a NUL
    character in it, and different payloads. *)
Definition nul_twice : list record :=
  [ {| rec_name := nul_path; rec_flag := x00; rec_len := 2;
       rec_payload := [x68; x69] |};
    {| rec_name := nul_path; rec_flag := x00; rec_len := 2;
       rec_payload := [x68; x6f] |} ].

Definition world_nul_twice : World :=
  {| SourceRoot := ""; UseNewCache := false;
     disk := {[ "/tmp/nul2" := archive_bytes 1 nul_twice ]} |}.

(** The path [a] registered as a file, and [a/b/c] registered after
    it. *)
Definition file_a := write "a" false world0 new_FileCache.
Definition file_a_then_abc := write "a/b/c" true file_a.1.2 file_a.2.

(** A session of the builder. *)
Definition calls1 : list operation :=
  [ CallWrite "app.php" true;
    CallWriteFile "assets/data.txt" "/src/a.txt";
    CallSave "/tmp/archive" ].

Definition session1 := session calls1 world1 new_FileCache.

(** The archive of [pair] cut off five bytes into its second record. *)
Definition world_cut : World :=
  {| SourceRoot := ""; UseNewCache := false;
     disk := {[ "/tmp/cut" := archive_bytes 1 (take 1 pair)
                              ++ take 5 (concat (map (record_bytes 1) (drop 1 pair))) ]} |}.

End Sample.

(** * Properties *)

(** ** Integers and streams *)

Section Basics.

Lemma Z_of_byte_range b : 0 <= Z_of_byte b < 256.
Proof.
  unfold Z_of_byte. pose proof (Byte.to_N_bounded b). lia.
Qed.

Lemma Z_of_byte_of_Z z : Z_of_byte (byte_of_Z z) = z mod 256.
Proof.
  unfold Z_of_byte, byte_of_Z.
  assert (H : 0 <= z mod 256 < 256) by (apply Z.mod_pos_bound; lia).
  destruct (Byte.of_N (Z.to_N (z mod 256))) as [b|] eqn:Hb.
  - apply Byte.to_of_N in Hb. simpl. rewrite Hb. lia.
  - apply Byte.of_N_None_iff in Hb. lia.
Qed.

Lemma byte_of_Z_of_byte b : byte_of_Z (Z_of_byte b) = b.
Proof.
  unfold byte_of_Z. pose proof (Z_of_byte_range b) as H.
  rewrite Z.mod_small by lia. unfold Z_of_byte. rewrite N2Z.id.
  by rewrite Byte.of_to_N.
Qed.

Lemma length_le_bytes n z : length (le_bytes n z) = n.
Proof. revert z. induction n as [|n IH]; intros z; simpl; [done | by rewrite IH]. Qed.

Lemma le_value_le_bytes n z : le_value (le_bytes n z) = z mod 256 ^ Z.of_nat n.
Proof.
  revert z. induction n as [|n IH]; intros z.
  - simpl. by rewrite Z.mod_1_r.
  - cbn [le_bytes le_value]. rewrite IH, Z_of_byte_of_Z.
    rewrite Nat2Z.inj_succ, Z.pow_succ_r by lia.
    rewrite Z.rem_mul_r by lia. lia.
Qed.

Lemma wrap_small w z : 0 < w -> - 2 ^ (w - 1) <= z < 2 ^ (w - 1) -> wrap w z = z.
Proof.
  intros Hw Hz. unfold wrap.
  assert (2 ^ w = 2 * 2 ^ (w - 1)) as ->.
  { replace w with (Z.succ (w - 1)) at 1 by lia. rewrite Z.pow_succ_r; lia. }
  rewrite Z.mod_small; lia.
Qed.

Lemma wrap_mod w z : 0 < w -> wrap w (z mod 2 ^ w) = wrap w z.
Proof.
  intros Hw. unfold wrap.
  rewrite Zplus_mod_idemp_l. done.
Qed.

Lemma bytes_short_short_bytes z : -32768 <= z < 32768 -> bytes_short (short_bytes z) = z.
Proof.
  intros Hz. unfold bytes_short, short_bytes, to_short.
  rewrite le_value_le_bytes. change (256 ^ Z.of_nat 2) with (2 ^ 16).
  rewrite wrap_mod by lia. apply wrap_small; lia.
Qed.

Lemma bytes_int_int_bytes z : -2147483648 <= z < 2147483648 -> bytes_int (int_bytes z) = z.
Proof.
  intros Hz. unfold bytes_int, int_bytes, to_int.
  rewrite le_value_le_bytes. change (256 ^ Z.of_nat 4) with (2 ^ 32).
  rewrite wrap_mod by lia. apply wrap_small; lia.
Qed.

Lemma wrap_range w z : 0 < w -> - 2 ^ (w - 1) <= wrap w z < 2 ^ (w - 1).
Proof.
  intros Hw. unfold wrap.
  assert (2 ^ w = 2 * 2 ^ (w - 1)) as Hp.
  { replace w with (Z.succ (w - 1)) at 1 by lia. rewrite Z.pow_succ_r; lia. }
  assert (0 < 2 ^ (w - 1)) by (apply Z.pow_pos_nonneg; lia).
  pose proof (Z.mod_pos_bound (z + 2 ^ (w - 1)) (2 ^ w)). lia.
Qed.

Lemma read_bytes_spec f n :
  read_bytes f n =
    (bool_decide (0 < n ≤ length (f_rest f))%nat, take n (f_rest f),
     {| f_rest := drop n (f_rest f);
        f_eof := f_eof f || (length (f_rest f) <? n)%nat |}).
Proof.
  unfold read_bytes. destruct f as [rest eof]. cbn [f_rest f_eof].
  destruct n as [|n].
  { cbn [read_bytes_loop Nat.eqb negb]. rewrite drop_0, take_0.
    rewrite bool_decide_false by lia.
    replace (length rest <? 0)%nat with false by (symmetry; apply Nat.ltb_ge; lia).
    by rewrite orb_false_r. }
  cbn [read_bytes_loop Nat.eqb fread f_rest f_eof].
  rewrite length_take.
  destruct (decide (length rest = 0)%nat) as [H0|H0].
  { apply length_zero_iff_nil in H0 as ->. cbn [length]. 
    rewrite Nat.min_0_r. cbn [Nat.eqb negb]. rewrite take_nil, drop_nil.
    rewrite bool_decide_false by lia. done. }
  destruct (Nat.eqb_spec (S n `min` length rest) 0) as [?|_]; [lia|].
  destruct (decide (S n ≤ length rest)%nat) as [Hle|Hgt].
  - replace (S n `min` length rest)%nat with (S n) by lia.
    rewrite Nat.sub_diag.
    rewrite bool_decide_true by lia.
    replace (length rest <? S n)%nat with false by (symmetry; apply Nat.ltb_ge; lia).
    destruct n; reflexivity.
  - replace (S n `min` length rest)%nat with (length rest) by lia.
    destruct n as [|n]; [lia|].
    cbn [read_bytes_loop].
    destruct (Nat.eqb_spec (S (S n) - length rest) 0) as [?|_]; [lia|].
    cbn [fread f_rest f_eof].
    rewrite (drop_ge rest) by lia.
    rewrite take_nil, drop_nil. cbn [length Nat.eqb app negb].
    rewrite bool_decide_false by lia.
    replace (length rest <? S (S n))%nat with true by (symmetry; apply Nat.ltb_lt; lia).
    rewrite !orb_true_r. rewrite take_ge by lia. done.
Qed.

End Basics.

(** ** Queries *)

Section Queries.
Context `{E : Externals}.

Lemma read_found w fc name len0 compressed :
  UseNewCache w = false → nonempty name = true →
  read w fc name len0 compressed =
    match find fc name with
    | Some buf =>
        if compressed && bool_decide (is_Some (cdata buf)) then
          if 0 <? clen buf then Ok (mkRead (cdata buf) (clen buf) compressed)
          else Abort
        else if negb compressed && bool_decide (data buf = None)
                && bool_decide (is_Some (cdata buf)) then
          if 0 <? clen buf then Ok (mkRead (cdata buf) (clen buf) true)
          else Abort
        else if len buf =? 0 then
          if bool_decide (data buf = None) then Ok (mkRead (Some []) 0 false)
          else Abort
        else Ok (mkRead (data buf) (len buf) false)
    | None => Ok (mkRead None len0 compressed)
    end.
Proof. intros Hw Hn. unfold read. by rewrite Hn, Hw. Qed.

Lemma exists_found w fc name :
  UseNewCache w = false → nonempty name = true →
  exists_ w fc name true = bool_decide (is_Some (find fc name)).
Proof. intros Hw Hn. unfold exists_, exists_relative. by rewrite Hw, Hn. Qed.

(** C2: an entry that has a compressed form and no raw data is read as its
    compressed bytes and length, and the flag the caller passed as
    [false] comes back [true]. *)
Theorem read_only_compressed_forces_flag w fc name len0 buf c :
  UseNewCache w = false →
  exists_ w fc name true = true →
  find fc name = Some buf →
  data buf = None →
  cdata buf = Some c →
  0 < clen buf →
  read w fc name len0 false = Ok (mkRead (Some c) (clen buf) true).
Proof.
  intros Hw Hex Hf Hd Hc Hl.
  assert (nonempty name = true) as Hn.
  { unfold exists_, exists_relative in Hex. rewrite Hw in Hex.
    by destruct (nonempty name). }
  rewrite read_found by done. rewrite Hf, Hd, Hc.
  cbn [andb negb].
  rewrite !bool_decide_true by eauto.
  by destruct (Z.ltb_spec 0 (clen buf)); [|lia].
Qed.

Lemma read_absent w fc name len0 compressed :
  UseNewCache w = false →
  exists_ w fc name true = false →
  read w fc name len0 compressed = Ok (mkRead None len0 compressed).
Proof.
  intros Hw Hex. unfold read. unfold exists_, exists_relative in Hex.
  rewrite Hw in *. destruct (nonempty name); [|done].
  destruct (find fc name); [|done].
  by rewrite bool_decide_true in Hex by eauto.
Qed.

(** C10: a directory entry and a placeholder without a compressed form
    are read as the null pointer, which is also what an absent path is
    read as, although [exists] (and [fileExists] for the placeholder)
    answers true; a pointer that is not null comes from an entry of
    length 0, from raw data of positive length, or from a compressed
    form. *)
Theorem read_null_unless_bytes w fc :
  UseNewCache w = false →
  raw_lengths_ok fc →
  (∀ name len0 compressed buf,
     nonempty name = true →
     find fc name = Some buf →
     data buf = None → cdata buf = None →
     len buf = -2 ∨ len buf = -1 →
     read w fc name len0 compressed = Ok (mkRead None (len buf) false)
     ∧ exists_ w fc name true = true
     ∧ (len buf = -1 → fileExists w fc name true = true))
  ∧ (∀ absent len0 compressed,
       exists_ w fc absent true = false →
       read w fc absent len0 compressed = Ok (mkRead None len0 compressed))
  ∧ (∀ name len0 compressed r,
       read w fc name len0 compressed = Ok r →
       is_Some (r_ptr r) →
       ∃ buf, find fc name = Some buf ∧
         (len buf = 0 ∨ (0 < len buf ∧ is_Some (data buf)) ∨ is_Some (cdata buf))).
Proof.
  intros Hw Hinv. split; [|split].
  - intros name len0 compressed buf Hn Hf Hd Hc Hl.
    rewrite read_found, exists_found by done.
    unfold fileExists, fileExists_relative. rewrite Hw, Hn, Hf, Hd, Hc.
    cbn [andb]. rewrite andb_false_r.
    rewrite (bool_decide_false (is_Some None)) by (by intros [? ?]).
    rewrite andb_false_r. rewrite bool_decide_true by eauto.
    destruct Hl as [-> | ->]; cbn; repeat split; done.
  - intros. by apply read_absent.
  - intros name len0 compressed r Hr Hp.
    unfold read in Hr. rewrite Hw in Hr.
    destruct (nonempty name); [|simplify_eq; by destruct Hp].
    destruct (find fc name) as [buf|] eqn:Hf; [|simplify_eq; by destruct Hp].
    exists buf. split; [done|].
    specialize (Hinv _ _ Hf). cbn beta in Hinv.
    repeat case_match; simplify_eq; cbn [r_ptr] in *.
    all: repeat match goal with
         | H : _ && _ = true |- _ => apply andb_true_iff in H as [? ?]
         | H : bool_decide _ = true |- _ => apply bool_decide_eq_true_1 in H
         | H : (_ =? _) = true |- _ => apply Z.eqb_eq in H
         | H : (_ =? _) = false |- _ => apply Z.eqb_neq in H
         end.
    all: try (right; right; done).
    all: try (left; done).
    right; left. split; [|done]. specialize (Hinv Hp). lia.
Qed.

End Queries.

Section Version.
Context `{E : Externals}.

(** C3 (amended): on a file that is not in the alternate format,
    [getVersion] answers -1 when the file has fewer than two bytes or its
    first two-byte field is positive; when that field is zero or negative
    (the marker -1 or any other such value) it answers the second
    two-byte field.  It answers 1 on both [00 00 01 00] and
    [FF FF 01 00]. *)
Theorem getVersion_reads_version_unless_positive_tag w fc filename content :
  nonempty filename = true →
  isNewCache (Some content) = false →
  disk w !! c_str filename = Some content →
  ((length content < 2)%nat → getVersion filename w fc = (Ok (-1), w, fc))
  ∧ (∀ b0 b1 rest, content = b0 :: b1 :: rest → 0 < bytes_short [b0; b1] →
       getVersion filename w fc = (Ok (-1), w, fc))
  ∧ (∀ b0 b1 b2 b3 rest, content = b0 :: b1 :: b2 :: b3 :: rest →
       bytes_short [b0; b1] ≤ 0 →
       getVersion filename w fc = (Ok (bytes_short [b2; b3]), w, fc))
  ∧ (content = [x00; x00; x01; x00] → getVersion filename w fc = (Ok 1, w, fc))
  ∧ (content = [xff; xff; x01; x00] → getVersion filename w fc = (Ok 1, w, fc)).
Proof.
  intros Hn Hnew Hd.
  assert (Hgen : getVersion filename w fc =
    (let r := read_bytes (fopen_r content) 2 in
     let tag := bytes_short (overlay r.1.2 (short_bytes (-1))) in
     if negb r.1.1 || (0 <? tag) then ret (-1)
     else
       let r' := read_bytes r.2 2 in
       ret (bytes_short (overlay r'.1.2 (short_bytes (-1))))) w fc).
  { unfold getVersion, bind, assert, world. rewrite Hn. cbn.
    rewrite Hd, Hnew. done. }
  rewrite Hgen. clear Hgen. cbv zeta. rewrite !read_bytes_spec.
  cbn [fst snd fopen_r f_rest f_eof].
  assert (Hlong : ∀ b0 b1 b2 b3 rest, content = b0 :: b1 :: b2 :: b3 :: rest →
       bytes_short [b0; b1] ≤ 0 →
       (if negb (bool_decide (0 < 2 ≤ length content)%nat)
           || (0 <? bytes_short (overlay (take 2 content) (short_bytes (-1))))
        then ret (-1)
        else ret (bytes_short (overlay (take 2 (drop 2 content)) (short_bytes (-1)))))
         w fc = (Ok (bytes_short [b2; b3]), w, fc)).
  { intros b0 b1 b2 b3 rest -> Htag.
    rewrite bool_decide_true by (cbn; lia).
    cbn [take drop overlay length app negb orb short_bytes le_bytes].
    rewrite take_0. cbn [app length drop].
    destruct (Z.ltb_spec 0 (bytes_short [b0; b1])); [lia|]. reflexivity. }
  split; [|split; [|split; [|split]]].
  - intros Hlen. rewrite bool_decide_false by lia. reflexivity.
  - intros b0 b1 rest -> Htag.
    rewrite bool_decide_true by (cbn; lia).
    cbn [take drop overlay length app negb orb short_bytes le_bytes].
    rewrite take_0. cbn [app length drop].
    destruct (Z.ltb_spec 0 (bytes_short [b0; b1])); [reflexivity|lia].
  - exact Hlong.
  - intros Hc. rewrite (Hlong _ _ _ _ _ Hc); [reflexivity | by vm_compute].
  - intros Hc. rewrite (Hlong _ _ _ _ _ Hc); [reflexivity | by vm_compute].
Qed.

End Version.

Section QueryExamples.
Import Toy Sample.

Lemma read_only_compressed_forces_flag_witness :
  read (reloaded true).1.2 (reloaded true).2 "assets/data.txt" 0 false
  = Ok (mkRead (Some [x1f; x28; x61; x01; x62; x01; x63; x00]) 7 true).
Proof.
  apply (read_only_compressed_forces_flag (reloaded true).1.2 (reloaded true).2
           "assets/data.txt" 0
           {| len := -1; data := None; clen := 7;
              cdata := Some [x1f; x28; x61; x01; x62; x01; x63; x00] |}).
  all: vm_compute; first [reflexivity | done].
Defined.

Lemma read_null_unless_bytes_witness :
  read (reloaded false).1.2 (reloaded false).2 "assets" 0 true
  = Ok (mkRead None (-2) false).
Proof.
  refine (proj1 (proj1 (read_null_unless_bytes (reloaded false).1.2
                          (reloaded false).2 _ _)
                  "assets" 0 true
                  {| len := -2; data := None; clen := -1; cdata := None |}
                  _ _ _ _ _)).
  - reflexivity.
  - apply (bool_decide_eq_true_1 (raw_lengths_ok _)). by vm_compute.
  - reflexivity.
  - by vm_compute.
  - reflexivity.
  - reflexivity.
  - left. reflexivity.
Defined.

Lemma getVersion_reads_version_unless_positive_tag_witness :
  getVersion "cache" world_marker new_FileCache
  = (Ok 1, world_marker, new_FileCache).
Proof.
  refine (proj2 (proj2 (proj2 (proj2
    (getVersion_reads_version_unless_positive_tag world_marker new_FileCache
       "cache" [xff; xff; x01; x00] _ _ _)))) _); reflexivity.
Defined.

(** C3 fails as stated: the first field of [00 00 01 00] is not the
    marker, and [getVersion] answers 1, not -1. *)
Lemma getVersion_zero_tag_counterexample :
  bytes_short [x00; x00] ≠ -1
  ∧ (getVersion "cache" world_zero_tag new_FileCache).1.1 = Ok 1
  ∧ (getVersion "cache" world_zero_tag new_FileCache).1.1 ≠ Ok (-1).
Proof. split; [|split]; by vm_compute. Qed.

End QueryExamples.

Section Strings.

Lemma c_str_idemp s : c_str (c_str s) = c_str s.
Proof.
  induction s as [|c s IH]; [done|]. cbn [c_str].
  destruct (Ascii.eqb c zero) eqn:Hc; [done|]. cbn [c_str]. by rewrite Hc, IH.
Qed.

Lemma c_str_substring_prefix s i :
  c_str (String.substring 0 i (c_str s)) = String.substring 0 i (c_str s).
Proof.
  revert i. induction s as [|c s IH]; intros i.
  - by destruct i.
  - cbn [c_str]. destruct (Ascii.eqb c zero) eqn:Hc; [by destruct i|].
    destruct i as [|i]; [done|]. cbn [String.substring c_str]. by rewrite Hc, IH.
Qed.

Lemma nonempty_c_str s : nonempty (c_str s) = nonempty s.
Proof. unfold nonempty. by rewrite c_str_idemp. Qed.

Lemma nonempty_substring_prefix s i :
  nonempty s = true → (1 ≤ i)%nat →
  nonempty (String.substring 0 i (c_str s)) = true.
Proof.
  unfold nonempty. intros Hs Hi. rewrite c_str_substring_prefix.
  destruct (c_str s) as [|c r]; [done|].
  destruct i; [lia|]. done.
Qed.

Lemma length_string_bytes s : length (string_bytes s) = String.length s.
Proof.
  unfold string_bytes, String.list_byte_of_string.
  rewrite length_map. induction s; simpl; congruence.
Qed.

Lemma bytes_string_string_bytes s : bytes_string (string_bytes s) = s.
Proof. apply String.string_of_list_byte_of_string. Qed.

Lemma string_bytes_bytes_string bs : string_bytes (bytes_string bs) = bs.
Proof. apply String.list_byte_of_string_of_list_byte. Qed.

End Strings.

Section Directories.
Context `{E : Externals}.

Lemma with_files_id fc : with_files fc (m_files fc) = fc.
Proof. by destruct fc. Qed.

Lemma exists_lookup w fc key :
  UseNewCache w = false → nonempty key = true → c_str key = key →
  exists_ w fc key true = bool_decide (is_Some (m_files fc !! key)).
Proof.
  intros Hw Hn Hk. unfold exists_, exists_relative, find. by rewrite Hw, Hn, Hk.
Qed.

Lemma union_insert_present (m D : gmap string Buffer) d x :
  is_Some (m !! d) → m ∪ <[d := x]> D = m ∪ D.
Proof.
  intros [b Hb]. apply map_eq. intros k. rewrite !lookup_union.
  destruct (decide (d = k)) as [<-|Hne].
  - rewrite Hb. by rewrite !union_Some_l.
  - by rewrite lookup_insert_ne.
Qed.

Lemma writeDirectories_at_spec name i w fc :
  UseNewCache w = false → nonempty name = true → (1 ≤ i)%nat →
  writeDirectories_at (c_str name) i w fc
  = (Ok tt, w, with_files fc (m_files fc ∪ dir_entries (c_str name) [i])).
Proof.
  intros Hw Hn Hi. unfold writeDirectories_at. cbn [dir_entries].
  assert (Hid : (Ok (), w, with_files fc (m_files fc ∪ ∅)) = (Ok (), w, fc)).
  { by rewrite (right_id_L ∅ (∪)), with_files_id. }
  destruct (char_is (c_str name) i "/"); [|by rewrite Hid].
  unfold bind, world, this. rewrite exists_lookup; [|done| |].
  2: { by apply nonempty_substring_prefix. }
  2: { apply c_str_substring_prefix. }
  case_bool_decide as Hex.
  - rewrite union_insert_present by done. by rewrite Hid.
  - unfold store. rewrite <- insert_union_r by (by apply eq_None_not_Some).
    by rewrite (right_id_L ∅ (∪)).
Qed.

Lemma for_each_writeDirectories name l w fc :
  UseNewCache w = false → nonempty name = true →
  Forall (λ i, 1 ≤ i)%nat l →
  for_each l (writeDirectories_at (c_str name)) w fc
  = (Ok tt, w, with_files fc (m_files fc ∪ dir_entries (c_str name) l)).
Proof.
  intros Hw Hn. revert fc. induction l as [|i l IH]; intros fc Hl.
  - cbn. rewrite (right_id_L ∅ (∪)). by rewrite with_files_id.
  - apply Forall_cons in Hl as [Hi Hl]. cbn [for_each].
    unfold bind at 1. rewrite writeDirectories_at_spec by done.
    rewrite IH by done. cbn [with_files m_files m_fd m_size m_addr cache_manager_].
    do 2 f_equal.
    rewrite <- (assoc_L (∪)). f_equal.
    cbn [dir_entries].
    destruct (char_is (c_str name) i "/"); [|by rewrite (left_id_L ∅ (∪))].
    by rewrite <- insert_union_l, (left_id_L ∅ (∪)).
Qed.

Lemma writeDirectories_spec name w fc :
  UseNewCache w = false → nonempty name = true →
  writeDirectories name w fc
  = (Ok tt, w,
     with_files fc (m_files fc ∪ dir_entries (c_str name) (dir_indices name))).
Proof.
  intros Hw Hn. unfold writeDirectories. apply for_each_writeDirectories; [done..|].
  apply Forall_forall. intros i Hi%list_elem_of_In%in_seq. lia.
Qed.

End Directories.

Section BuilderFacts.
Context `{E : Externals}.

Lemma to_int_small z : -2147483648 ≤ z < 2147483648 → to_int z = z.
Proof. intros. apply wrap_small; lia. Qed.

Lemma mem_take_all (bs : list byte) :
  mem_take (Some bs) (Z.of_nat (length bs)) = Some bs.
Proof.
  unfold mem_take.
  destruct (Z.leb_spec 0 (Z.of_nat (length bs))); [|lia].
  destruct (Z.leb_spec (Z.of_nat (length bs)) (Z.of_nat (length bs))); [|lia].
  cbn. by rewrite Nat2Z.id, firstn_all.
Qed.

Lemma write_file_spec name fullpath content w fc :
  UseNewCache w = false →
  nonempty name = true → nonempty fullpath = true →
  exists_ w fc name true = false →
  disk w !! c_str fullpath = Some content →
  Z.of_nat (length content) < 2147483648 →
  write_file name fullpath w fc
  = (Ok tt, w,
     with_files fc (<[c_str name := file_buffer name content]> (m_files fc)
                    ∪ dir_entries (c_str name) (dir_indices name))).
Proof.
  intros Hw Hn Hfp Hex Hd Hlen.
  unfold write_file. mrun. rewrite Hn, Hfp, Hex, Hw, Hd. mrun.
  rewrite to_int_small by lia.
  set (n := Z.of_nat (length content)) in *.
  unfold file_buffer. fold n.
  destruct (Z.eqb_spec n 0) as [H0|H0].
  { mrun. rewrite writeDirectories_spec by done.
    cbn [with_files m_files m_fd m_size m_addr cache_manager_]. by rewrite H0. }
  destruct (Z.ltb_spec n 0) as [?|_]; [lia|].
  rewrite read_bytes_spec. cbn [fst snd fopen_r f_rest f_eof].
  rewrite bool_decide_true by (subst n; lia).
  rewrite firstn_all2 by (subst n; lia).
  cbn [negb]. unfold compress_gate. cbn [len data].
  unfold n at 1. rewrite mem_take_all.
  destruct (is_compressible_file (c_str name));
    [destruct (gzencode content) as [compressed|];
      [destruct (Z.of_nat (length compressed) <? int_div (int_mul n 3) 4)|]|].
  all: mrun; rewrite writeDirectories_spec by done.
  all: cbn [with_files m_files m_fd m_size m_addr cache_manager_].
  all: by rewrite !insert_insert_eq.
Qed.

Lemma write_spec name addDirectories w fc :
  UseNewCache w = false →
  nonempty name = true →
  exists_ w fc name true = false →
  write name addDirectories w fc
  = (Ok tt, w,
     with_files fc (<[c_str name := php_file]> (m_files fc)
                    ∪ (if addDirectories
                       then dir_entries (c_str name) (dir_indices name)
                       else ∅))).
Proof.
  intros Hw Hn Hex. unfold write. mrun. rewrite Hn, Hex, Hw. mrun.
  destruct addDirectories.
  - rewrite writeDirectories_spec by done. done.
  - by rewrite (right_id_L ∅ (∪)).
Qed.

Lemma len_file_buffer name content :
  len (file_buffer name content) = Z.of_nat (length content).
Proof.
  unfold file_buffer. repeat case_match; cbn [len]; try done.
  by apply Z.eqb_eq.
Qed.

Lemma data_file_buffer name content :
  content ≠ [] → data (file_buffer name content) = Some content.
Proof.
  intros Hc. unfold file_buffer.
  destruct (Z.eqb_spec (Z.of_nat (length content)) 0) as [H0|H0].
  { destruct content; [done|]. cbn in H0. lia. }
  repeat case_match; done.
Qed.

(** C4 (amended): for a compressible file of [S] bytes, [0 < S < 2^31],
    that the codec compresses to [C] bytes, the entry keeps the compressed
    form exactly when [C < (S * 3) / 4] in the [int] arithmetic of the
    code, and keeps only the raw bytes otherwise.  A [C] of 0.80 S is
    always dropped; a [C] of 0.74 S is kept when [S >= 100] and [S * 3]
    does not overflow. *)
Theorem compression_gate name fullpath content compressed w fc :
  UseNewCache w = false →
  nonempty name = true → nonempty fullpath = true →
  exists_ w fc name true = false →
  disk w !! c_str fullpath = Some content →
  0 < Z.of_nat (length content) < 2147483648 →
  is_compressible_file (c_str name) = true →
  gzencode content = Some compressed →
  let S := Z.of_nat (length content) in
  let C := Z.of_nat (length compressed) in
  let r := write_file name fullpath w fc in
  ∃ b,
    r.1.1 = Ok tt ∧ find r.2 name = Some b
    ∧ len b = S ∧ data b = Some content
    ∧ (C < int_div (int_mul S 3) 4 → cdata b = Some compressed ∧ clen b = C)
    ∧ (int_div (int_mul S 3) 4 ≤ C → cdata b = None ∧ clen b = -1)
    ∧ (3 * S < 2147483648 → (C < int_div (int_mul S 3) 4 ↔ 4 * C + 4 ≤ 3 * S))
    ∧ (5 * C = 4 * S → cdata b = None)
    ∧ (100 * C = 74 * S → 100 ≤ S → 3 * S < 2147483648 →
       cdata b = Some compressed).
Proof.
  intros Hw Hn Hfp Hex Hd HS Hcomp Henc S C r.
  assert (Hsmall : 3 * S < 2147483648 → int_div (int_mul S 3) 4 = 3 * S / 4).
  { intros H3. unfold int_div, int_mul. rewrite (to_int_small (S * 3)) by lia.
    rewrite Z.quot_div_nonneg by lia. rewrite to_int_small.
    - f_equal; lia.
    - assert (0 ≤ S * 3 / 4 ≤ S * 3) by (split; [apply Z.div_pos|apply Z.div_le_upper_bound]; lia).
      lia. }
  assert (Hbound : int_div (int_mul S 3) 4 < 536870912).
  { unfold int_div, int_mul.
    pose proof (wrap_range 32 (S * 3) ltac:(lia)) as Hr. fold (to_int (S * 3)) in Hr.
    change (2 ^ (32 - 1)) with 2147483648 in Hr.
    assert (-536870912 ≤ to_int (S * 3) ÷ 4 < 536870912) as Hq.
    { pose proof (Z.quot_le_mono (to_int (S * 3)) 2147483647 4 ltac:(lia) ltac:(lia)) as Hu.
      pose proof (Z.quot_le_mono (-2147483648) (to_int (S * 3)) 4 ltac:(lia) ltac:(lia)) as Hl.
      change (2147483647 ÷ 4) with 536870911 in Hu.
      change (-2147483648 ÷ 4) with (-536870912) in Hl. lia. }
    rewrite to_int_small; lia. }
  exists (file_buffer name content).
  subst r. rewrite (write_file_spec name fullpath content) by (done || lia).
  cbn [fst snd].
  split; [done|]. split.
  { unfold find. cbn [with_files m_files].
    apply lookup_union_Some_l. by rewrite lookup_insert_eq. }
  split; [apply len_file_buffer|].
  split. { apply data_file_buffer. intros ->. cbn in HS. lia. }
  assert (Hkeep : C < int_div (int_mul S 3) 4 →
            cdata (file_buffer name content) = Some compressed
            ∧ clen (file_buffer name content) = C).
  { intros Hlt. unfold file_buffer. fold S. rewrite Hcomp, Henc. fold C.
    destruct (Z.eqb_spec S 0); [lia|].
    destruct (Z.ltb_spec C (int_div (int_mul S 3) 4)); [done|lia]. }
  assert (Hdrop : int_div (int_mul S 3) 4 ≤ C →
            cdata (file_buffer name content) = None
            ∧ clen (file_buffer name content) = -1).
  { intros Hge. unfold file_buffer. fold S. rewrite Hcomp, Henc. fold C.
    destruct (Z.eqb_spec S 0); [lia|].
    destruct (Z.ltb_spec C (int_div (int_mul S 3) 4)); [lia|done]. }
  split; [done|]. split; [done|]. split; [|split].
  - intros H3. rewrite Hsmall by done.
    pose proof (Z.div_mod (3 * S) 4 ltac:(lia)).
    pose proof (Z.mod_pos_bound (3 * S) 4 ltac:(lia)). lia.
  - intros H80. apply Hdrop.
    destruct (Z.lt_ge_cases (3 * S) 2147483648) as [H3|H3].
    + rewrite Hsmall by done.
      pose proof (Z.div_mod (3 * S) 4 ltac:(lia)).
      pose proof (Z.mod_pos_bound (3 * S) 4 ltac:(lia)). lia.
    + lia.
  - intros H74 H100 H3. apply Hkeep. rewrite Hsmall by done.
    pose proof (Z.div_mod (3 * S) 4 ltac:(lia)).
    pose proof (Z.mod_pos_bound (3 * S) 4 ltac:(lia)). lia.
Qed.

Lemma dir_entries_abc :
  dir_entries (c_str "a/b/c") (dir_indices "a/b/c")
  = <["a" := directory]> (<["a/b" := directory]> ∅).
Proof. reflexivity. Qed.

Lemma dirExists_lookup w fc key :
  UseNewCache w = false → nonempty key = true → c_str key = key →
  dirExists w fc key true
  = match m_files fc !! key with Some b => len b =? -2 | None => false end.
Proof.
  intros Hw Hn Hk. unfold dirExists, dirExists_relative, find.
  by rewrite Hw, Hn, Hk.
Qed.

(** C8 (amended): registering ["a/b/c"], as a placeholder with directory
    synthesis or as a file, makes it a file; each of the prefixes ["a"]
    and ["a/b"] gets a directory entry when it is not present and is left
    as it is when it is, so that [dirExists] holds of it afterwards when
    it was absent or a directory, and does not when it was registered as
    something else; no other key is stored, in particular none that ends
    with a slash. *)
Theorem register_abc_synthesizes_directories w fc r :
  UseNewCache w = false →
  exists_ w fc "a/b/c" true = false →
  r = write "a/b/c" true w fc
  ∨ (∃ fullpath content,
       nonempty fullpath = true ∧ disk w !! c_str fullpath = Some content
       ∧ Z.of_nat (length content) < 2147483648
       ∧ r = write_file "a/b/c" fullpath w fc) →
  r.1.1 = Ok tt
  ∧ fileExists w r.2 "a/b/c" true = true
  ∧ (∀ d, d = "a"%string ∨ d = "a/b"%string →
       (exists_ w fc d true = false → m_files r.2 !! d = Some directory)
       ∧ (exists_ w fc d true = true → m_files r.2 !! d = m_files fc !! d)
       ∧ (exists_ w fc d true = false ∨ dirExists w fc d true = true →
          dirExists w r.2 d true = true)
       ∧ (exists_ w fc d true = true → dirExists w fc d true = false →
          dirExists w r.2 d true = false))
  ∧ (∀ k, k ≠ "a/b/c"%string → k ≠ "a"%string → k ≠ "a/b"%string →
       m_files r.2 !! k = m_files fc !! k)
  ∧ m_files r.2 !! "a/"%string = m_files fc !! "a/"%string
  ∧ m_files r.2 !! "a/b/"%string = m_files fc !! "a/b/"%string
  ∧ m_files r.2 !! "a/b/c/"%string = m_files fc !! "a/b/c/"%string.
Proof.
  intros Hw Hex Hr.
  assert (∃ b, -1 ≤ len b ∧
            r = (Ok tt, w, with_files fc (<["a/b/c"%string := b]> (m_files fc)
                    ∪ <["a"%string := directory]> (<["a/b"%string := directory]> ∅))))
    as (b & Hb & ->).
  { destruct Hr as [-> | (fullpath & content & Hfp & Hd & Hlen & ->)].
    - exists php_file. split; [done|].
      rewrite write_spec by done. by rewrite dir_entries_abc.
    - exists (file_buffer "a/b/c" content). split.
      { rewrite len_file_buffer. lia. }
      rewrite (write_file_spec _ _ content) by done. by rewrite dir_entries_abc. }
  cbn [fst snd with_files m_files].
  assert (Hother : ∀ k, k ≠ "a/b/c"%string → k ≠ "a"%string → k ≠ "a/b"%string →
     (<["a/b/c"%string := b]> (m_files fc)
        ∪ <["a"%string := directory]> (<["a/b"%string := directory]> ∅)) !! k
     = m_files fc !! k).
  { intros k H1 H2 H3. rewrite lookup_union, lookup_insert_ne by done.
    rewrite !lookup_insert_ne by done. rewrite lookup_empty.
    by destruct (m_files fc !! k). }
  split; [done|]. split.
  { unfold fileExists, fileExists_relative, find. rewrite Hw.
    cbn [with_files m_files]. change (nonempty "a/b/c") with true.
    change (c_str "a/b/c") with "a/b/c"%string.
    erewrite lookup_union_Some_l by apply lookup_insert_eq.
    by apply Z.leb_le. }
  split; [|split; [done|]].
  2: { repeat split; by apply Hother. }
  intros d Hd.
  assert (nonempty d = true ∧ c_str d = d ∧ d ≠ "a/b/c"%string
          ∧ (<["a"%string := directory]> (<["a/b"%string := directory]> ∅)
               : gmap string Buffer) !! d = Some directory) as (Hn & Hc & Hne & HD).
  { destruct Hd as [-> | ->]; repeat split; done. }
  rewrite !exists_lookup, !dirExists_lookup by done.
  cbn [with_files m_files].
  rewrite lookup_union, lookup_insert_ne, HD by done.
  destruct (m_files fc !! d) as [b'|] eqn:Hb'; cbn.
  - repeat split; try done. intros [?|?]; done.
  - repeat split; done.
Qed.

End BuilderFacts.

Section BuilderExamples.
Import Toy Sample.

Lemma compression_gate_witness :
  ∃ b,
    (write_file "assets/data.txt" "/src/a.txt" world1 new_FileCache).1.1 = Ok tt
    ∧ find (write_file "assets/data.txt" "/src/a.txt" world1 new_FileCache).2
        "assets/data.txt" = Some b
    ∧ len b = 42 ∧ cdata b = Some [x1f; x28; x61; x01; x62; x01; x63] ∧ clen b = 7.
Proof.
  destruct (compression_gate "assets/data.txt" "/src/a.txt"
              (replicate 40 x61 ++ [x62; x63])
              [x1f; x28; x61; x01; x62; x01; x63] world1 new_FileCache)
    as (b & Hok & Hfind & Hlen & _ & Hkeep & _).
  1-8: by vm_compute.
  exists b. split; [exact Hok|]. split; [exact Hfind|]. split; [exact Hlen|].
  apply Hkeep. by vm_compute.
Defined.

(** C4 fails as stated: 37 bytes are 0.74 of 50, and yet the compressed
    form is dropped, because (50 * 3) / 4 is 37. *)
Lemma compression_gate_counterexample :
  ∃ compressed,
    gzencode fifty = Some compressed
    ∧ 100 * Z.of_nat (length compressed) = 74 * Z.of_nat (length fifty)
    ∧ is_compressible_file "f.txt" = true
    ∧ (write_file "f.txt" "/src/fifty.txt" world_fifty new_FileCache).1.1 = Ok tt
    ∧ find (write_file "f.txt" "/src/fifty.txt" world_fifty new_FileCache).2 "f.txt"
      = Some {| len := 50; data := Some fifty; clen := -1; cdata := None |}.
Proof. eexists. repeat split; by vm_compute. Qed.

Lemma register_abc_synthesizes_directories_witness :
  (write "a/b/c" true world0 new_FileCache).1.1 = Ok tt
  ∧ fileExists world0 (write "a/b/c" true world0 new_FileCache).2 "a/b/c" true = true
  ∧ dirExists world0 (write "a/b/c" true world0 new_FileCache).2 "a" true = true
  ∧ dirExists world0 (write "a/b/c" true world0 new_FileCache).2 "a/b" true = true
  ∧ m_files (write "a/b/c" true world0 new_FileCache).2 !! "a/b/c/"%string = None.
Proof.
  destruct (register_abc_synthesizes_directories world0 new_FileCache
              (write "a/b/c" true world0 new_FileCache))
    as (Hok & Hfile & Hdirs & _ & _ & _ & Hslash).
  - reflexivity.
  - reflexivity.
  - left. reflexivity.
  - split; [exact Hok|]. split; [exact Hfile|].
    split; [|split].
    + apply (Hdirs "a"%string); [by left | by left].
    + apply (Hdirs "a/b"%string); [by right | by left].
    + rewrite Hslash. reflexivity.
Defined.

(** C8 fails as stated: with ["a"] registered as a file, registering
    ["a/b/c"] succeeds and makes ["a/b"] a directory, but ["a"] stays the
    file it was and [dirExists] does not hold of it. *)
Lemma register_abc_keeps_file_counterexample :
  file_a.1.1 = Ok tt ∧ file_a_then_abc.1.1 = Ok tt
  ∧ fileExists file_a_then_abc.1.2 file_a_then_abc.2 "a/b/c" true = true
  ∧ dirExists file_a_then_abc.1.2 file_a_then_abc.2 "a/b" true = true
  ∧ fileExists file_a_then_abc.1.2 file_a_then_abc.2 "a" true = true
  ∧ dirExists file_a_then_abc.1.2 file_a_then_abc.2 "a" true = false.
Proof. repeat split; by vm_compute. Qed.

End BuilderExamples.

(** ** The configuration *)


Section Frame.
Context `{E : Externals}.

Lemma unchanged_ret {A} (a : A) : world_unchanged (ret a).
Proof. by intros w fc. Qed.
Lemma unchanged_throw {A} e : world_unchanged (throw (A := A) e).
Proof. by intros w fc. Qed.
Lemma unchanged_abort {A} : world_unchanged (abort (A := A)).
Proof. by intros w fc. Qed.
Lemma unchanged_undefined {A} : world_unchanged (undefined (A := A)).
Proof. by intros w fc. Qed.
Lemma unchanged_out_of_fuel {A} : world_unchanged (out_of_fuel (A := A)).
Proof. by intros w fc. Qed.
Lemma unchanged_assert b : world_unchanged (assert b).
Proof. by destruct b. Qed.
Lemma unchanged_world : world_unchanged world.
Proof. by intros w fc. Qed.
Lemma unchanged_this : world_unchanged this.
Proof. by intros w fc. Qed.
Lemma unchanged_set_this fc' : world_unchanged (set_this fc').
Proof. by intros w fc. Qed.
Lemma unchanged_store key b : world_unchanged (store key b).
Proof. by intros w fc. Qed.
Lemma unchanged_lift {A} (o : outcome A) : world_unchanged (lift o).
Proof. by intros w fc. Qed.
Lemma unchanged_const_method {A} (f : World → FileCache → outcome A) :
  world_unchanged (const_method f).
Proof. by intros w fc. Qed.

Lemma unchanged_bind {A B} (m : M A) (k : A → M B) :
  world_unchanged m → (∀ a, world_unchanged (k a)) →
  world_unchanged (bind m k).
Proof.
  intros Hm Hk w fc. unfold bind. specialize (Hm w fc).
  destruct (m w fc) as [[o w'] fc']. cbn in Hm. subst w'.
  destruct o; try done. apply Hk.
Qed.

Lemma unchanged_for_each {A} (l : list A) (body : A → M unit) :
  (∀ x, world_unchanged (body x)) → world_unchanged (for_each l body).
Proof.
  intros Hb. induction l as [|x l IH]; [apply unchanged_ret|].
  cbn [for_each]. apply unchanged_bind; [apply Hb | by intros _].
Qed.

Create HintDb unchanged.
#[local] Hint Resolve unchanged_ret unchanged_throw unchanged_abort unchanged_undefined
  unchanged_out_of_fuel unchanged_assert unchanged_world unchanged_this
  unchanged_set_this unchanged_store unchanged_lift unchanged_const_method
  : unchanged.

Ltac unchanged :=
  repeat first
    [ solve [auto with unchanged]
    | apply unchanged_bind; [|intros ?]
    | apply unchanged_for_each; intros ?
    | progress cbv zeta
    | match goal with
      | |- world_unchanged (if ?b then _ else _) => destruct b
      | |- world_unchanged (match ?x with _ => _ end) => destruct x
      end ].

Lemma unchanged_writeDirectories name : world_unchanged (writeDirectories name).
Proof. unfold writeDirectories, writeDirectories_at. unchanged. Qed.

Lemma unchanged_write name addDirectories :
  world_unchanged (write name addDirectories).
Proof. unfold write. pose proof unchanged_writeDirectories. unchanged. Qed.

Lemma unchanged_write_file name fullpath :
  world_unchanged (write_file name fullpath).
Proof. unfold write_file. pose proof unchanged_writeDirectories. unchanged. Qed.

Lemma unchanged_load_record filename onDemandUncompress version f :
  world_unchanged (load_record filename onDemandUncompress version f).
Proof. unfold load_record. unchanged. Qed.

Lemma unchanged_load_loop fuel filename onDemandUncompress version f :
  world_unchanged (load_loop fuel filename onDemandUncompress version f).
Proof.
  revert f. induction fuel as [|fuel IH]; intros f; cbn [load_loop].
  - apply unchanged_out_of_fuel.
  - pose proof unchanged_load_record. unchanged.
Qed.

Lemma unchanged_load filename onDemandUncompress version :
  world_unchanged (load filename onDemandUncompress version).
Proof. unfold load. pose proof unchanged_load_loop. unchanged. Qed.

Lemma unchanged_loadMmap_record filename region e p :
  world_unchanged (loadMmap_record filename region e p).
Proof. unfold loadMmap_record. unchanged. Qed.

Lemma unchanged_loadMmap_loop fuel filename region e p :
  world_unchanged (loadMmap_loop fuel filename region e p).
Proof.
  revert p. induction fuel as [|fuel IH]; intros p; cbn [loadMmap_loop].
  - apply unchanged_out_of_fuel.
  - pose proof unchanged_loadMmap_record. unchanged.
Qed.

Lemma unchanged_adviseOutMemory : world_unchanged adviseOutMemory.
Proof. unfold adviseOutMemory. unchanged. Qed.

Lemma unchanged_config {A} (m : M A) : world_unchanged m → config_unchanged m.
Proof. intros Hm w fc. by rewrite Hm. Qed.

Lemma save_keeps_config filename : config_unchanged (save filename).
Proof.
  intros w fc. unfold save. mrun.
  destruct (nonempty filename); [|done].
  destruct (UseNewCache w) eqn:Hw.
  - cbv zeta. cbn [with_disk]. by destruct (saveCache _ _ _).1.
  - destruct (can_create (c_str filename)); [|done].
    cbv zeta. by destruct (save_records _).2.
Qed.

(** C9 (amended): no operation changes [SourceRoot]; [UseNewCache] is
    set by [getVersion] and by [loadMmap] when they find the named file
    to be in the alternate format, and is left as it is in every other
    case. *)
Theorem configuration_changes_only_on_detection op w fc :
  SourceRoot (call op w fc).1.2 = SourceRoot w
  ∧ UseNewCache (call op w fc).1.2 = UseNewCache w || detects_new_cache op w
  ∧ (detects_new_cache op w = false →
     UseNewCache (call op w fc).1.2 = UseNewCache w).
Proof.
  assert (Hpure : ∀ m : M unit, detects_new_cache op w = false →
            config_unchanged m →
            SourceRoot (m w fc).1.2 = SourceRoot w
            ∧ UseNewCache (m w fc).1.2 = UseNewCache w || detects_new_cache op w
            ∧ (detects_new_cache op w = false →
               UseNewCache (m w fc).1.2 = UseNewCache w)).
  { intros m Hd Hm. destruct (Hm w fc) as [H1 H2].
    rewrite Hd, orb_false_r. done. }
  pose proof unchanged_write. pose proof unchanged_write_file.
  pose proof unchanged_load. pose proof unchanged_adviseOutMemory.
  destruct op; cbn [call].
  1-2, 5, 7-14: apply Hpure; [done|]; apply unchanged_config; unchanged.
  - apply Hpure; [done|]. apply save_keeps_config.
  - (* getVersion *)
    cbn [detects_new_cache]. unfold getVersion. mrun.
    destruct (nonempty filename); [|by rewrite orb_false_r].
    cbn [andb]. destruct (isNewCache (disk w !! c_str filename)).
    + cbn. rewrite orb_true_r. done.
    + rewrite orb_false_r.
      destruct (disk w !! c_str filename); [|done].
      cbv zeta.
      match goal with |- context [if ?b then _ else _] => destruct b end;
        mrun; done.
  - (* loadMmap *)
    cbn [detects_new_cache]. unfold loadMmap. mrun.
    assert (world_unchanged (loadMmap_parse filename version)) as Hrest.
    { unfold loadMmap_parse. pose proof unchanged_loadMmap_loop. unchanged. }
    destruct (nonempty filename); [|by rewrite orb_false_r].
    cbn [andb]. destruct (isNewCache (disk w !! c_str filename)).
    + rewrite Hrest. cbn. by rewrite orb_true_r.
    + rewrite Hrest. by rewrite orb_false_r.
Qed.

End Frame.

Section FrameExamples.
Import Toy Sample.

(** C9 fails as stated: [getVersion] on a file in the alternate format
    turns [UseNewCache] on. *)
Lemma getVersion_sets_UseNewCache_counterexample :
  UseNewCache world_new_format = false
  ∧ UseNewCache (call (CallGetVersion "new.cache") world_new_format new_FileCache).1.2
    = true
  ∧ UseNewCache (call (CallLoadMmap "new.cache" 1) world_new_format new_FileCache).1.2
    = true.
Proof. repeat split; by vm_compute. Qed.

(** On the archive written by [save], which is in the old format,
    [getVersion] leaves [UseNewCache] as it was. *)
Lemma configuration_changes_only_on_detection_witness :
  detects_new_cache (CallGetVersion "/tmp/archive") saved.1.2 = false
  ∧ UseNewCache (call (CallGetVersion "/tmp/archive") saved.1.2 new_FileCache).1.2
    = UseNewCache saved.1.2.
Proof.
  split; [by vm_compute|].
  refine (proj2 (proj2 (configuration_changes_only_on_detection
                          (CallGetVersion "/tmp/archive") saved.1.2
                          new_FileCache)) _).
  by vm_compute.
Defined.

End FrameExamples.

(** ** The loader over a mapped region *)

Section Mapped.
Context `{E : Externals}.

Lemma region_read_spec region p n :
  0 ≤ p → 0 ≤ n → p + n ≤ Z.of_nat (length region) →
  region_read region p n = Some (take (Z.to_nat n) (drop (Z.to_nat p) region)).
Proof.
  intros Hp Hn Hle. unfold region_read.
  destruct (Z.leb_spec 0 p); [|lia]. destruct (Z.leb_spec 0 n); [|lia].
  destruct (Z.leb_spec (p + n) (Z.of_nat (length region))); [|lia]. done.
Qed.

Lemma read_bytes_mem_spec region p n :
  0 ≤ p → 0 ≤ n →
  read_bytes_mem region p (Z.of_nat (length region)) n
  = if p + n <=? Z.of_nat (length region)
    then Ok (negb (n =? 0), take (Z.to_nat n) (drop (Z.to_nat p) region), p + n)
    else Ok (false, [], p).
Proof.
  intros Hp Hn. unfold read_bytes_mem.
  destruct (Z.leb_spec (p + n) (Z.of_nat (length region))); [|done].
  by rewrite region_read_spec.
Qed.

Lemma region_deref_spec region p :
  0 ≤ p < Z.of_nat (length region) → is_Some (region_deref region p).
Proof.
  intros Hp. unfold region_deref. destruct (Z.leb_spec 0 p); [|lia].
  apply lookup_lt_is_Some. lia.
Qed.

Lemma bytes_short_overlay bs :
  length bs = 2%nat → overlay bs (short_bytes (-1)) = bs.
Proof.
  intros Hl. unfold overlay. rewrite Hl. cbn. by rewrite app_nil_r.
Qed.

Lemma loadMmap_record_plan_eq filename region p w fc :
  0 ≤ p →
  loadMmap_record filename region (Z.of_nat (length region)) p w fc
  = loadMmap_record_plan filename region p w fc.
Proof.
  intros Hp. unfold loadMmap_record, loadMmap_record_plan.
  set (e := Z.of_nat (length region)).
  unfold bind at 1. unfold lift at 1. subst e.
  rewrite read_bytes_mem_spec by lia.
  destruct (Z.ltb_spec (Z.of_nat (length region)) (p + 2)) as [H2|H2].
  { destruct (Z.leb_spec (p + 2) (Z.of_nat (length region))); [lia|]. done. }
  destruct (Z.leb_spec (p + 2) (Z.of_nat (length region))); [|lia].
  cbn [fst snd]. rewrite bytes_short_overlay by (rewrite length_take, length_drop; lia).
  change (Z.to_nat 2) with 2%nat.
  set (name_len := bytes_short _).
  destruct (Z.leb_spec name_len 0) as [Hnl|Hnl]; [done|].
  cbn [negb orb Z.eqb].
  unfold bind at 1. unfold lift at 1.
  rewrite read_bytes_mem_spec by lia.
  destruct (Z.ltb_spec (Z.of_nat (length region)) (p + 2 + name_len)) as [H3|H3].
  { destruct (Z.leb_spec (p + 2 + name_len) (Z.of_nat (length region))); [lia|]. done. }
  destruct (Z.leb_spec (p + 2 + name_len) (Z.of_nat (length region))); [|lia].
  cbn [fst snd]. destruct (Z.eqb_spec name_len 0) as [?|_]; [lia|]. cbn [negb].
  set (file := bytes_string _).
  unfold bind at 1. unfold world at 1. unfold bind at 1. unfold this at 1.
  destruct (exists_ w fc file true); [done|].
  unfold bind at 1. unfold lift at 1.
  rewrite read_bytes_mem_spec by lia.
  destruct (Z.ltb_spec (Z.of_nat (length region)) (p + 2 + name_len + 1 + 4)) as [H4|H4].
  { destruct (Z.leb_spec (p + 2 + name_len + 1) (Z.of_nat (length region))); [|done].
    cbn [fst snd negb Z.eqb]. unfold bind at 1. unfold lift at 1.
    rewrite read_bytes_mem_spec by lia.
    destruct (Z.leb_spec (p + 2 + name_len + 1 + 4) (Z.of_nat (length region))); [lia|].
    done. }
  destruct (Z.leb_spec (p + 2 + name_len + 1) (Z.of_nat (length region))); [|lia].
  cbn [fst snd negb Z.eqb]. unfold bind at 1. unfold lift at 1.
  rewrite read_bytes_mem_spec by lia.
  destruct (Z.leb_spec (p + 2 + name_len + 1 + 4) (Z.of_nat (length region))); [|lia].
  cbn [fst snd negb Z.eqb].
  change (Z.to_nat 1) with 1%nat. change (Z.to_nat 4) with 4%nat.
  set (plen := bytes_int _). set (q := p + 2 + name_len + 1 + 4).
  unfold bind at 1. unfold store at 1.
  destruct (Z.leb_spec plen 0) as [Hn|Hn].
  { destruct (Z.ltb_spec 0 plen); [lia|]. done. }
  destruct (Z.ltb_spec 0 plen); [|lia].
  destruct (Z.leb_spec (Z.of_nat (length region)) (q + plen)) as [Hend|Hend]; [done|].
  unfold bind at 1. unfold store at 1.
  cbn [with_files m_files m_fd m_size m_addr cache_manager_].
  rewrite insert_insert_eq.
  unfold region_deref. destruct (Z.leb_spec 0 (q + plen)); [|lia].
  destruct (region !! Z.to_nat (q + plen)) as [b|]; [|done].
  unfold bind at 1. unfold assert.
  destruct (bool_decide (b = x00)); [|done].
  unfold ret at 1. unfold bind at 1.
  destruct (negb _).
  - unfold store, ret. cbn [with_files m_files m_fd m_size m_addr cache_manager_].
    by rewrite insert_insert_eq.
  - done.
Qed.

End Mapped.

Section MappedSafety.
Context `{E : Externals}.

Lemma loadMmap_record_plan_defined filename region p w fc :
  0 ≤ p →
  defined (loadMmap_record_plan filename region p w fc).1.1
  ∧ (∀ p', (loadMmap_record_plan filename region p w fc).1.1 = Ok p' →
       p + 7 ≤ p' ≤ Z.of_nat (length region))
  ∧ (truncated_record region p = true →
     is_Throw (loadMmap_record_plan filename region p w fc).1.1 = true).
Proof.
  intros Hp. unfold loadMmap_record_plan, truncated_record, defined.
  cbv zeta.
  destruct (Z.ltb_spec (Z.of_nat (length region)) (p + 2)); [by repeat split|].
  set (name_len := bytes_short _).
  destruct (Z.leb_spec name_len 0); [by repeat split|].
  destruct (Z.ltb_spec (Z.of_nat (length region)) (p + 2 + name_len));
    [by repeat split|].
  destruct (exists_ _ _ _ _); [by repeat split|].
  destruct (Z.ltb_spec (Z.of_nat (length region)) (p + 2 + name_len + 1 + 4)).
  { repeat split; try done.
    all: by destruct (Z.of_nat (length region) <? p + 2 + name_len + 1). }
  destruct (Z.ltb_spec (Z.of_nat (length region)) (p + 2 + name_len + 1)); [lia|].
  set (n := bytes_int _).
  destruct (Z.leb_spec n 0).
  { cbn [fst snd]. repeat split; try done.
    all: try (intros; simplify_eq; lia).
    all: destruct (Z.ltb_spec 0 n); [lia|done]. }
  destruct (Z.leb_spec (Z.of_nat (length region)) (p + 2 + name_len + 1 + 4 + n)).
  { by repeat split. }
  destruct (region !! Z.to_nat (p + 2 + name_len + 1 + 4 + n)) as [b|] eqn:Hb.
  2: { apply lookup_ge_None in Hb. lia. }
  destruct (Z.ltb_spec (Z.of_nat (length region)) (p + 2 + name_len + 1 + 4 + n + 1));
    [lia|].
  rewrite andb_false_r.
  destruct (bool_decide (b = x00)); cbn [fst snd]; repeat split; try done.
  all: intros; simplify_eq; lia.
Qed.

Lemma loadMmap_loop_defined fuel filename region p w fc :
  0 ≤ p → (Z.to_nat (Z.of_nat (length region) - p) < fuel)%nat →
  defined (loadMmap_loop fuel filename region (Z.of_nat (length region)) p w fc).1.1.
Proof.
  revert p fc. induction fuel as [|fuel IH]; intros p fc Hp Hfuel; [lia|].
  cbn [loadMmap_loop].
  destruct (Z.ltb_spec p (Z.of_nat (length region))) as [Hlt|Hge]; [|by split].
  unfold bind. rewrite loadMmap_record_plan_eq by done.
  destruct (loadMmap_record_plan_defined filename region p w fc Hp)
    as ([Hu Ho] & Hok & _).
  destruct (loadMmap_record_plan filename region p w fc) as [[o w'] fc'] eqn:Hr.
  cbn [fst snd] in *.
  destruct o as [p'| | | |]; try done.
  specialize (Hok p' eq_refl).
  assert (w' = w) as ->.
  { pose proof (unchanged_loadMmap_record filename region
                  (Z.of_nat (length region)) p w fc) as Hw.
    rewrite loadMmap_record_plan_eq, Hr in Hw by done. done. }
  apply IH; lia.
Qed.

Lemma loadMmap_loop_truncated fuel filename region p w fc :
  0 ≤ p < Z.of_nat (length region) →
  truncated_record region p = true →
  is_Throw (loadMmap_loop (S fuel) filename region (Z.of_nat (length region))
              p w fc).1.1 = true.
Proof.
  intros Hp Ht. cbn [loadMmap_loop].
  destruct (Z.ltb_spec p (Z.of_nat (length region))); [|lia].
  unfold bind. rewrite loadMmap_record_plan_eq by lia.
  destruct (loadMmap_record_plan_defined filename region p w fc ltac:(lia))
    as (_ & _ & Hthrow). specialize (Hthrow Ht).
  destruct (loadMmap_record_plan filename region p w fc) as [[o w'] fc'].
  by destruct o.
Qed.

Lemma loadMmap_parse_defined filename version w fc :
  defined (loadMmap_parse filename version w fc).1.1.
Proof.
  unfold loadMmap_parse. mrun.
  destruct (UseNewCache w).
  { cbv zeta. by destruct (loadCache _ _ _).1. }
  destruct (0 <? version); [|done].
  destruct (disk w !! c_str filename) as [content|]; [|done].
  cbv zeta. destruct (Z.eqb_spec (Z.of_nat (length content)) 0) as [H0|H0]; [done|].
  pose proof (loadMmap_loop_defined (S (length content)) filename content 4 w
                (with_mapping fc opened_fd (Z.of_nat (length content)) (Some content))
                ltac:(lia) ltac:(lia)) as [Hu Ho].
  destruct (loadMmap_loop _ _ _ _ _ _ _) as [[o w'] fc'].
  cbn [fst snd] in *. destruct o; try done.
  unfold adviseOutMemory. mrun. by destruct (UseNewCache w').
Qed.

(** C7: the mapped loader never reads outside the region (no run of
    [loadMmap] ends in undefined behaviour, and the loop always comes to
    an end); a record that declares a name length, name, flag, payload
    length or payload with terminator reaching past the end of the region
    makes the loader throw; and after a record that is accepted the
    cursor is still within the region. *)
Theorem loadMmap_reads_within_region filename version w fc :
  defined (loadMmap filename version w fc).1.1
  ∧ (∀ region p fuel w' fc',
       0 ≤ p < Z.of_nat (length region) →
       truncated_record region p = true →
       is_Throw (loadMmap_loop (S fuel) filename region
                   (Z.of_nat (length region)) p w' fc').1.1 = true)
  ∧ (∀ region p w' fc' p',
       0 ≤ p →
       (loadMmap_record filename region (Z.of_nat (length region)) p w' fc').1.1
       = Ok p' →
       p < p' ≤ Z.of_nat (length region)).
Proof.
  split; [|split].
  - unfold loadMmap. mrun.
    destruct (nonempty filename); [|done].
    destruct (isNewCache (disk w !! c_str filename));
      apply loadMmap_parse_defined.
  - intros. by apply loadMmap_loop_truncated.
  - intros region p w' fc' p' Hp Hok.
    rewrite loadMmap_record_plan_eq in Hok by done.
    destruct (loadMmap_record_plan_defined filename region p w' fc' Hp)
      as (_ & Hb & _). specialize (Hb p' Hok). lia.
Qed.

End MappedSafety.

Section MappedExamples.
Import Toy Sample.

Lemma loadMmap_reads_within_region_witness :
  is_Throw (loadMmap_loop 1 "/tmp/archive" truncated_archive
              (Z.of_nat (length truncated_archive)) 4 world1 new_FileCache).1.1
  = true.
Proof.
  apply (proj1 (proj2 (loadMmap_reads_within_region "/tmp/archive" 1 world1
                         new_FileCache))).
  - by vm_compute.
  - reflexivity.
Defined.

End MappedExamples.

(** ** The loader into owned buffers *)


Section Owned.
Context `{E : Externals}.

Lemma read_bytes_app f pre rest n :
  f_rest f = pre ++ rest → length pre = n → (0 < n)%nat →
  read_bytes f n = (true, pre, {| f_rest := rest; f_eof := f_eof f |}).
Proof.
  intros Hf Hl Hn. rewrite read_bytes_spec, Hf.
  rewrite bool_decide_true by (rewrite length_app; lia).
  rewrite take_app_length', drop_app_length' by done.
  replace (length (pre ++ rest) <? n)%nat with false
    by (symmetry; apply Nat.ltb_ge; rewrite length_app; lia).
  by rewrite orb_false_r.
Qed.

Lemma length_short_bytes z : length (short_bytes z) = 2%nat.
Proof. apply length_le_bytes. Qed.
Lemma length_int_bytes z : length (int_bytes z) = 4%nat.
Proof. apply length_le_bytes. Qed.

Lemma to_short_small z : -32768 ≤ z < 32768 → to_short z = z.
Proof. intros. apply wrap_small; lia. Qed.

(** The turn of the loop up to the point where the head of a record has
    been read and its empty buffer stored. *)
Lemma load_record_head filename onDemandUncompress version f name flag n rest w fc :
  f_rest f = record_head name flag n ++ rest →
  0 < ssize name < 32768 →
  -2147483648 ≤ n < 2147483648 →
  exists_ w fc name true = false →
  let f' := {| f_rest := rest; f_eof := f_eof f |} in
  let fc0 := with_files fc (<[name := {| len := n; data := None; clen := -1;
                                         cdata := None |}]> (m_files fc)) in
  load_record filename onDemandUncompress version f w fc
  = (if 0 <? n then
       bind (lift (load_payload version f' n)) (λ p,
         let buffer := {| len := n; data := Some p.1.2; clen := -1; cdata := None |} in
         bind (store name buffer) (λ _,
           if negb p.1.1 then throw (BadData (c_str filename))
           else if negb (bool_decide ([flag] = [x00])) then
             bind (lift (load_compressed filename onDemandUncompress buffer))
               (λ buffer', bind (store name buffer') (λ _, ret (Next p.2)))
           else ret (Next p.2)))
     else ret (Next f')) w fc0.
Proof.
  intros Hf Hname Hn Hex. cbv zeta. unfold load_record.
  unfold record_head in Hf. rewrite <- !app_assoc in Hf.
  rewrite (read_bytes_app f _ _ 2 Hf (length_short_bytes _)) by lia.
  cbn [fst snd]. rewrite bytes_short_short_bytes by lia.
  destruct (Z.leb_spec (ssize name) 0) as [?|_]; [lia|]. cbn [negb orb].
  rewrite (read_bytes_app {| f_rest := _ |} (string_bytes name) _
             (Z.to_nat (ssize name)) eq_refl)
    by (rewrite ?length_string_bytes; unfold ssize in *; lia).
  cbn [fst snd negb f_eof]. rewrite bytes_string_string_bytes.
  unfold bind at 1. unfold world at 1. unfold bind at 1. unfold this at 1.
  rewrite Hex.
  rewrite (read_bytes_app {| f_rest := _ |} [flag] _ 1 eq_refl eq_refl) by lia.
  cbn [fst snd f_eof].
  rewrite (read_bytes_app {| f_rest := _ |} (int_bytes n) _ 4 eq_refl
             (length_int_bytes _)) by lia.
  cbn [fst snd negb orb f_eof]. rewrite bytes_int_int_bytes by lia.
  unfold bind at 1. unfold store at 1. done.
Qed.

Lemma load_payload_current version rest eof n :
  0 < version → 0 < n < 2147483647 →
  load_payload version {| f_rest := rest; f_eof := eof |} n
  = if bool_decide (n + 1 ≤ Z.of_nat (length rest)) then
      if bool_decide (rest !! Z.to_nat n = Some x00)
      then Ok (true, take (Z.to_nat (n + 1)) rest,
               {| f_rest := drop (Z.to_nat (n + 1)) rest; f_eof := eof |})
      else Abort
    else Ok (false, rest, {| f_rest := []; f_eof := true |}).
Proof.
  intros Hv Hn. unfold load_payload.
  rewrite to_int_small by lia. destruct (Z.ltb_spec (n + 1) 0); [lia|].
  destruct (Z.ltb_spec 0 version); [|lia].
  rewrite read_bytes_spec. cbn [fst snd f_rest f_eof].
  case_bool_decide as Hlen.
  - rewrite (bool_decide_true (_ ≤ _)) by lia. cbn [negb].
    rewrite lookup_take_lt by lia.
    replace (length rest <? Z.to_nat (n + 1))%nat with false
      by (symmetry; apply Nat.ltb_ge; lia).
    by rewrite orb_false_r.
  - rewrite (bool_decide_false (_ ≤ _)) by lia. cbn [negb].
    rewrite take_ge, drop_ge by lia.
    replace (length rest <? Z.to_nat (n + 1))%nat with true
      by (symmetry; apply Nat.ltb_lt; lia).
    by rewrite orb_true_r.
Qed.

Lemma load_payload_legacy version rest eof n :
  version ≤ 0 → 0 < n < 2147483647 →
  load_payload version {| f_rest := rest; f_eof := eof |} n
  = if bool_decide (n ≤ Z.of_nat (length rest)) then
      Ok (true, take (Z.to_nat n) rest ++ [x00],
          {| f_rest := drop (Z.to_nat n) rest; f_eof := eof |})
    else Ok (false, rest, {| f_rest := []; f_eof := true |}).
Proof.
  intros Hv Hn. unfold load_payload.
  rewrite to_int_small by lia. destruct (Z.ltb_spec (n + 1) 0); [lia|].
  destruct (Z.ltb_spec 0 version); [lia|].
  rewrite read_bytes_spec. cbn [fst snd f_rest f_eof].
  case_bool_decide as Hlen.
  - rewrite (bool_decide_true (_ ≤ _)) by lia. cbn [negb].
    replace (length rest <? Z.to_nat n)%nat with false
      by (symmetry; apply Nat.ltb_ge; lia).
    by rewrite orb_false_r.
  - rewrite (bool_decide_false (_ ≤ _)) by lia. cbn [negb].
    rewrite take_ge, drop_ge by lia.
    replace (length rest <? Z.to_nat n)%nat with true
      by (symmetry; apply Nat.ltb_lt; lia).
    by rewrite orb_true_r.
Qed.

(** What the turn of the loop does with a payload that was read in full
    into [alloc]. *)
Lemma load_record_finish filename onDemandUncompress name flag n alloc f' w fc :
  let buffer := {| len := n; data := Some alloc; clen := -1; cdata := None |} in
  let fc0 := with_files fc (<[name := {| len := n; data := None; clen := -1;
                                         cdata := None |}]> (m_files fc)) in
  bind (store name buffer) (λ _,
    if negb true then throw (BadData (c_str filename))
    else if negb (bool_decide ([flag] = [x00])) then
      bind (lift (load_compressed filename onDemandUncompress buffer))
        (λ buffer', bind (store name buffer') (λ _, ret (Next f')))
    else ret (Next f')) w fc0
  = match loaded_buffer filename onDemandUncompress flag n alloc with
    | Ok b => (Ok (Next f'), w, with_files fc (<[name := b]> (m_files fc)))
    | Throw e => (Throw e, w, with_files fc (<[name := buffer]> (m_files fc)))
    | Abort => (Abort, w, with_files fc (<[name := buffer]> (m_files fc)))
    | Undefined => (Undefined, w, with_files fc (<[name := buffer]> (m_files fc)))
    | OutOfFuel => (OutOfFuel, w, with_files fc (<[name := buffer]> (m_files fc)))
    end.
Proof.
  cbv zeta. unfold loaded_buffer. mrun.
  cbn [with_files m_files m_fd m_size m_addr cache_manager_].
  rewrite insert_insert_eq.
  assert (bool_decide ([flag] = [x00]) = bool_decide (flag = x00)) as ->.
  { apply bool_decide_ext. split; [by intros [= ->] | by intros ->]. }
  destruct (bool_decide (flag = x00)); [done|].
  destruct (load_compressed _ _ _); try done.
  cbn [with_files m_files m_fd m_size m_addr cache_manager_].
  by rewrite insert_insert_eq.
Qed.

(** The turn of the loop on a record with a payload, in the sub-format of
    [version]. *)
Lemma load_record_payload filename onDemandUncompress version f name flag n rest w fc :
  f_rest f = record_head name flag n ++ rest →
  0 < ssize name < 32768 →
  0 < n < 2147483647 →
  exists_ w fc name true = false →
  let stored b := with_files fc (<[name := b]> (m_files fc)) in
  let empty := {| len := n; data := None; clen := -1; cdata := None |} in
  let extra := if 0 <? version then 1 else 0 in
  load_record filename onDemandUncompress version f w fc
  = if bool_decide (n + extra ≤ Z.of_nat (length rest)) then
      if (0 <? version) && negb (bool_decide (rest !! Z.to_nat n = Some x00))
      then (Abort, w, stored empty)
      else
        let alloc := take (Z.to_nat n) rest ++ [x00] in
        let f' := {| f_rest := drop (Z.to_nat (n + extra)) rest;
                     f_eof := f_eof f |} in
        match loaded_buffer filename onDemandUncompress flag n alloc with
        | Ok b => (Ok (Next f'), w, stored b)
        | Throw e =>
            (Throw e, w, stored {| len := n; data := Some alloc; clen := -1;
                                   cdata := None |})
        | Abort =>
            (Abort, w, stored {| len := n; data := Some alloc; clen := -1;
                                 cdata := None |})
        | Undefined =>
            (Undefined, w, stored {| len := n; data := Some alloc; clen := -1;
                                     cdata := None |})
        | OutOfFuel =>
            (OutOfFuel, w, stored {| len := n; data := Some alloc; clen := -1;
                                     cdata := None |})
        end
    else (Throw (BadData (c_str filename)), w,
          stored {| len := n; data := Some rest; clen := -1; cdata := None |}).
Proof.
  intros Hf Hname Hn Hex. cbv zeta.
  rewrite (load_record_head _ _ _ _ _ _ _ _ _ _ Hf) by (done || lia).
  cbv zeta. destruct (Z.ltb_spec 0 n); [|lia].
  destruct (Z.ltb_spec 0 version) as [Hv|Hv].
  - rewrite load_payload_current by done. cbn [andb].
    case_bool_decide as Hlen.
    + case_bool_decide as Hterm; cbn [negb]; [|done].
      unfold bind at 1. unfold lift at 1. cbn [fst snd].
      assert (take (Z.to_nat (n + 1)) rest = take (Z.to_nat n) rest ++ [x00]) as ->.
      { replace (Z.to_nat (n + 1)) with (S (Z.to_nat n)) by lia.
        by erewrite take_S_r. }
      apply load_record_finish.
    + unfold bind at 1. unfold lift at 1. cbn [fst snd negb].
      unfold bind, store, throw.
      cbn [with_files m_files m_fd m_size m_addr cache_manager_].
      by rewrite insert_insert_eq.
  - rewrite load_payload_legacy by lia. cbn [andb]. rewrite Z.add_0_r.
    case_bool_decide as Hlen.
    + unfold bind at 1. unfold lift at 1. cbn [fst snd].
      apply load_record_finish.
    + unfold bind at 1. unfold lift at 1. cbn [fst snd negb].
      unfold bind, store, throw.
      cbn [with_files m_files m_fd m_size m_addr cache_manager_].
      by rewrite insert_insert_eq.
Qed.

(** C6: for a record with a payload of [n > 0] bytes ([n + 1] still an
    [int]), the loader into owned buffers, when [version > 0], takes
    [n + 1] bytes off the stream and goes on only if the last of them is
    NUL, which is then the byte after the payload in the buffer; when
    [version <= 0] it takes [n] bytes and puts a NUL after them in the
    buffer.  With fewer bytes left it throws. *)
Theorem load_reads_terminator_by_version filename onDemandUncompress version
    f name flag n rest w fc :
  f_rest f = record_head name flag n ++ rest →
  0 < ssize name < 32768 →
  0 < n < 2147483647 →
  exists_ w fc name true = false →
  let r := load_record filename onDemandUncompress version f w fc in
  let stored b := with_files fc (<[name := b]> (m_files fc)) in
  let alloc := take (Z.to_nat n) rest ++ [x00] in
  let taken k := {| f_rest := drop (Z.to_nat k) rest; f_eof := f_eof f |} in
  (0 < version →
     (n + 1 ≤ Z.of_nat (length rest) → rest !! Z.to_nat n = Some x00 →
        alloc = take (Z.to_nat (n + 1)) rest
        ∧ (∀ b, loaded_buffer filename onDemandUncompress flag n alloc = Ok b →
             r = (Ok (Next (taken (n + 1))), w, stored b))
        ∧ (∀ e, loaded_buffer filename onDemandUncompress flag n alloc = Throw e →
             r.1.1 = Throw e))
     ∧ (n + 1 ≤ Z.of_nat (length rest) → rest !! Z.to_nat n ≠ Some x00 →
        r.1.1 = Abort)
     ∧ (Z.of_nat (length rest) < n + 1 → r.1.1 = Throw (BadData (c_str filename))))
  ∧ (version ≤ 0 →
     (n ≤ Z.of_nat (length rest) →
        (∀ b, loaded_buffer filename onDemandUncompress flag n alloc = Ok b →
           r = (Ok (Next (taken n)), w, stored b))
        ∧ (∀ e, loaded_buffer filename onDemandUncompress flag n alloc = Throw e →
             r.1.1 = Throw e))
     ∧ (Z.of_nat (length rest) < n → r.1.1 = Throw (BadData (c_str filename)))).
Proof.
  intros Hf Hname Hn Hex. cbv zeta.
  rewrite (load_record_payload _ _ _ _ _ _ _ _ _ _ Hf) by done. cbv zeta.
  split.
  - intros Hv. destruct (Z.ltb_spec 0 version); [|lia]. cbn [andb].
    split; [|split].
    + intros Hlen Hterm. rewrite !bool_decide_true by done. cbn [negb].
      split.
      { replace (Z.to_nat (n + 1)) with (S (Z.to_nat n)) by lia.
        by erewrite take_S_r. }
      split.
      * by intros b ->.
      * by intros e ->.
    + intros Hlen Hterm. rewrite bool_decide_true by done.
      rewrite (bool_decide_false (_ = _)) by done. done.
    + intros Hlen. rewrite bool_decide_false by lia. done.
  - intros Hv. destruct (Z.ltb_spec 0 version); [lia|]. cbn [andb].
    rewrite Z.add_0_r. split.
    + intros Hlen. rewrite bool_decide_true by done. split.
      * by intros b ->.
      * by intros e ->.
    + intros Hlen. rewrite bool_decide_false by lia. done.
Qed.

End Owned.

Section OwnedExamples.
Import Toy Sample.

Lemma load_reads_terminator_by_version_witness :
  load_record "/tmp/archive" false 1
    (fopen_r (record_head "a" x00 3 ++ [x01; x02; x03; x00; xff])) world1
    new_FileCache
  = (Ok (Next {| f_rest := [xff]; f_eof := false |}), world1,
     with_files new_FileCache
       (<["a"%string := {| len := 3; data := Some [x01; x02; x03; x00];
                           clen := -1; cdata := None |}]> ∅)).
Proof.
  refine (proj1 (proj2 (proj1 (proj1
    (load_reads_terminator_by_version "/tmp/archive" false 1
       (fopen_r (record_head "a" x00 3 ++ [x01; x02; x03; x00; xff]))
       "a" x00 3 [x01; x02; x03; x00; xff] world1 new_FileCache
       eq_refl _ _ eq_refl) _) _ _)) _ eq_refl).
  - by vm_compute.
  - lia.
  - lia.
  - by vm_compute.
  - reflexivity.
Defined.

End OwnedExamples.

(** ** Archives as lists of records *)


Section OwnedRecords.
Context `{E : Externals}.

Lemma record_ok_nonempty r : record_ok r → nonempty (rec_name r) = true.
Proof.
  intros (Hs & Hc & _). unfold nonempty. rewrite Hc. unfold ssize in Hs.
  destruct (rec_name r); [simpl in Hs; lia | done].
Qed.

Lemma exists_record w fc r :
  UseNewCache w = false → record_ok r →
  exists_ w fc (rec_name r) true = bool_decide (is_Some (m_files fc !! rec_name r)).
Proof.
  intros Hw Hr. apply exists_lookup; [done| by apply record_ok_nonempty |].
  by destruct Hr as (_ & Hc & _).
Qed.

Lemma load_record_eof filename onDemandUncompress version eof w fc :
  load_record filename onDemandUncompress version {| f_rest := []; f_eof := eof |}
    w fc = (Ok Break, w, fc).
Proof.
  unfold load_record. rewrite read_bytes_spec. cbn [fst snd f_rest f_eof].
  rewrite bool_decide_false by (cbn; lia). cbn. by rewrite orb_true_r.
Qed.

Lemma load_record_duplicate filename onDemandUncompress version f r rest w fc :
  UseNewCache w = false → record_ok r →
  f_rest f = record_bytes version r ++ rest →
  is_Some (m_files fc !! rec_name r) →
  load_record filename onDemandUncompress version f w fc
  = (Throw (SameFileTwice (rec_name r) (c_str filename)), w, fc).
Proof.
  intros Hw Hr Hf Hin. pose proof Hr as (Hs & Hc & _).
  unfold load_record. unfold record_bytes, record_head in Hf.
  rewrite <- !app_assoc in Hf.
  rewrite (read_bytes_app f _ _ 2 Hf (length_short_bytes _)) by lia.
  cbn [fst snd]. rewrite bytes_short_short_bytes by lia.
  destruct (Z.leb_spec (ssize (rec_name r)) 0) as [?|_]; [lia|]. cbn [negb orb].
  rewrite (read_bytes_app {| f_rest := _ |} (string_bytes (rec_name r)) _
             (Z.to_nat (ssize (rec_name r))) eq_refl)
    by (rewrite ?length_string_bytes; unfold ssize in *; lia).
  cbn [fst snd negb f_eof]. rewrite bytes_string_string_bytes.
  unfold bind at 1. unfold world at 1. unfold bind at 1. unfold this at 1.
  rewrite exists_record by done. rewrite bool_decide_true by done.
  by rewrite Hc.
Qed.

Lemma record_buffer_defined filename onDemandUncompress r :
  record_ok r →
  (∃ b, record_buffer filename onDemandUncompress r = Ok b)
  ∨ (∃ e, record_buffer filename onDemandUncompress r = Throw e).
Proof.
  intros (_ & _ & Hn & Hp). unfold record_buffer.
  destruct (Z.ltb_spec 0 (rec_len r)) as [Hpos|]; [|eauto].
  unfold loaded_buffer. destruct (bool_decide _); [eauto|].
  unfold load_compressed. destruct onDemandUncompress; [eauto|].
  cbn [data len]. unfold mem_take. rewrite length_app. cbn [length].
  destruct (Z.leb_spec 0 (rec_len r)); [|lia].
  destruct (Z.leb_spec (rec_len r) (Z.of_nat (length (rec_payload r) + 1)));
    [|lia].
  cbn [andb]. destruct (gzdecode _); eauto.
Qed.

(** One turn of the loop on the bytes of a record whose name is new. *)
Lemma load_record_step filename onDemandUncompress version f r rest w fc :
  UseNewCache w = false → record_ok r →
  f_rest f = record_bytes version r ++ rest →
  m_files fc !! rec_name r = None →
  let f' := {| f_rest := rest; f_eof := f_eof f |} in
  match record_buffer filename onDemandUncompress r with
  | Ok b =>
      load_record filename onDemandUncompress version f w fc
      = (Ok (Next f'), w, with_files fc (<[rec_name r := b]> (m_files fc)))
  | o =>
      (load_record filename onDemandUncompress version f w fc).1.1
      = match o with
        | Throw e => Throw e | Abort => Abort | Undefined => Undefined
        | _ => OutOfFuel
        end
      ∧ (load_record filename onDemandUncompress version f w fc).1.2 = w
  end.
Proof.
  intros Hw Hr Hf Hnone. pose proof Hr as (Hs & Hc & Hn & Hp). cbv zeta.
  assert (exists_ w fc (rec_name r) true = false) as Hex.
  { rewrite exists_record by done. apply bool_decide_false.
    rewrite Hnone. by intros [? ?]. }
  unfold record_buffer, record_bytes in *.
  destruct (Z.ltb_spec 0 (rec_len r)) as [Hpos|Hneg].
  - rewrite <- app_assoc in Hf.
    rewrite (load_record_payload _ _ _ _ _ _ _ _ _ _ Hf) by (done || lia).
    cbv zeta. specialize (Hp Hpos).
    assert (Hlen : length (rec_payload r) = Z.to_nat (rec_len r)) by lia.
    rewrite !length_app.
    destruct (Z.ltb_spec 0 version) as [Hv|Hv].
    + cbn [length andb]. rewrite bool_decide_true by lia.
      rewrite lookup_app_l by (rewrite length_app; cbn; lia).
      rewrite (lookup_app_r (rec_payload r)) by lia.
      rewrite Hlen, Nat.sub_diag. cbn [lookup list_lookup].
      rewrite bool_decide_true by done. cbn [negb].
      rewrite <- (app_assoc (rec_payload r)).
      rewrite take_app_length' by done.
      replace (Z.to_nat (rec_len r + 1)) with (length (rec_payload r ++ [x00]))
        by (rewrite length_app; cbn; lia).
      rewrite (app_assoc (rec_payload r)), drop_app_length.
      by destruct (loaded_buffer _ _ _ _ _).
    + cbn [length andb]. rewrite app_nil_r, Z.add_0_r.
      rewrite bool_decide_true by lia.
      rewrite take_app_length', <- Hlen, drop_app_length by done.
      by destruct (loaded_buffer _ _ _ _ _).
  - rewrite app_nil_r in Hf.
    rewrite (load_record_head _ _ _ _ _ _ _ _ _ _ Hf) by (done || lia).
    cbv zeta. destruct (Z.ltb_spec 0 (rec_len r)); [lia|]. done.
Qed.

Lemma load_loop_records filename onDemandUncompress version rs :
  ∀ fuel f w fc,
    UseNewCache w = false → Forall record_ok rs →
    f_rest f = concat (map (record_bytes version) rs) →
    (length rs < fuel)%nat →
    match (load_records filename onDemandUncompress rs (m_files fc)).1 with
    | Ok _ =>
        load_loop fuel filename onDemandUncompress version f w fc
        = (Ok tt, w,
           with_files fc (load_records filename onDemandUncompress rs (m_files fc)).2)
    | o => (load_loop fuel filename onDemandUncompress version f w fc).1.1 = o
    end.
Proof.
  induction rs as [|r rs IH]; intros fuel f w fc Hw Hok Hf Hfuel.
  - destruct fuel as [|fuel]; [cbn in Hfuel; lia|].
    destruct f as [rest eof]. cbn in Hf. subst rest.
    cbn [load_loop load_records fst snd]. unfold bind.
    rewrite load_record_eof. unfold ret. rewrite with_files_id. done.
  - destruct fuel as [|fuel]; [cbn in Hfuel; lia|].
    apply Forall_cons in Hok as [Hr Hok]. cbn [map concat] in Hf.
    cbn [load_loop load_records].
    case_bool_decide as Hin.
    + cbn [fst]. unfold bind.
      rewrite (load_record_duplicate _ _ _ _ _ _ _ _ Hw Hr Hf Hin). done.
    + assert (m_files fc !! rec_name r = None) as Hnone
        by (by apply eq_None_not_Some).
      pose proof (load_record_step filename onDemandUncompress version f r _ w fc
                    Hw Hr Hf Hnone) as Hstep.
      cbv zeta in Hstep.
      destruct (record_buffer filename onDemandUncompress r) as [b| e | | |].
      * pose proof (IH fuel {| f_rest := concat (map (record_bytes version) rs);
                                f_eof := f_eof f |} w
                      (with_files fc (<[rec_name r := b]> (m_files fc)))
                      Hw Hok eq_refl ltac:(cbn in Hfuel; lia)) as IH'.
        cbn [m_files with_files] in IH'. unfold bind. rewrite Hstep.
        destruct (load_records filename onDemandUncompress rs _).1; apply IH'.
      * destruct Hstep as [Ho _]. cbn [fst]. unfold bind.
        destruct (load_record _ _ _ _ _ _) as [[o w'] fc']. cbn in Ho. by subst o.
      * destruct Hstep as [Ho _]. cbn [fst]. unfold bind.
        destruct (load_record _ _ _ _ _ _) as [[o w'] fc']. cbn in Ho. by subst o.
      * destruct Hstep as [Ho _]. cbn [fst]. unfold bind.
        destruct (load_record _ _ _ _ _ _) as [[o w'] fc']. cbn in Ho. by subst o.
      * destruct Hstep as [Ho _]. cbn [fst]. unfold bind.
        destruct (load_record _ _ _ _ _ _) as [[o w'] fc']. cbn in Ho. by subst o.
Qed.

Lemma length_record_bytes version r : (1 ≤ length (record_bytes version r))%nat.
Proof.
  unfold record_bytes, record_head. rewrite !length_app, length_short_bytes. lia.
Qed.

Lemma length_concat_records version rs :
  (length rs ≤ length (concat (map (record_bytes version) rs)))%nat.
Proof.
  induction rs as [|r rs IH]; [done|]. cbn [map concat length].
  rewrite length_app. pose proof (length_record_bytes version r). lia.
Qed.

(** [load] on the bytes of a list of records does what [load_records]
    tells. *)
Lemma load_archive filename onDemandUncompress version rs w fc :
  UseNewCache w = false → nonempty filename = true →
  Forall record_ok rs →
  disk w !! c_str filename = Some (archive_bytes version rs) →
  match (load_records filename onDemandUncompress rs (m_files fc)).1 with
  | Ok _ =>
      load filename onDemandUncompress version w fc
      = (Ok tt, w,
         with_files fc (load_records filename onDemandUncompress rs (m_files fc)).2)
  | o => (load filename onDemandUncompress version w fc).1.1 = o
  end.
Proof.
  intros Hw Hn Hok Hd.
  assert (load filename onDemandUncompress version w fc
          = load_loop (S (length (archive_bytes version rs))) filename
              onDemandUncompress version
              {| f_rest := concat (map (record_bytes version) rs); f_eof := false |}
              w fc) as ->.
  { unfold load. mrun. rewrite Hn, Hw, Hd. f_equal.
    unfold archive_bytes, header_bytes.
    destruct (0 <? version); [|done].
    rewrite <- app_assoc.
    rewrite (read_bytes_app (fopen_r _) (short_bytes (-1)) _ 2 eq_refl
               (length_short_bytes _)) by lia.
    cbn [fst snd].
    rewrite (read_bytes_app {| f_rest := _ |} (short_bytes version) _ 2 eq_refl
               (length_short_bytes _)) by lia.
    done. }
  apply load_loop_records; [done|done|done|].
  unfold archive_bytes. rewrite length_app.
  pose proof (length_concat_records version rs). lia.
Qed.

Lemma load_records_duplicate filename onDemandUncompress rs :
  ∀ m,
    Forall record_ok rs →
    (∃ r, r ∈ rs ∧ is_Some (m !! rec_name r)) ∨ ¬ NoDup (rec_name <$> rs) →
    is_Throw (load_records filename onDemandUncompress rs m).1 = true.
Proof.
  induction rs as [|r rs IH]; intros m Hok Hdup.
  - destruct Hdup as [(r & Hr & _) | Hnd].
    + by apply elem_of_nil in Hr.
    + destruct Hnd. constructor.
  - apply Forall_cons in Hok as [Hr Hok]. cbn [load_records].
    case_bool_decide as Hin; [done|].
    destruct (record_buffer_defined filename onDemandUncompress r Hr)
      as [[b ->] | [e ->]]; [|done].
    apply IH; [done|].
    destruct Hdup as [(r' & Hr' & Hsome) | Hnd].
    + apply elem_of_cons in Hr' as [-> | Hr']; [done|].
      left. exists r'. split; [done|].
      destruct (decide (rec_name r = rec_name r')) as [Heq|Hne].
      * rewrite Heq, lookup_insert_eq. eauto.
      * by rewrite lookup_insert_ne.
    + rewrite fmap_cons, NoDup_cons in Hnd.
      destruct (decide (rec_name r ∈ rec_name <$> rs)) as [Hel|Hnel].
      * left. apply list_elem_of_fmap in Hel as (r' & Heq & Hr').
        exists r'. split; [done|]. rewrite <- Heq, lookup_insert_eq. eauto.
      * right. intros Hnd'. apply Hnd. by split.
Qed.

End OwnedRecords.

(** ** The mapped loader on records *)


Section MappedRecordFacts.
Context `{E : Externals}.

Lemma drop_prefix (l1 l2 : list byte) (k : Z) :
  k = Z.of_nat (length l1) → drop (Z.to_nat k) (l1 ++ l2) = l2.
Proof. intros ->. rewrite Nat2Z.id. apply drop_app_length. Qed.

Lemma take_prefix (l1 l2 : list byte) (k : nat) :
  k = length l1 → take k (l1 ++ l2) = l1.
Proof. intros ->. apply take_app_length. Qed.

Lemma loadMmap_record_step filename pre r post w fc :
  UseNewCache w = false → record_ok r →
  let region := pre ++ record_bytes 1 r ++ post in
  let p := Z.of_nat (length pre) in
  loadMmap_record filename region (Z.of_nat (length region)) p w fc
  = if bool_decide (is_Some (m_files fc !! rec_name r)) then
      (Throw (SameFileTwice (rec_name r) (c_str filename)), w, fc)
    else
      (Ok (p + Z.of_nat (length (record_bytes 1 r))), w,
       with_files fc (<[rec_name r := mapped_buffer r post]> (m_files fc))).
Proof.
  intros Hw Hr. pose proof Hr as (Hs & Hc & Hn & Hp). cbv zeta.
  rewrite loadMmap_record_plan_eq by lia.
  unfold loadMmap_record_plan, record_bytes, record_head. cbv zeta.
  set (sb := short_bytes (ssize (rec_name r))).
  set (nb := string_bytes (rec_name r)).
  set (ib := int_bytes (rec_len r)).
  set (tail := if 0 <? rec_len r then rec_payload r ++ [x00] else []).
  assert (Hsb : length sb = 2%nat) by apply length_short_bytes.
  assert (Hnb : Z.of_nat (length nb) = ssize (rec_name r)).
  { subst nb. by rewrite length_string_bytes. }
  assert (Hib : length ib = 4%nat) by apply length_int_bytes.
  assert (Hregion : pre ++ ((sb ++ nb ++ [rec_flag r] ++ ib) ++ tail) ++ post
                    = pre ++ sb ++ nb ++ [rec_flag r] ++ ib ++ tail ++ post).
  { by rewrite <- !app_assoc. }
  change (if 0 <? rec_len r then rec_payload r ++ (if 0 <? 1 then [x00] else [])
          else []) with tail.
  assert (Z.of_nat (length ((sb ++ nb ++ [rec_flag r] ++ ib) ++ tail))
          = 2 + ssize (rec_name r) + 1 + 4 + Z.of_nat (length tail)) as ->.
  { rewrite !length_app. cbn [length]. lia. }
  rewrite Hregion.
  set (region := pre ++ sb ++ nb ++ [rec_flag r] ++ ib ++ tail ++ post).
  assert (Hlen : Z.of_nat (length region)
                 = Z.of_nat (length pre) + 2 + ssize (rec_name r) + 1 + 4
                   + Z.of_nat (length tail) + Z.of_nat (length post)).
  { subst region. rewrite !length_app. cbn [length]. lia. }
  set (p := Z.of_nat (length pre)) in *.
  destruct (Z.ltb_spec (Z.of_nat (length region)) (p + 2)); [lia|].
  assert (drop (Z.to_nat p) region = sb ++ nb ++ [rec_flag r] ++ ib ++ tail ++ post)
    as -> by (by apply drop_prefix).
  rewrite (take_prefix sb) by done.
  subst sb. rewrite bytes_short_short_bytes by lia.
  destruct (Z.leb_spec (ssize (rec_name r)) 0); [lia|].
  destruct (Z.ltb_spec (Z.of_nat (length region)) (p + 2 + ssize (rec_name r)));
    [lia|].
  assert (drop (Z.to_nat (p + 2)) region = nb ++ [rec_flag r] ++ ib ++ tail ++ post)
    as ->.
  { subst region. rewrite (app_assoc pre). apply drop_prefix.
    rewrite length_app, length_short_bytes. lia. }
  rewrite (take_prefix nb) by lia.
  subst nb. rewrite bytes_string_string_bytes, Hc.
  rewrite exists_record by done.
  case_bool_decide as Hin; [done|].
  destruct (Z.ltb_spec (Z.of_nat (length region))
              (p + 2 + ssize (rec_name r) + 1 + 4)); [lia|].
  assert (drop (Z.to_nat (p + 2 + ssize (rec_name r))) region
          = [rec_flag r] ++ ib ++ tail ++ post) as ->.
  { subst region. rewrite (app_assoc pre), (app_assoc (pre ++ _)).
    apply drop_prefix. rewrite !length_app, length_short_bytes. lia. }
  assert (drop (Z.to_nat (p + 2 + ssize (rec_name r) + 1)) region
          = ib ++ tail ++ post) as ->.
  { subst region.
    rewrite (app_assoc pre), (app_assoc (pre ++ _)), (app_assoc ((pre ++ _) ++ _)).
    apply drop_prefix. rewrite !length_app, length_short_bytes. cbn [length]. lia. }
  rewrite (take_prefix ib) by done. cbn [take app].
  subst ib. rewrite bytes_int_int_bytes by lia.
  assert (drop (Z.to_nat (p + 2 + ssize (rec_name r) + 1 + 4)) region
          = tail ++ post) as Hq.
  { subst region.
    rewrite (app_assoc pre), (app_assoc (pre ++ _)), (app_assoc ((pre ++ _) ++ _)),
      (app_assoc (((pre ++ _) ++ _) ++ _)).
    apply drop_prefix.
    rewrite !length_app, length_short_bytes, length_int_bytes. cbn [length]. lia. }
  unfold mapped_buffer. fold tail.
  destruct (Z.leb_spec (rec_len r) 0) as [Hle|Hpos].
  { destruct (Z.ltb_spec 0 (rec_len r)); [lia|]. subst tail. cbn [length].
    do 2 f_equal. f_equal. lia. }
  destruct (Z.ltb_spec 0 (rec_len r)); [|lia].
  specialize (Hp Hpos).
  assert (Htail : Z.of_nat (length tail) = rec_len r + 1).
  { subst tail. rewrite length_app. cbn [length]. lia. }
  destruct (Z.leb_spec (Z.of_nat (length region))
              (p + 2 + ssize (rec_name r) + 1 + 4 + rec_len r)); [lia|].
  rewrite Hq.
  assert (region !! Z.to_nat (p + 2 + ssize (rec_name r) + 1 + 4 + rec_len r)
          = Some x00) as ->.
  { replace (Z.to_nat (p + 2 + ssize (rec_name r) + 1 + 4 + rec_len r))
      with (Z.to_nat (p + 2 + ssize (rec_name r) + 1 + 4) + Z.to_nat (rec_len r))%nat
      by lia.
    rewrite <- lookup_drop, Hq. subst tail.
    rewrite <- app_assoc, lookup_app_r by lia.
    replace (Z.to_nat (rec_len r) - length (rec_payload r))%nat with 0%nat by lia.
    done. }
  rewrite bool_decide_true by done.
  subst tail. rewrite <- app_assoc.
  rewrite take_0.
  assert (bool_decide ([rec_flag r] = [x00]) = bool_decide (rec_flag r = x00)) as ->.
  { apply bool_decide_ext. split; [by intros [= ->] | by intros ->]. }
  rewrite length_app. cbn [length].
  destruct (bool_decide (rec_flag r = x00)); cbn [negb];
    do 2 f_equal; f_equal; lia.
Qed.

Lemma loadMmap_loop_records filename rs :
  ∀ fuel pre w fc,
    UseNewCache w = false → Forall record_ok rs →
    (length rs < fuel)%nat →
    match (loadMmap_records filename rs (m_files fc)).1 with
    | Ok _ =>
        loadMmap_loop fuel filename (pre ++ concat (map (record_bytes 1) rs))
          (Z.of_nat (length (pre ++ concat (map (record_bytes 1) rs))))
          (Z.of_nat (length pre)) w fc
        = (Ok tt, w, with_files fc (loadMmap_records filename rs (m_files fc)).2)
    | o =>
        (loadMmap_loop fuel filename (pre ++ concat (map (record_bytes 1) rs))
           (Z.of_nat (length (pre ++ concat (map (record_bytes 1) rs))))
           (Z.of_nat (length pre)) w fc).1.1 = o
    end.
Proof.
  induction rs as [|r rs IH]; intros fuel pre w fc Hw Hok Hfuel.
  - destruct fuel as [|fuel]; [cbn in Hfuel; lia|].
    cbn [map concat loadMmap_records fst snd loadMmap_loop].
    rewrite app_nil_r.
    destruct (Z.ltb_spec (Z.of_nat (length pre)) (Z.of_nat (length pre))); [lia|].
    unfold ret. by rewrite with_files_id.
  - destruct fuel as [|fuel]; [cbn in Hfuel; lia|].
    apply Forall_cons in Hok as [Hr Hok].
    cbn [map concat loadMmap_records loadMmap_loop].
    pose proof (length_record_bytes 1 r) as Hpos.
    destruct (Z.ltb_spec (Z.of_nat (length pre))
                (Z.of_nat (length (pre ++ record_bytes 1 r
                                     ++ concat (map (record_bytes 1) rs)))))
      as [_|Hge]; [|rewrite !length_app in Hge; lia].
    unfold bind.
    rewrite (loadMmap_record_step filename pre r _ w fc Hw Hr).
    case_bool_decide as Hin; [done|].
    pose proof (IH fuel (pre ++ record_bytes 1 r) w
                  (with_files fc (<[rec_name r :=
                     mapped_buffer r (concat (map (record_bytes 1) rs))]>
                     (m_files fc)))
                  Hw Hok ltac:(cbn in Hfuel; lia)) as IH'.
    cbn [m_files with_files] in IH'.
    rewrite <- !app_assoc in IH'.
    rewrite (length_app pre (record_bytes 1 r)), Nat2Z.inj_add in IH'.
    destruct (loadMmap_records filename rs _).1; apply IH'.
Qed.

Lemma archive_bytes_current version rs :
  0 < version →
  archive_bytes version rs = header_bytes version ++ concat (map (record_bytes 1) rs).
Proof.
  intros Hv. unfold archive_bytes. f_equal. f_equal.
  apply map_ext. intros r. unfold record_bytes.
  by destruct (Z.ltb_spec 0 version); [|lia].
Qed.

Lemma length_header_bytes version : 0 < version → length (header_bytes version) = 4%nat.
Proof.
  intros Hv. unfold header_bytes. destruct (Z.ltb_spec 0 version); [|lia].
  by rewrite length_app, !length_short_bytes.
Qed.

(** [loadMmap] on the bytes of a list of records does what
    [loadMmap_records] tells. *)
Lemma loadMmap_archive filename version rs w fc :
  UseNewCache w = false → nonempty filename = true →
  isNewCache (Some (archive_bytes version rs)) = false →
  0 < version →
  Forall record_ok rs →
  disk w !! c_str filename = Some (archive_bytes version rs) →
  match (loadMmap_records filename rs (m_files fc)).1 with
  | Ok _ =>
      loadMmap filename version w fc
      = (Ok tt, w,
         with_files
           (with_mapping fc opened_fd
              (Z.of_nat (length (archive_bytes version rs)))
              (Some (archive_bytes version rs)))
           (loadMmap_records filename rs (m_files fc)).2)
  | o => (loadMmap filename version w fc).1.1 = o
  end.
Proof.
  intros Hw Hn Hnew Hv Hok Hd.
  set (content := archive_bytes version rs) in *.
  assert (Hlen : length content ≠ 0%nat).
  { subst content. rewrite archive_bytes_current, length_app, length_header_bytes
      by done. lia. }
  assert (loadMmap filename version w fc
          = bind (loadMmap_loop (S (length content)) filename content
                    (Z.of_nat (length content)) 4)
              (λ _, adviseOutMemory) w
              (with_mapping fc opened_fd (Z.of_nat (length content)) (Some content)))
    as ->.
  { unfold loadMmap, loadMmap_parse. mrun. rewrite Hn, Hd, Hnew, Hw.
    destruct (Z.ltb_spec 0 version); [|lia]. rewrite Hd.
    destruct (Z.eqb_spec (Z.of_nat (length content)) 0); [lia|]. done. }
  pose proof (loadMmap_loop_records filename rs (S (length content))
                (header_bytes version) w
                (with_mapping fc opened_fd (Z.of_nat (length content)) (Some content))
                Hw Hok) as Hloop.
  rewrite length_header_bytes in Hloop by done.
  rewrite <- archive_bytes_current in Hloop by done. fold content in Hloop.
  cbn [m_files with_mapping] in Hloop.
  assert (length rs < S (length content))%nat as Hfuel.
  { subst content. rewrite archive_bytes_current, length_app by done.
    pose proof (length_concat_records 1 rs). lia. }
  specialize (Hloop Hfuel). change (Z.of_nat 4) with 4 in Hloop.
  unfold bind.
  destruct (loadMmap_records filename rs (m_files fc)).1.
  - rewrite Hloop. unfold adviseOutMemory. mrun. by rewrite Hw.
  - destruct (loadMmap_loop _ _ _ _ _ _ _) as [[o w'] fc']. cbn in Hloop. by subst o.
  - destruct (loadMmap_loop _ _ _ _ _ _ _) as [[o w'] fc']. cbn in Hloop. by subst o.
  - destruct (loadMmap_loop _ _ _ _ _ _ _) as [[o w'] fc']. cbn in Hloop. by subst o.
  - destruct (loadMmap_loop _ _ _ _ _ _ _) as [[o w'] fc']. cbn in Hloop. by subst o.
Qed.

Lemma loadMmap_records_duplicate filename rs :
  ∀ m,
    (∃ r, r ∈ rs ∧ is_Some (m !! rec_name r)) ∨ ¬ NoDup (rec_name <$> rs) →
    is_Throw (loadMmap_records filename rs m).1 = true.
Proof.
  induction rs as [|r rs IH]; intros m Hdup.
  - destruct Hdup as [(r & Hr & _) | Hnd].
    + by apply elem_of_nil in Hr.
    + destruct Hnd. constructor.
  - cbn [loadMmap_records].
    case_bool_decide as Hin; [done|].
    apply IH.
    destruct Hdup as [(r' & Hr' & Hsome) | Hnd].
    + apply elem_of_cons in Hr' as [-> | Hr']; [done|].
      left. exists r'. split; [done|].
      destruct (decide (rec_name r = rec_name r')) as [Heq|Hne].
      * rewrite Heq, lookup_insert_eq. eauto.
      * by rewrite lookup_insert_ne.
    + rewrite fmap_cons, NoDup_cons in Hnd.
      destruct (decide (rec_name r ∈ rec_name <$> rs)) as [Hel|Hnel].
      * left. apply list_elem_of_fmap in Hel as (r' & Heq & Hr').
        exists r'. split; [done|]. rewrite <- Heq, lookup_insert_eq. eauto.
      * right. intros Hnd'. apply Hnd. by split.
Qed.

End MappedRecordFacts.

(** ** Duplicate paths *)

Section Duplicates.
Context `{E : Externals}.

Lemma is_Throw_match {A} (o o' : outcome A) :
  match o with Ok _ => True | _ => o' = o end → is_Throw o = true →
  is_Throw o' = true.
Proof. destruct o; try done. by intros ->. Qed.

(** X23: registering a path that is already present aborts on the
    precondition with the table (and everything else) as it was; an
    archive of well-formed records, whose paths hold no NUL character, in
    which a path occurs twice makes [load], in either mode and
    sub-format, and [loadMmap] throw. *)
Theorem duplicate_paths_rejected :
  (∀ w fc name addDirectories fullpath,
     exists_ w fc name true = true →
     write name addDirectories w fc = (Abort, w, fc)
     ∧ write_file name fullpath w fc = (Abort, w, fc))
  ∧ (∀ filename onDemandUncompress version rs w fc,
       UseNewCache w = false → nonempty filename = true →
       Forall record_ok rs →
       ¬ NoDup (rec_name <$> rs) →
       disk w !! c_str filename = Some (archive_bytes version rs) →
       is_Throw (load filename onDemandUncompress version w fc).1.1 = true)
  ∧ (∀ filename version rs w fc,
       UseNewCache w = false → nonempty filename = true →
       isNewCache (Some (archive_bytes version rs)) = false →
       0 < version →
       Forall record_ok rs →
       ¬ NoDup (rec_name <$> rs) →
       disk w !! c_str filename = Some (archive_bytes version rs) →
       is_Throw (loadMmap filename version w fc).1.1 = true).
Proof.
  split; [|split].
  - intros w fc name addDirectories fullpath Hex. split.
    + unfold write. mrun. destruct (nonempty name); [|done]. by rewrite Hex.
    + unfold write_file. mrun. destruct (nonempty name); [|done].
      destruct (nonempty fullpath); [|done]. by rewrite Hex.
  - intros filename onDemandUncompress version rs w fc Hw Hn Hok Hdup Hd.
    pose proof (load_archive filename onDemandUncompress version rs w fc
                  Hw Hn Hok Hd) as Hload.
    pose proof (load_records_duplicate filename onDemandUncompress rs (m_files fc)
                  Hok (or_intror Hdup)) as Hthrow.
    destruct (load_records filename onDemandUncompress rs (m_files fc)).1;
      try done. by rewrite Hload.
  - intros filename version rs w fc Hw Hn Hnew Hv Hok Hdup Hd.
    pose proof (loadMmap_archive filename version rs w fc Hw Hn Hnew Hv Hok Hd)
      as Hload.
    pose proof (loadMmap_records_duplicate filename rs (m_files fc)
                  (or_intror Hdup)) as Hthrow.
    destruct (loadMmap_records filename rs (m_files fc)).1; try done.
    by rewrite Hload.
Qed.

End Duplicates.

Section DuplicateExamples.
Import Toy Sample.

Lemma duplicate_paths_rejected_witness :
  is_Throw (load "/tmp/twice" true 1 world_twice new_FileCache).1.1 = true
  ∧ is_Throw (loadMmap "/tmp/twice" 1 world_twice new_FileCache).1.1 = true
  ∧ write "app.php" true world0
      (with_files new_FileCache {[ "app.php"%string := php_file ]})
    = (Abort, world0, with_files new_FileCache {[ "app.php"%string := php_file ]}).
Proof.
  split; [|split].
  - apply (proj1 (proj2 duplicate_paths_rejected) "/tmp/twice" true 1 twice).
    + reflexivity.
    + reflexivity.
    + repeat constructor; cbn; lia.
    + intros Hnd. apply NoDup_cons in Hnd as [Hnin _]. apply Hnin. by left.
    + reflexivity.
  - apply (proj2 (proj2 duplicate_paths_rejected) "/tmp/twice" 1 twice).
    + reflexivity.
    + reflexivity.
    + reflexivity.
    + lia.
    + repeat constructor; cbn; lia.
    + intros Hnd. apply NoDup_cons in Hnd as [Hnin _]. apply Hnin. by left.
    + reflexivity.
  - refine (proj1 (proj1 duplicate_paths_rejected world0
                     (with_files new_FileCache {[ "app.php"%string := php_file ]})
                     "app.php" true "x" _)).
    by vm_compute.
Defined.

(** C5: the check for a path that occurs twice misses the paths that hold
    a NUL character.  [load] and [loadMmap] look the path up as a C
    string, which ends at the NUL, and store the record under the whole
    path: an archive whose two records carry the same such path is loaded
    without an exception by [load], in either mode, and by [loadMmap],
    and the table holds the payload of the second record. *)
Lemma duplicate_nul_path_is_loaded :
  rec_name <$> nul_twice = [nul_path; nul_path]
  ∧ disk world_nul_twice !! "/tmp/nul2"%string = Some (archive_bytes 1 nul_twice)
  ∧ (load "/tmp/nul2" false 1 world_nul_twice new_FileCache).1.1 = Ok tt
  ∧ (load "/tmp/nul2" true 1 world_nul_twice new_FileCache).1.1 = Ok tt
  ∧ (loadMmap "/tmp/nul2" 1 world_nul_twice new_FileCache).1.1 = Ok tt
  ∧ m_files (load "/tmp/nul2" false 1 world_nul_twice new_FileCache).2 !! nul_path
    = Some {| len := 2; data := Some [x68; x6f; x00]; clen := -1; cdata := None |}
  ∧ m_files (loadMmap "/tmp/nul2" 1 world_nul_twice new_FileCache).2 !! nul_path
    = Some {| len := 2; data := Some [x68; x6f; x00]; clen := -1; cdata := None |}.
Proof. repeat split; by vm_compute. Qed.

End DuplicateExamples.

(** ** Saving and loading again *)


Section RoundTripFacts.
Context `{E : Externals}.

Lemma mem_take_Some bs n :
  0 ≤ n ≤ Z.of_nat (length bs) →
  mem_take (Some bs) n = Some (take (Z.to_nat n) bs).
Proof.
  intros Hn. unfold mem_take.
  destruct (Z.leb_spec 0 n); [|lia].
  destruct (Z.leb_spec n (Z.of_nat (length bs))); [|lia]. done.
Qed.

Lemma save_record_ok k b :
  entry_ok k b →
  save_record (k, b) = (record_bytes 1 (entry_record (k, b)), Ok tt).
Proof.
  intros (Hk & Hc & Hlen & Hdata & Hcdata).
  unfold save_record, entry_record, record_bytes, record_head. cbn [fst snd].
  rewrite to_short_small by lia.
  destruct (Z.eqb_spec (ssize k) 0); [lia|].
  destruct (Z.ltb_spec (ssize k) 0); [lia|].
  rewrite firstn_all2 by (rewrite length_string_bytes; unfold ssize; lia).
  destruct (cdata b) as [c|] eqn:Hcd.
  - destruct Hcdata as (Hcl & Hcl' & _ & _).
    rewrite bool_decide_true by eauto. cbn [rec_name rec_flag rec_len rec_payload].
    destruct (Z.ltb_spec 0 (clen b)); [|lia]. cbn [negb].
    rewrite mem_take_Some by lia.
    by rewrite <- !app_assoc.
  - rewrite bool_decide_false by (by intros [? ?]).
    cbn [rec_name rec_flag rec_len rec_payload].
    destruct (Z.ltb_spec 0 (len b)) as [Hpos|Hneg].
    + destruct (data b) as [d|] eqn:Hd; [|lia].
      rewrite mem_take_Some by lia. by rewrite <- !app_assoc.
    + by rewrite <- !app_assoc, !app_nil_r.
Qed.

Lemma save_records_ok (files : list (string * Buffer)) :
  Forall (λ file, entry_ok file.1 file.2) files →
  save_records files
  = (concat (map (record_bytes 1) (entry_record <$> files)), Ok tt).
Proof.
  induction files as [|[k b] files IH]; intros Hok; [done|].
  apply Forall_cons in Hok as [Hkb Hok]. cbn [save_records]. cbn [fst snd] in Hkb.
  rewrite (save_record_ok _ _ Hkb), (IH Hok). done.
Qed.

Lemma table_ok_list m :
  table_ok m → Forall (λ file, entry_ok file.1 file.2) (map_to_list m).
Proof.
  intros Hm. apply Forall_forall. intros [k b] Hin.
  apply elem_of_map_to_list in Hin. by apply Hm.
Qed.

Lemma save_spec filename w fc :
  UseNewCache w = false → nonempty filename = true →
  can_create (c_str filename) = true →
  table_ok (m_files fc) →
  save filename w fc
  = (Ok tt,
     with_disk w (<[c_str filename :=
                     archive_bytes 1 (entry_record <$> map_to_list (m_files fc))]>
                    (disk w)),
     fc).
Proof.
  intros Hw Hn Hcan Hok. unfold save. mrun. rewrite Hn, Hw, Hcan. cbv zeta.
  rewrite (save_records_ok _ (table_ok_list _ Hok)). done.
Qed.

Lemma record_ok_entry k b : entry_ok k b → record_ok (entry_record (k, b)).
Proof.
  intros (Hk & Hc & Hlen & Hdata & Hcdata). unfold record_ok, entry_record.
  cbn [fst snd]. destruct (cdata b) as [c|];
    cbn [rec_name rec_flag rec_len rec_payload].
  - destruct Hcdata as (Hcl & Hcl' & _ & _).
    repeat split; try done; try lia. intros _. rewrite length_take. lia.
  - repeat split; try done; try lia. intros Hpos.
    destruct (data b) as [d|]; [|lia]. rewrite length_take. lia.
Qed.

Lemma record_buffer_entry filename onDemandUncompress k b :
  entry_ok k b →
  record_buffer filename onDemandUncompress (entry_record (k, b))
  = Ok (reloaded_buffer onDemandUncompress b).
Proof.
  intros (Hk & Hc & Hlen & Hdata & Hcdata).
  unfold record_buffer, entry_record, reloaded_buffer, loaded_buffer.
  cbn [fst snd]. destruct (cdata b) as [c|] eqn:Hcd;
    cbn [rec_name rec_flag rec_len rec_payload].
  - destruct Hcdata as (Hcl & Hcl' & Hpos & Hdec).
    destruct (Z.ltb_spec 0 (clen b)); [|lia].
    rewrite bool_decide_false by done.
    unfold load_compressed. cbn [len data].
    destruct onDemandUncompress; [done|].
    rewrite mem_take_Some by (rewrite length_app, length_take; cbn; lia).
    rewrite take_app_length' by (rewrite length_take; lia).
    rewrite Hdec.
    destruct (data b) as [d|]; cbn [fmap option_fmap option_map].
    + rewrite length_take. do 2 f_equal. lia.
    + lia.
  - destruct (Z.ltb_spec 0 (len b)) as [Hpos|Hneg]; [|done].
    rewrite bool_decide_true by done.
    destruct (data b) as [d|]; [done|lia].
Qed.

Lemma entry_record_name file : rec_name (entry_record file) = file.1.
Proof. unfold entry_record. by destruct (cdata file.2). Qed.

Lemma load_records_entries filename onDemandUncompress
    (l : list (string * Buffer)) :
  ∀ m0 : gmap string Buffer,
    Forall (λ file, entry_ok file.1 file.2) l →
    NoDup l.*1 →
    (∀ k, k ∈ l.*1 → m0 !! k = None) →
    load_records filename onDemandUncompress (entry_record <$> l) m0
    = (Ok tt,
       list_to_map (prod_map id (reloaded_buffer onDemandUncompress) <$> l) ∪ m0).
Proof.
  induction l as [|[k b] l IH]; intros m0 Hok Hnd Hfresh.
  - cbn. by rewrite (left_id_L ∅ (∪)).
  - apply Forall_cons in Hok as [Hkb Hok]. cbn [fst snd] in Hkb.
    rewrite fmap_cons in Hnd. cbn [fst] in Hnd.
    apply NoDup_cons in Hnd as [Hnin Hnd].
    rewrite fmap_cons. cbn [load_records].
    rewrite !entry_record_name. cbn [fst].
    rewrite bool_decide_false.
    2: { rewrite Hfresh; [by intros [? ?]|]. rewrite fmap_cons. by left. }
    rewrite (record_buffer_entry _ _ _ _ Hkb).
    rewrite IH; [|done|done|].
    2: { intros k' Hk'. rewrite lookup_insert_ne by (by intros ->).
         apply Hfresh. rewrite fmap_cons. by right. }
    f_equal. rewrite fmap_cons. cbn [list_to_map prod_map fst snd foldr id].
    rewrite <- insert_union_l.
    rewrite <- insert_union_r; [done|].
    apply not_elem_of_list_to_map_1.
    rewrite <- list_fmap_compose.
    by erewrite list_fmap_ext; [exact Hnin|].
Qed.

(** What [load] makes of the file [save] has written. *)
Lemma load_saved filename onDemandUncompress w fc :
  UseNewCache w = false → nonempty filename = true →
  can_create (c_str filename) = true →
  table_ok (m_files fc) →
  load filename onDemandUncompress 1 (save filename w fc).1.2 new_FileCache
  = (Ok tt, (save filename w fc).1.2,
     with_files new_FileCache (reloaded_buffer onDemandUncompress <$> m_files fc)).
Proof.
  intros Hw Hn Hcan Hok. rewrite save_spec by done. cbn [fst snd].
  set (w' := with_disk w _).
  set (rs := entry_record <$> map_to_list (m_files fc)).
  assert (Forall record_ok rs) as Hrs.
  { subst rs. apply Forall_fmap. eapply Forall_impl; [by apply table_ok_list|].
    intros [k b] Hkb. by apply record_ok_entry. }
  pose proof (load_archive filename onDemandUncompress 1 rs w' new_FileCache
                Hw Hn Hrs) as Hload.
  subst rs.
  rewrite (load_records_entries filename onDemandUncompress
             (map_to_list (m_files fc)) (m_files new_FileCache)) in Hload.
  - cbn [fst snd] in Hload. rewrite Hload.
    + cbn [m_files new_FileCache]. rewrite (right_id_L ∅ (∪)).
      by rewrite list_to_map_fmap, list_to_map_to_list.
    + subst w'. unfold with_disk. cbn [disk]. by rewrite lookup_insert_eq.
  - by apply table_ok_list.
  - apply NoDup_fst_map_to_list.
  - intros k _. apply lookup_empty.
Qed.

Lemma read_as_buffer w fc name len0 compressed :
  UseNewCache w = false →
  read w fc name len0 compressed
  = if nonempty name then
      match find fc name with
      | Some buf => read_buffer buf compressed
      | None => Ok (mkRead None len0 compressed)
      end
    else Ok (mkRead None len0 compressed).
Proof. intros Hw. unfold read. by rewrite Hw. Qed.

Lemma fileSize_as_buffer w fc name :
  UseNewCache w = false →
  fileSize_relative w fc name
  = match find fc name with
    | Some buf => fileSize_buffer name buf
    | None => Ok (-1)
    end.
Proof. intros Hw. unfold fileSize_relative. by rewrite Hw. Qed.

Lemma reloaded_len k b :
  entry_ok k b →
  len (reloaded_buffer false b) = len b
  ∧ len (reloaded_buffer true b) = (if cdata b is Some _ then -1 else len b)
  ∧ (cdata b ≠ None → 0 < len b).
Proof.
  intros (_ & _ & _ & _ & Hc). unfold reloaded_buffer.
  destruct (cdata b); cbn [len]; repeat split; try done.
  intros _. by destruct Hc as (_ & _ & ? & _).
Qed.

Lemma read_buffer_eager k b compressed :
  entry_ok k b →
  outcome_map view (read_buffer (reloaded_buffer false b) compressed)
  = outcome_map view (read_buffer b compressed).
Proof.
  intros (_ & _ & Hlen & Hdata & Hcdata).
  unfold read_buffer, reloaded_buffer.
  destruct (cdata b) as [c|] eqn:Hc; cbn [len data clen cdata].
  - destruct Hcdata as (Hcl & Hcl' & Hpos & _).
    destruct (data b) as [d|] eqn:Hd; [|lia].
    cbn [fmap option_fmap option_map].
    rewrite !(bool_decide_true (is_Some (Some _))) by eauto.
    rewrite !(bool_decide_false (Some _ = None)) by done.
    destruct (Z.ltb_spec 0 (clen b)); [|lia].
    destruct (Z.eqb_spec (len b) 0); [lia|].
    destruct compressed; cbn [andb negb outcome_map]; unfold view;
      cbn [r_ptr r_len r_compressed fmap option_fmap option_map].
    + by rewrite take_app_length' by (rewrite length_take; lia).
    + by rewrite take_take, Nat.min_id.
  - rewrite !(bool_decide_false (is_Some None)) by (by intros [? ?]).
    rewrite !andb_false_r.
    destruct (Z.eqb_spec (len b) 0) as [H0|H0].
    + destruct (Z.ltb_spec 0 (len b)); [lia|].
      destruct (data b); [lia|]. done.
    + destruct (Z.ltb_spec 0 (len b)) as [Hpos|Hneg].
      * destruct (data b) as [d|]; [|lia].
        cbn [outcome_map]; unfold view;
          cbn [r_ptr r_len r_compressed fmap option_fmap option_map].
        by rewrite take_app_length' by (rewrite length_take; lia).
      * destruct (data b); [lia|]. done.
Qed.

Lemma read_buffer_deferred k b compressed :
  entry_ok k b →
  compressed = true ∨ cdata b = None →
  outcome_map view (read_buffer (reloaded_buffer true b) compressed)
  = outcome_map view (read_buffer b compressed).
Proof.
  intros Hok Hcase. destruct (cdata b) as [c|] eqn:Hc.
  - destruct Hcase as [-> | ?]; [|done].
    destruct Hok as (_ & _ & Hlen & Hdata & Hcdata).
    unfold read_buffer, reloaded_buffer. rewrite Hc in *.
    cbn [len data clen cdata].
    destruct Hcdata as (Hcl & Hcl' & Hpos & _).
    rewrite !(bool_decide_true (is_Some (Some _))) by eauto. cbn [andb].
    destruct (Z.ltb_spec 0 (clen b)); [|lia].
    cbn [outcome_map]; unfold view;
      cbn [r_ptr r_len r_compressed fmap option_fmap option_map].
    by rewrite take_app_length' by (rewrite length_take; lia).
  - rewrite <- (read_buffer_eager k b compressed Hok).
    unfold reloaded_buffer. by rewrite Hc.
Qed.

(** After a load that defers decompression, a request for the raw bytes
    of an entry with a compressed form is answered with the compressed
    bytes and the flag set. *)
Lemma read_buffer_deferred_raw k b c :
  entry_ok k b → cdata b = Some c →
  outcome_map view (read_buffer (reloaded_buffer true b) false)
  = Ok (Some (take (Z.to_nat (clen b)) c), clen b, true).
Proof.
  intros (_ & _ & _ & _ & Hcdata) Hc. rewrite Hc in Hcdata.
  destruct Hcdata as (Hcl & Hcl' & _ & _).
  unfold read_buffer, reloaded_buffer. rewrite Hc.
  cbn [len data clen cdata andb negb].
  rewrite (bool_decide_true (None = None)) by done.
  rewrite (bool_decide_true (is_Some (Some _))) by eauto. cbn [andb].
  destruct (Z.ltb_spec 0 (clen b)); [|lia].
  cbn [outcome_map]; unfold view;
    cbn [r_ptr r_len r_compressed fmap option_fmap option_map].
  by rewrite take_app_length' by (rewrite length_take; lia).
Qed.

Lemma fileSize_buffer_reloaded name k b onDemandUncompress :
  entry_ok k b →
  fileSize_buffer name (reloaded_buffer onDemandUncompress b)
  = fileSize_buffer name b.
Proof.
  intros (_ & _ & Hlen & Hdata & Hcdata).
  unfold fileSize_buffer, reloaded_buffer.
  destruct (cdata b) as [c|] eqn:Hc; [|done].
  destruct Hcdata as (Hcl & Hcl' & Hpos & Hdec).
  destruct (Z.leb_spec 0 (len b)); [|lia].
  destruct onDemandUncompress; cbn [len data clen cdata].
  2: { by destruct (Z.leb_spec 0 (len b)); [|lia]. }
  change (0 <=? -1) with false. cbv iota.
  rewrite mem_take_Some by (rewrite length_app, length_take; cbn; lia).
  rewrite take_app_length' by (rewrite length_take; lia).
  rewrite Hdec. destruct (data b) as [d|]; [|lia].
  cbn [fmap option_fmap option_map]. rewrite length_take. f_equal. lia.
Qed.

Lemma GetRelativePath_ext w w' path :
  SourceRoot w' = SourceRoot w → GetRelativePath w' path = GetRelativePath w path.
Proof. intros Hs. unfold GetRelativePath. by rewrite Hs. Qed.

(** The queries cannot tell the reloaded table from the saved one, except
    that [read] of an entry with a compressed form, asked for raw bytes,
    hands out the compressed bytes after a deferred load. *)
Lemma queries_reloaded onDemandUncompress w w' fc fc' :
  UseNewCache w = false → UseNewCache w' = false →
  SourceRoot w' = SourceRoot w →
  table_ok (m_files fc) →
  m_files fc' = reloaded_buffer onDemandUncompress <$> m_files fc →
  (∀ name isRelative,
     exists_ w' fc' name isRelative = exists_ w fc name isRelative
     ∧ dirExists w' fc' name isRelative = dirExists w fc name isRelative
     ∧ fileExists w' fc' name isRelative = fileExists w fc name isRelative
     ∧ fileSize w' fc' name isRelative = fileSize w fc name isRelative)
  ∧ (∀ name len0 compressed,
       onDemandUncompress = false ∨ compressed = true
       ∨ (∀ b, find fc name = Some b → cdata b = None) →
       read_view w' fc' name len0 compressed = read_view w fc name len0 compressed)
  ∧ (∀ name len0 b c,
       onDemandUncompress = true →
       find fc name = Some b → cdata b = Some c →
       read_view w' fc' name len0 false
       = Ok (Some (take (Z.to_nat (clen b)) c), clen b, true)).
Proof.
  intros Hw Hw' Hs Hok Hm.
  assert (Hfind : ∀ name, find fc' name = reloaded_buffer onDemandUncompress <$> find fc name).
  { intros name. unfold find. by rewrite Hm, lookup_fmap. }
  assert (Hrel : ∀ name,
     exists_relative w' fc' name = exists_relative w fc name
     ∧ dirExists_relative w' fc' name = dirExists_relative w fc name
     ∧ fileExists_relative w' fc' name = fileExists_relative w fc name
     ∧ fileSize_relative w' fc' name = fileSize_relative w fc name).
  { intros name.
    unfold exists_relative, dirExists_relative, fileExists_relative.
    rewrite !fileSize_as_buffer by done. rewrite Hw, Hw', Hfind.
    destruct (find fc name) as [b|] eqn:Hb; cbn [fmap option_fmap option_map].
    2: { by rewrite !(bool_decide_false (is_Some None)) by (by intros [? ?]). }
    pose proof (Hok _ _ Hb) as Hkb. cbn beta in Hkb.
    destruct (reloaded_len _ _ Hkb) as (He & Hd & Hpos).
    rewrite (fileSize_buffer_reloaded _ _ _ _ Hkb).
    rewrite !bool_decide_true by eauto.
    destruct onDemandUncompress.
    - rewrite Hd. destruct (cdata b) as [c|]; [|done].
      specialize (Hpos ltac:(done)).
      destruct (Z.eqb_spec (len b) (-2)); [lia|].
      destruct (Z.leb_spec (-1) (len b)); [|lia]. done.
    - by rewrite He. }
  split; [|split].
  - intros name isRelative.
    unfold exists_, dirExists, fileExists, fileSize.
    rewrite (GetRelativePath_ext w w') by done.
    destruct isRelative.
    + destruct (Hrel name) as (-> & -> & -> & ->). done.
    + destruct (Hrel (GetRelativePath w name)) as (-> & -> & -> & ->). done.
  - intros name len0 compressed Hcase. unfold read_view.
    rewrite !read_as_buffer by done. rewrite Hfind.
    destruct (nonempty name); [|done].
    destruct (find fc name) as [b|] eqn:Hb; cbn [fmap option_fmap option_map];
      [|done].
    pose proof (Hok _ _ Hb) as Hkb. cbn beta in Hkb.
    destruct onDemandUncompress.
    + apply (read_buffer_deferred _ _ _ Hkb).
      destruct Hcase as [? | [-> | Hnone]]; [done|by left|right; by apply Hnone].
    + apply (read_buffer_eager _ _ _ Hkb).
  - intros name len0 b c -> Hb Hc. unfold read_view.
    rewrite read_as_buffer by done. rewrite Hfind, Hb.
    cbn [fmap option_fmap option_map].
    pose proof (Hok _ _ Hb) as Hkb. cbn beta in Hkb.
    assert (nonempty name = true) as ->.
    { destruct Hkb as (Hsize & _). unfold nonempty, ssize in *.
      destruct (c_str name); [cbn in Hsize; lia|done]. }
    by apply (read_buffer_deferred_raw _ _ _ Hkb).
Qed.

End RoundTripFacts.

Section BuildFacts.
Context `{E : Externals}.

Lemma dir_entries_lookup sname l k b :
  dir_entries sname l !! k = Some b →
  b = directory ∧ ∃ i, i ∈ l ∧ k = String.substring 0 i sname.
Proof.
  induction l as [|i l IH]; cbn [dir_entries]; [by rewrite lookup_empty|].
  destruct (char_is sname i "/").
  - destruct (decide (String.substring 0 i sname = k)) as [<-|Hne].
    + rewrite lookup_insert_eq. intros [= <-]. split; [done|].
      exists i. split; [by left|done].
    + rewrite lookup_insert_ne by done. intros Hl.
      destruct (IH Hl) as (-> & j & Hj & ->). split; [done|].
      exists j. split; [by right|done].
  - intros Hl. destruct (IH Hl) as (-> & j & Hj & ->). split; [done|].
    exists j. split; [by right|done].
Qed.

Lemma write_Ok name addDirectories w fc :
  UseNewCache w = false →
  (write name addDirectories w fc).1.1 = Ok tt →
  nonempty name = true ∧ exists_ w fc name true = false.
Proof.
  intros Hw. unfold write. mrun.
  destruct (nonempty name); [|done].
  by destruct (exists_ w fc name true).
Qed.

Lemma write_file_Ok name fullpath w fc :
  UseNewCache w = false →
  (write_file name fullpath w fc).1.1 = Ok tt →
  nonempty name = true ∧ nonempty fullpath = true
  ∧ exists_ w fc name true = false
  ∧ is_Some (disk w !! c_str fullpath).
Proof.
  intros Hw. unfold write_file. mrun.
  destruct (nonempty name); [|done].
  destruct (nonempty fullpath); [|done].
  destruct (exists_ w fc name true); [done|]. rewrite Hw.
  destruct (disk w !! c_str fullpath); [eauto|done].
Qed.

Lemma built_table_insert_dirs name b (m : gmap string Buffer) :
  nonempty name = true → built_buffer b → built_table m →
  built_table (<[c_str name := b]> m ∪ dir_entries (c_str name) (dir_indices name)).
Proof.
  intros Hn Hb Hm k b' Hl.
  apply lookup_union_Some_raw in Hl as [Hl | [_ Hl]].
  - destruct (decide (c_str name = k)) as [<-|Hne].
    + rewrite lookup_insert_eq in Hl. injection Hl as <-.
      by rewrite nonempty_c_str, c_str_idemp.
    + rewrite lookup_insert_ne in Hl by done. by apply Hm.
  - apply dir_entries_lookup in Hl as (-> & i & Hi & ->).
    apply list_elem_of_In, in_seq in Hi.
    split; [apply nonempty_substring_prefix; [done|lia]|].
    split; [apply c_str_substring_prefix|]. by left.
Qed.

Lemma register_built r w fc :
  UseNewCache w = false → small_files (disk w) →
  (register r w fc).1.1 = Ok tt →
  built_table (m_files fc) →
  (register r w fc).1.2 = w ∧ built_table (m_files (register r w fc).2).
Proof.
  intros Hw Hsmall Hok Hm. destruct r as [name addDirectories | name fullpath];
    cbn [register] in *.
  - destruct (write_Ok _ _ _ _ Hw Hok) as [Hn Hex].
    rewrite write_spec by done. cbn [fst snd with_files m_files].
    split; [done|]. destruct addDirectories.
    + apply built_table_insert_dirs; [done| |done]. right. by left.
    + rewrite (right_id_L ∅ (∪)). intros k b Hl.
      destruct (decide (c_str name = k)) as [<-|Hne].
      * rewrite lookup_insert_eq in Hl. injection Hl as <-.
        rewrite nonempty_c_str, c_str_idemp. repeat split; try done.
        right. by left.
      * rewrite lookup_insert_ne in Hl by done. by apply Hm.
  - destruct (write_file_Ok _ _ _ _ Hw Hok) as (Hn & Hfp & Hex & [content Hd]).
    pose proof (Hsmall _ _ Hd) as Hlen. cbn beta in Hlen.
    rewrite (write_file_spec _ _ content) by done.
    cbn [fst snd with_files m_files]. split; [done|].
    apply built_table_insert_dirs; [done| |done].
    right. right. by exists name, content.
Qed.

Lemma build_built script :
  ∀ w fc,
    UseNewCache w = false → small_files (disk w) →
    (build script w fc).1.1 = Ok tt →
    built_table (m_files fc) →
    (build script w fc).1.2 = w ∧ built_table (m_files (build script w fc).2).
Proof.
  induction script as [|r script IH]; intros w fc Hw Hsmall Hok Hm; [done|].
  unfold build in *. cbn [for_each] in *. unfold bind in *.
  pose proof (register_built r w fc Hw Hsmall) as Hr.
  destruct (register r w fc) as [[o w1] fc1]. cbn [fst snd] in *.
  destruct o as [[]| | | |]; try done.
  destruct (Hr eq_refl Hm) as [-> Hm1]. by apply IH.
Qed.

Lemma built_entry_ok k b :
  nonempty k = true ∧ c_str k = k ∧ built_buffer b →
  savable k b → entry_ok k b.
Proof.
  intros (Hn & Hc & Hb) (Hk & Hlen & Hcodec). unfold entry_ok.
  assert (0 < ssize k).
  { unfold nonempty in Hn. rewrite Hc in Hn. unfold ssize.
    destruct k; [done|]. cbn [String.length]. lia. }
  destruct Hb as [-> | [-> | (name & content & Hsize & ->)]].
  - cbn. repeat split; try done; lia.
  - cbn. repeat split; try done; lia.
  - rewrite len_file_buffer in *. unfold file_buffer in *.
    set (n := Z.of_nat (length content)) in *.
    destruct (Z.eqb_spec n 0) as [H0|H0].
    { cbn [data cdata]. repeat split; try done; lia. }
    assert (Hraw : 0 < n ≤ Z.of_nat (length content)) by lia.
    destruct (is_compressible_file (c_str name));
      [destruct (gzencode content) as [compressed|];
        [destruct (Z.ltb_spec (Z.of_nat (length compressed))
                     (int_div (int_mul n 3) 4)) as [Hgate|Hgate]|]|];
      cbn [data cdata clen len] in *; repeat split; try done; try lia.
    + destruct compressed; [by destruct Hcodec|]. cbn [length]. lia.
    + assert (int_div (int_mul n 3) 4 < 536870912); [|lia].
      unfold int_div, int_mul.
      pose proof (wrap_range 32 (n * 3) ltac:(lia)) as Hr. fold (to_int (n * 3)) in Hr.
      change (2 ^ (32 - 1)) with 2147483648 in Hr.
      pose proof (Z.quot_le_mono (to_int (n * 3)) 2147483647 4 ltac:(lia) ltac:(lia)) as Hu.
      pose proof (Z.quot_le_mono (-2147483648) (to_int (n * 3)) 4 ltac:(lia) ltac:(lia)) as Hl.
      change (2147483647 ÷ 4) with 536870911 in Hu.
      change (-2147483648 ÷ 4) with (-536870912) in Hl.
      rewrite to_int_small; lia.
    + rewrite Nat2Z.id, firstn_all. destruct Hcodec as [_ ->].
      cbn [fmap option_fmap option_map]. subst n.
      by rewrite Nat2Z.id, firstn_all.
Qed.

(** The table of a build that passes the checks can be saved and read
    back. *)
Lemma build_table_ok script w0 w fc :
  UseNewCache w0 = false → small_files (disk w0) →
  build script w0 new_FileCache = (Ok tt, w, fc) →
  table_savable (m_files fc) →
  w = w0 ∧ table_ok (m_files fc).
Proof.
  intros Hw Hsmall Hb Hs.
  destruct (build_built script w0 new_FileCache Hw Hsmall) as [Hw' Hm].
  { by rewrite Hb. }
  { intros k b Hl. cbn in Hl. by rewrite lookup_empty in Hl. }
  rewrite Hb in Hw', Hm. cbn [fst snd] in *. split; [done|].
  intros k b Hl. apply built_entry_ok; [by apply (Hm k b)|by apply (Hs k b)].
Qed.

(** C1 (amended): for a build that succeeds (from files shorter than
    2^31 bytes) and whose table has paths shorter than 32768 characters,
    lengths below 2^31 - 1 and compressed forms that are not empty and
    decode to the raw bytes, [save] succeeds and [load] of the saved file
    with version 1 succeeds in either mode; [exists], [dirExists],
    [fileExists] and [fileSize] answer on the loaded table as on the
    saved one; [read] hands out the same bytes, length and flag after a
    load that decompresses at once, and after a load that defers
    decompression whenever compressed bytes are asked for or the entry
    has no compressed form; asked for the raw bytes of an entry with a
    compressed form after a load that defers decompression, [read] hands
    out the compressed bytes and their length and sets the flag. *)
Theorem save_then_load_answers_alike script w0 w fc filename :
  UseNewCache w0 = false → small_files (disk w0) →
  build script w0 new_FileCache = (Ok tt, w, fc) →
  table_savable (m_files fc) →
  nonempty filename = true → can_create (c_str filename) = true →
  ∃ w',
    save filename w fc = (Ok tt, w', fc)
    ∧ ∀ onDemandUncompress, ∃ fc',
        load filename onDemandUncompress 1 w' new_FileCache = (Ok tt, w', fc')
        ∧ (∀ name isRelative,
             exists_ w' fc' name isRelative = exists_ w fc name isRelative
             ∧ dirExists w' fc' name isRelative = dirExists w fc name isRelative
             ∧ fileExists w' fc' name isRelative = fileExists w fc name isRelative
             ∧ fileSize w' fc' name isRelative = fileSize w fc name isRelative)
        ∧ (∀ name len0 compressed,
             onDemandUncompress = false ∨ compressed = true
             ∨ (∀ b, find fc name = Some b → cdata b = None) →
             read_view w' fc' name len0 compressed
             = read_view w fc name len0 compressed)
        ∧ (∀ name len0 b c,
             onDemandUncompress = true →
             find fc name = Some b → cdata b = Some c →
             read_view w' fc' name len0 false
             = Ok (Some (take (Z.to_nat (clen b)) c), clen b, true)).
Proof.
  intros Hw0 Hsmall Hbuild Hsav Hn Hcan.
  destruct (build_table_ok script w0 w fc Hw0 Hsmall Hbuild Hsav) as [-> Hok].
  exists (save filename w0 fc).1.2. split.
  { by rewrite save_spec. }
  intros onDemandUncompress.
  exists (with_files new_FileCache (reloaded_buffer onDemandUncompress <$> m_files fc)).
  split; [by apply load_saved|].
  apply (queries_reloaded onDemandUncompress); try done.
  - by rewrite save_spec.
  - by rewrite save_spec.
Qed.

End BuildFacts.

Section RoundTripExamples.
Import Toy Sample.

Lemma save_then_load_answers_alike_witness :
  ∃ w',
    save "/tmp/archive" world1 built.2 = (Ok tt, w', built.2)
    ∧ ∀ onDemandUncompress, ∃ fc',
        load "/tmp/archive" onDemandUncompress 1 w' new_FileCache = (Ok tt, w', fc')
        ∧ (∀ name isRelative,
             exists_ w' fc' name isRelative = exists_ world1 built.2 name isRelative
             ∧ dirExists w' fc' name isRelative
               = dirExists world1 built.2 name isRelative
             ∧ fileExists w' fc' name isRelative
               = fileExists world1 built.2 name isRelative
             ∧ fileSize w' fc' name isRelative
               = fileSize world1 built.2 name isRelative)
        ∧ (∀ name len0 compressed,
             onDemandUncompress = false ∨ compressed = true
             ∨ (∀ b, find built.2 name = Some b → cdata b = None) →
             read_view w' fc' name len0 compressed
             = read_view world1 built.2 name len0 compressed)
        ∧ (∀ name len0 b c,
             onDemandUncompress = true →
             find built.2 name = Some b → cdata b = Some c →
             read_view w' fc' name len0 false
             = Ok (Some (take (Z.to_nat (clen b)) c), clen b, true)).
Proof.
  apply (save_then_load_answers_alike script1 world1 world1 built.2 "/tmp/archive").
  - reflexivity.
  - apply (bool_decide_eq_true_1 (small_files _)). by vm_compute.
  - by vm_compute.
  - apply (bool_decide_eq_true_1 (table_savable _)). by vm_compute.
  - reflexivity.
  - reflexivity.
Defined.

(** C1 fails as stated: after a load that defers decompression, [read]
    of a compressed entry asked for raw bytes hands out the 7 compressed
    bytes with the flag set, where the saved table handed out the 42 raw
    bytes. *)
Lemma save_then_load_deferred_read_counterexample :
  built.1.1 = Ok tt ∧ saved.1.1 = Ok tt ∧ (reloaded true).1.1 = Ok tt
  ∧ read_view built.1.2 built.2 "assets/data.txt" 0 false
    = Ok (Some (replicate 40 x61 ++ [x62; x63]), 42, false)
  ∧ read_view (reloaded true).1.2 (reloaded true).2 "assets/data.txt" 0 false
    = Ok (Some [x1f; x28; x61; x01; x62; x01; x63], 7, true)
  ∧ read_view (reloaded true).1.2 (reloaded true).2 "assets/data.txt" 0 false
    ≠ read_view built.1.2 built.2 "assets/data.txt" 0 false.
Proof. repeat split; by vm_compute. Qed.

End RoundTripExamples.

(** ** The loop of [load] comes to an end *)

Section OwnedTermination.
Context `{E : Externals}.

Lemma load_payload_progress version f n :
  0 < n →
  match load_payload version f n with
  | Ok (true, _, f') => (length (f_rest f') ≤ length (f_rest f))%nat
  | OutOfFuel => False
  | _ => True
  end.
Proof.
  intros Hn. unfold load_payload.
  destruct (to_int (n + 1) <? 0); [done|].
  destruct (0 <? version).
  - rewrite read_bytes_spec. cbn [fst snd f_rest].
    case_bool_decide; cbn [negb]; [|done].
    case_bool_decide; [|done]. cbn [f_rest]. rewrite length_drop. lia.
  - rewrite read_bytes_spec. cbn [fst snd f_rest].
    case_bool_decide; cbn [negb]; [|done]. cbn [f_rest]. rewrite length_drop. lia.
Qed.

Lemma load_record_progress filename onDemandUncompress version f w fc :
  match (load_record filename onDemandUncompress version f w fc).1.1 with
  | Ok (Next f') => (length (f_rest f') + 2 ≤ length (f_rest f))%nat
  | OutOfFuel => False
  | _ => True
  end.
Proof.
  unfold load_record. rewrite !read_bytes_spec. cbn [fst snd f_rest f_eof].
  case_bool_decide as H2; cbn [negb orb].
  2: { by destruct (_ || _). }
  destruct (bytes_short _ <=? 0) eqn:Hnl.
  { by destruct (_ || _). }
  case_bool_decide as Hname; cbn [negb]; [|done].
  unfold bind at 1. unfold world at 1. unfold bind at 1. unfold this at 1.
  destruct (exists_ _ _ _ _); [done|].
  case_bool_decide as Hc; cbn [negb orb]; [|done].
  case_bool_decide as Hl; cbn [negb]; [|done].
  unfold bind at 1. unfold store at 1.
  set (rest := drop 4 _).
  assert (length rest + 2 ≤ length (f_rest f))%nat as Hrest.
  { subst rest. rewrite !length_drop. lia. }
  destruct (0 <? bytes_int _) eqn:Hpos; [|cbn; lia].
  apply Z.ltb_lt in Hpos.
  unfold bind at 1. unfold lift at 1.
  pose proof (load_payload_progress version
                {| f_rest := rest;
                   f_eof := f_eof f || (length (f_rest f) <? 2)%nat
                            || (length (drop 2 (f_rest f))
                                <? Z.to_nat (bytes_short (take 2 (f_rest f))))%nat
                            || (length (drop (Z.to_nat (bytes_short (take 2 (f_rest f))))
                                          (drop 2 (f_rest f))) <? 1)%nat
                            || (length (drop 1 (drop (Z.to_nat (bytes_short (take 2 (f_rest f))))
                                          (drop 2 (f_rest f)))) <? 4)%nat |}
                _ Hpos) as Hp.
  destruct (load_payload _ _ _) as [[[ok alloc] f']| | | |]; try done.
  unfold bind at 1. unfold store at 1. cbn [fst snd].
  destruct ok; cbn [negb]; [|done]. cbn [f_rest] in Hp.
  destruct (negb _).
  - unfold bind at 1. unfold lift at 1.
    unfold load_compressed.
    destruct onDemandUncompress;
      [|destruct (mem_take _ _); [destruct (gzdecode _)|]];
      mrun; cbn [fst snd]; try done; lia.
  - mrun. cbn [fst snd]. lia.
Qed.

Lemma load_loop_has_fuel filename onDemandUncompress version fuel :
  ∀ f w fc,
    (length (f_rest f) < fuel)%nat →
    (load_loop fuel filename onDemandUncompress version f w fc).1.1 ≠ OutOfFuel.
Proof.
  induction fuel as [|fuel IH]; intros f w fc Hfuel; [lia|].
  cbn [load_loop]. unfold bind.
  pose proof (load_record_progress filename onDemandUncompress version f w fc) as Hp.
  destruct (load_record _ _ _ _ _ _) as [[o w'] fc']. cbn [fst snd] in *.
  destruct o as [[f'|]| | | |]; try done.
  apply IH. lia.
Qed.

(** [load] never runs out of turns of its loop. *)
Lemma load_has_fuel filename onDemandUncompress version w fc :
  (load filename onDemandUncompress version w fc).1.1 ≠ OutOfFuel.
Proof.
  unfold load. mrun. destruct (nonempty filename); [|done].
  destruct (UseNewCache w); [done|].
  destruct (disk w !! c_str filename) as [content|]; [|done].
  apply load_loop_has_fuel.
  destruct (0 <? version); [|cbn; lia].
  rewrite !read_bytes_spec. cbn [fst snd f_rest fopen_r]. rewrite !length_drop. lia.
Qed.

End OwnedTermination.

(** ** Lengths in the tables the builder and the loaders make *)


Section LengthFacts.
Context `{E : Externals}.

Lemma lengths_ok_raw fc : lengths_ok fc → raw_lengths_ok fc.
Proof. intros H k b Hl. by destruct (H k b Hl). Qed.

Lemma lengths_ok_store fc key b :
  lengths_ok fc →
  (is_Some (data b) → 0 ≤ len b) → (is_Some (cdata b) → 0 < clen b) →
  lengths_ok (with_files fc (<[key := b]> (m_files fc))).
Proof.
  intros Hfc Hd Hc. unfold lengths_ok. cbn [with_files m_files].
  by apply map_Forall_insert_2.
Qed.

Lemma lengths_ok_with_files fc m :
  lengths_ok (with_files fc m) ↔
  map_Forall (λ _ b, (is_Some (data b) → 0 ≤ len b)
                     ∧ (is_Some (cdata b) → 0 < clen b)) m.
Proof. done. Qed.

Lemma built_table_raw_lengths fc : built_table (m_files fc) → raw_lengths_ok fc.
Proof.
  intros Hb k b Hl. destruct (Hb k b Hl) as (_ & _ & Hbuf).
  destruct Hbuf as [-> | [-> | (name & content & _ & ->)]].
  - by intros [? ?].
  - by intros [? ?].
  - intros _. rewrite len_file_buffer. lia.
Qed.

Ltac lengths :=
  unfold lengths_ok in *; cbn [fst snd with_files m_files];
  rewrite ?insert_insert_eq;
  first
    [ assumption
    | apply map_Forall_insert_2;
      [ split; cbn [len data clen cdata]; first [lia | by intros [? ?]]
      | assumption ] ].

Lemma load_record_lengths filename onDemandUncompress version f w fc :
  lengths_ok fc →
  lengths_ok (load_record filename onDemandUncompress version f w fc).2.
Proof.
  intros Hfc. unfold load_record. rewrite !read_bytes_spec.
  cbn [fst snd f_rest f_eof].
  destruct (_ || _).
  { by destruct (_ || _). }
  destruct (negb _); [done|].
  unfold bind at 1. unfold world at 1. unfold bind at 1. unfold this at 1.
  destruct (exists_ _ _ _ _); [done|].
  destruct (_ || _); [done|].
  unfold bind at 1. unfold store at 1.
  set (name := bytes_string _). set (n := bytes_int _).
  destruct (Z.ltb_spec 0 n) as [Hpos|Hneg]; [|mrun; lengths].
  unfold bind at 1. unfold lift at 1.
  destruct (load_payload _ _ _) as [[[ok alloc] f']| | | |]; try lengths.
  unfold bind at 1. unfold store at 1. cbn [fst snd].
  destruct (negb ok); [mrun; lengths|].
  destruct (negb _); [|mrun; lengths].
  unfold bind at 1. unfold lift at 1. unfold load_compressed. cbn [len data].
  destruct onDemandUncompress.
  - mrun. lengths.
  - destruct (mem_take _ _); [|lengths]. destruct (gzdecode _) as [u|]; [|lengths].
    mrun. lengths.
Qed.

Lemma load_loop_lengths filename onDemandUncompress version fuel :
  ∀ f w fc,
    lengths_ok fc →
    lengths_ok (load_loop fuel filename onDemandUncompress version f w fc).2.
Proof.
  induction fuel as [|fuel IH]; intros f w fc Hfc; [done|].
  cbn [load_loop]. unfold bind.
  pose proof (load_record_lengths filename onDemandUncompress version f w fc Hfc)
    as Hr.
  destruct (load_record _ _ _ _ _ _) as [[o w'] fc']. cbn [fst snd] in *.
  destruct o as [[f'|]| | | |]; try done. by apply IH.
Qed.

(** Whatever the bytes of the file, [load] leaves a table in which raw
    data has a length that is not negative and compressed forms have a
    positive one. *)
Lemma load_lengths filename onDemandUncompress version w fc :
  lengths_ok fc →
  lengths_ok (load filename onDemandUncompress version w fc).2.
Proof.
  intros Hfc. unfold load. mrun. destruct (nonempty filename); [|done].
  destruct (UseNewCache w); [done|].
  destruct (disk w !! c_str filename) as [content|]; [|done].
  by apply load_loop_lengths.
Qed.

Lemma loadMmap_record_lengths filename region p w fc :
  0 ≤ p → lengths_ok fc →
  lengths_ok (loadMmap_record filename region (Z.of_nat (length region)) p w fc).2.
Proof.
  intros Hp Hfc. rewrite loadMmap_record_plan_eq by done.
  unfold loadMmap_record_plan. cbv zeta.
  repeat match goal with
         | |- context [if ?b then _ else _] => destruct b eqn:?; try done
         end.
  all: repeat match goal with
         | H : (_ <=? _) = false |- _ => apply Z.leb_gt in H
         end.
  all: try lengths.
  all: destruct (region !! _) as [b|]; [destruct (bool_decide (b = x00))|].
  all: lengths.
Qed.

Lemma loadMmap_loop_lengths filename region fuel :
  ∀ p w fc,
    0 ≤ p → lengths_ok fc →
    lengths_ok (loadMmap_loop fuel filename region (Z.of_nat (length region))
                  p w fc).2.
Proof.
  induction fuel as [|fuel IH]; intros p w fc Hp Hfc; [done|].
  cbn [loadMmap_loop]. destruct (p <? Z.of_nat (length region)); [|done].
  unfold bind.
  pose proof (loadMmap_record_lengths filename region p w fc Hp Hfc) as Hr.
  pose proof (loadMmap_record_plan_defined filename region p w fc Hp)
    as (_ & Hnext & _).
  rewrite <- loadMmap_record_plan_eq in Hnext by done.
  destruct (loadMmap_record _ _ _ _ _ _) as [[o w'] fc']. cbn [fst snd] in *.
  destruct o as [p'| | | |]; try done.
  specialize (Hnext p' eq_refl). apply IH; [lia|done].
Qed.

Lemma loadMmap_lengths filename version w fc :
  UseNewCache w = false → isNewCache (disk w !! c_str filename) = false →
  lengths_ok fc →
  lengths_ok (loadMmap filename version w fc).2.
Proof.
  intros Hw Hnew Hfc. unfold loadMmap, loadMmap_parse. mrun.
  destruct (nonempty filename); [|done]. rewrite Hnew, Hw.
  destruct (0 <? version); [|done].
  destruct (disk w !! c_str filename) as [content|]; [|done].
  cbv zeta. destruct (Z.of_nat (length content) =? 0); [done|].
  pose proof (loadMmap_loop_lengths filename content (S (length content)) 4 w
                (with_mapping fc opened_fd (Z.of_nat (length content)) (Some content))
                ltac:(lia) Hfc) as Hl.
  destruct (loadMmap_loop _ _ _ _ _ _ _) as [[o w'] fc']. cbn [fst snd] in *.
  destruct o; try done.
  unfold adviseOutMemory. mrun. by destruct (UseNewCache w').
Qed.

End LengthFacts.

(** ** Why the round trip needs its bounds *)

Section Bounds.
Import Toy Sample.

(** A path of 65537 characters is written under a name length of 1: its
    record is the record of the path ["a"]. *)
Lemma save_record_wraps_name_length :
  ssize long_path = 65537
  ∧ save_record (long_path, php_file)
    = (record_bytes 1 {| rec_name := "a"; rec_flag := x00; rec_len := -1;
                         rec_payload := [] |}, Ok tt).
Proof. split; by vm_compute. Qed.

(** A payload length of 2^31 - 1 leaves no room for the terminator in an
    [int]. *)
Lemma load_payload_overflows version f :
  load_payload version f 2147483647 = Undefined.
Proof. reflexivity. Qed.

End Bounds.

(** * Further properties of the code *)

(** ** The helper that reads from a stream *)

Section StreamContract.

(** X1: [read_bytes(f, buf, len)] answers true exactly when [len] is
    positive and that many bytes remain.  The bytes it stores and the
    bytes it leaves are the stream it was given; a full read leaves the
    end-of-file indicator as it was, a short one takes what remains and
    sets it, and a read of no bytes answers false. *)
Theorem read_bytes_full_or_exhausted f n :
  let r := read_bytes f n in
  r.1.1 = bool_decide (0 < n ≤ length (f_rest f))%nat
  ∧ r.1.2 ++ f_rest r.2 = f_rest f
  ∧ length r.1.2 = (n `min` length (f_rest f))%nat
  ∧ (r.1.1 = true → f_eof r.2 = f_eof f)
  ∧ ((length (f_rest f) < n)%nat → f_rest r.2 = [] ∧ f_eof r.2 = true)
  ∧ (n = 0%nat → r = (false, [], f)).
Proof.
  cbv zeta. rewrite read_bytes_spec. cbn [fst snd f_rest f_eof].
  split; [done|]. split; [apply take_drop|].
  split; [by rewrite length_take|].
  split; [|split].
  - intros [_ Hle]%bool_decide_eq_true.
    destruct (Nat.ltb_spec (length (f_rest f)) n); [lia|]. apply orb_false_r.
  - intros Hlt. split; [apply drop_ge; lia|].
    destruct (Nat.ltb_spec (length (f_rest f)) n); [|lia]. apply orb_true_r.
  - intros ->. rewrite bool_decide_false by lia. rewrite take_0, drop_0.
    cbn. rewrite orb_false_r. by destruct f.
Qed.

End StreamContract.

(** ** Entries the builder has registered *)

Section RegisteredEntries.
Context `{E : Externals}.

Lemma lookup_registered name b (m D : gmap string Buffer) :
  (<[c_str name := b]> m ∪ D) !! c_str name = Some b.
Proof. apply lookup_union_Some_l, lookup_insert_eq. Qed.

Lemma lookup_registered_old name b (m D : gmap string Buffer) k x :
  m !! c_str name = None → m !! k = Some x →
  (<[c_str name := b]> m ∪ D) !! k = Some x.
Proof.
  intros Hnone Hk. apply lookup_union_Some_l.
  rewrite lookup_insert_ne; [done|]. intros <-. congruence.
Qed.

Lemma absent_lookup w fc name :
  UseNewCache w = false → nonempty name = true →
  exists_ w fc name true = false → m_files fc !! c_str name = None.
Proof.
  intros Hw Hn. rewrite exists_found by done. unfold find.
  intros H%bool_decide_eq_false. by apply eq_None_not_Some.
Qed.

Lemma dir_entries_lookup_Some sname l i :
  i ∈ l → char_is sname i "/" = true →
  dir_entries sname l !! String.substring 0 i sname = Some directory.
Proof.
  intros Hi Hc. induction l as [|j l IH]; [by apply elem_of_nil in Hi|].
  cbn [dir_entries].
  destruct (decide (String.substring 0 j sname = String.substring 0 i sname))
    as [Heq|Hne].
  - destruct (char_is sname j "/") eqn:Hj.
    + rewrite Heq. apply lookup_insert_eq.
    + apply elem_of_cons in Hi as [->|Hi]; [congruence|]. by apply IH.
  - apply elem_of_cons in Hi as [->|Hi]; [done|].
    destruct (char_is sname j "/"); [rewrite lookup_insert_ne by done|]; by apply IH.
Qed.

Lemma dir_entries_lookup_slash sname l k b :
  dir_entries sname l !! k = Some b →
  b = directory
  ∧ ∃ i, i ∈ l ∧ char_is sname i "/" = true ∧ k = String.substring 0 i sname.
Proof.
  induction l as [|j l IH]; cbn [dir_entries]; [by rewrite lookup_empty|].
  destruct (char_is sname j "/") eqn:Hj.
  - destruct (decide (String.substring 0 j sname = k)) as [<-|Hne].
    + rewrite lookup_insert_eq. intros [= <-]. split; [done|].
      exists j. split; [by left|done].
    + rewrite lookup_insert_ne by done. intros (-> & i & Hi & Hc & ->)%IH.
      split; [done|]. exists i. split; [by right|done].
  - intros (-> & i & Hi & Hc & ->)%IH.
    split; [done|]. exists i. split; [by right|done].
Qed.

(** X2: a placeholder that [write(name, addDirectories)] has registered
    (the path is not empty and was absent) is a file and not a
    directory; its size is unknown (-1), [read] hands out null with the
    length -1 and the flag cleared, and every entry that was in the table
    is still there, unchanged. *)
Theorem write_then_queries name addDirectories w fc :
  UseNewCache w = false →
  nonempty name = true →
  exists_ w fc name true = false →
  let r := write name addDirectories w fc in
  r.1.1 = Ok tt
  ∧ exists_ w r.2 name true = true
  ∧ fileExists w r.2 name true = true
  ∧ dirExists w r.2 name true = false
  ∧ fileSize w r.2 name true = Ok (-1)
  ∧ (∀ len0 compressed,
       read w r.2 name len0 compressed = Ok (mkRead None (-1) false))
  ∧ (∀ k b, m_files fc !! k = Some b → m_files r.2 !! k = Some b).
Proof.
  intros Hw Hn Hex. cbv zeta. rewrite write_spec by done.
  cbn [fst snd]. split; [done|].
  pose proof (absent_lookup _ _ _ Hw Hn Hex) as Hnone.
  set (D := if addDirectories then _ else _).
  assert (Hfind : ∀ fc0, find (with_files fc0 (<[c_str name := php_file]> (m_files fc) ∪ D))
                    name = Some php_file).
  { intros fc0. unfold find. cbn [m_files with_files]. apply lookup_registered. }
  repeat split.
  - rewrite exists_found by done. rewrite Hfind. by apply bool_decide_eq_true_2.
  - unfold fileExists, fileExists_relative. by rewrite Hw, Hn, Hfind.
  - unfold dirExists, dirExists_relative. by rewrite Hw, Hn, Hfind.
  - unfold fileSize, fileSize_relative. by rewrite Hw, Hn, Hfind.
  - intros len0 compressed. rewrite read_found by done. rewrite Hfind.
    by destruct compressed.
  - intros k b Hk. cbn [m_files with_files]. by apply lookup_registered_old.
Qed.

(** X3: a file that [write(name, fullpath)] has registered (the path was
    absent, the file is on the disk and shorter than 2^31 bytes) is read
    back as it is on the disk: [fileSize] is its size, [read] without the
    compressed flag hands out its bytes, and [read] with the flag hands
    out either those bytes with the flag cleared or the output of the
    codec with the flag set.  Every entry that was in the table is still
    there, unchanged. *)
Theorem write_file_then_read name fullpath content w fc :
  UseNewCache w = false →
  nonempty name = true → nonempty fullpath = true →
  exists_ w fc name true = false →
  disk w !! c_str fullpath = Some content →
  Z.of_nat (length content) < 2147483648 →
  let r := write_file name fullpath w fc in
  let size := Z.of_nat (length content) in
  r.1.1 = Ok tt
  ∧ fileExists w r.2 name true = true
  ∧ dirExists w r.2 name true = false
  ∧ fileSize w r.2 name true = Ok size
  ∧ (∀ len0, read_view w r.2 name len0 false = Ok (Some content, size, false))
  ∧ (∀ len0 res, read w r.2 name len0 true = Ok res →
       view res = (Some content, size, false)
       ∨ (r_compressed res = true ∧ r_ptr res = gzencode content
          ∧ ∃ c, r_ptr res = Some c ∧ r_len res = Z.of_nat (length c)))
  ∧ (∀ k b, m_files fc !! k = Some b → m_files r.2 !! k = Some b).
Proof.
  intros Hw Hn Hfp Hex Hd Hlen. cbv zeta.
  rewrite (write_file_spec _ _ content) by done.
  cbn [fst snd]. split; [done|].
  pose proof (absent_lookup _ _ _ Hw Hn Hex) as Hnone.
  set (D := dir_entries _ _).
  set (b := file_buffer name content).
  assert (Hfind : find (with_files fc (<[c_str name := b]> (m_files fc) ∪ D)) name
                  = Some b).
  { unfold find. cbn [m_files with_files]. apply lookup_registered. }
  assert (Hlenb : len b = Z.of_nat (length content)) by apply len_file_buffer.
  assert (Hc : ∀ c, cdata b = Some c →
             gzencode content = Some c ∧ clen b = Z.of_nat (length c)).
  { intros c. subst b. unfold file_buffer.
    repeat case_match; cbn [cdata data clen]; intros; simplify_eq; done. }
  assert (Hdata : data b = if decide (content = []) then None else Some content).
  { case_decide as Hnil.
    - subst b. rewrite Hnil. unfold file_buffer. by cbn.
    - subst b. by apply data_file_buffer. }
  assert (Hnil : content = [] → cdata b = None).
  { intros ->. subst b. unfold file_buffer. by cbn. }
  assert (Hview : ∀ d, data b = Some d →
            view (mkRead (Some d) (len b) false)
            = (Some content, Z.of_nat (length content), false)).
  { intros d Hd'. rewrite Hdata in Hd'. case_decide; [done|]. simplify_eq.
    unfold view. cbn [r_ptr r_len r_compressed fmap option_fmap option_map].
    rewrite Hlenb, Nat2Z.id. by rewrite firstn_all. }
  assert (Hzero : len b = 0 ↔ content = []).
  { rewrite Hlenb. destruct content; cbn; [done|]. split; [lia|done]. }
  split; [|split; [|split; [|split; [|split]]]].
  - unfold fileExists, fileExists_relative. rewrite Hw, Hn, Hfind, Hlenb.
    apply Z.leb_le. lia.
  - unfold dirExists, dirExists_relative. rewrite Hw, Hn, Hfind, Hlenb.
    apply Z.eqb_neq. lia.
  - unfold fileSize, fileSize_relative. rewrite Hw, Hn, Hfind, Hlenb. cbn [negb].
    destruct (Z.leb_spec 0 (Z.of_nat (length content))); [done|lia].
  - intros len0. unfold read_view. rewrite read_found by done. rewrite Hfind.
    cbn [andb negb].
    destruct (decide (content = [])) as [Hempty|Hfull].
    + rewrite (Hnil Hempty).
      rewrite (bool_decide_false (is_Some None)) by (by apply is_Some_None).
      rewrite andb_false_r. rewrite (proj2 Hzero Hempty). cbn [Z.eqb].
      rewrite Hdata. rewrite bool_decide_true by done.
      by rewrite Hempty.
    + rewrite Hdata.
      rewrite (bool_decide_false (Some content = None)) by done. cbn [andb].
      destruct (Z.eqb_spec (len b) 0) as [H0|H0]; [by apply Hzero in H0|].
      cbn [outcome_map]. rewrite Hview; [done|]. exact Hdata.
  - intros len0 res. rewrite read_found by done. rewrite Hfind.
    cbn [andb negb].
    destruct (cdata b) as [c|] eqn:Hcd.
    + destruct (Hc c eq_refl) as (Henc & Hclen).
      rewrite bool_decide_true by done.
      destruct (0 <? clen b); [|done]. intros [= <-]. right.
      cbn [r_compressed r_ptr r_len]. split; [done|]. split; [done|].
      exists c. done.
    + rewrite (bool_decide_false (is_Some None)) by (by apply is_Some_None).
      destruct (decide (content = [])) as [Hempty|Hfull].
      * rewrite (proj2 Hzero Hempty). cbn [Z.eqb].
        rewrite Hdata. rewrite bool_decide_true by done.
        intros [= <-]. left. by rewrite Hempty.
      * destruct (Z.eqb_spec (len b) 0) as [H0|H0]; [by apply Hzero in H0|].
        intros [= <-]. left. rewrite Hdata.
        apply Hview. exact Hdata.
  - intros k x Hk. cbn [m_files with_files]. by apply lookup_registered_old.
Qed.

(** X4: [writeDirectories(name)] on a path that is not empty and shorter
    than 2^31 characters registers every prefix of the path that ends
    before a slash at an index from 1 on: afterwards each of them exists,
    the ones that were absent are directories, every entry that was in
    the table is unchanged, and nothing else has been added (neither the
    empty prefix before a leading slash nor the path itself). *)
Theorem writeDirectories_registers_ancestors name w fc :
  UseNewCache w = false →
  nonempty name = true →
  ssize (c_str name) < 2147483648 →
  let r := writeDirectories name w fc in
  let prefix i := String.substring 0 i (c_str name) in
  r.1.1 = Ok tt
  ∧ (∀ i, (1 ≤ i < String.length (c_str name))%nat →
       String.get i (c_str name) = Some "/"%char →
       exists_ w r.2 (prefix i) true = true
       ∧ (exists_ w fc (prefix i) true = false →
          dirExists w r.2 (prefix i) true = true))
  ∧ (∀ k b, m_files fc !! k = Some b → m_files r.2 !! k = Some b)
  ∧ (∀ k b, m_files r.2 !! k = Some b → m_files fc !! k = None →
       b = directory
       ∧ ∃ i, (1 ≤ i < String.length (c_str name))%nat
              ∧ String.get i (c_str name) = Some "/"%char ∧ k = prefix i).
Proof.
  intros Hw Hn Hsize. cbv zeta. rewrite writeDirectories_spec by done.
  cbn [fst snd m_files with_files]. split; [done|].
  assert (Hidx : ∀ i, i ∈ dir_indices name ↔ (1 ≤ i < String.length (c_str name))%nat).
  { intros i. unfold dir_indices. rewrite to_int_small by (unfold ssize in *; lia).
    unfold ssize. rewrite Nat2Z.id. rewrite list_elem_of_In, in_seq. lia. }
  assert (Hch : ∀ i, char_is (c_str name) i "/" = true
                     ↔ String.get i (c_str name) = Some "/"%char).
  { intros i. unfold char_is. destruct (String.get i (c_str name)) as [c|]; [|done].
    rewrite Ascii.eqb_eq. split; congruence. }
  split; [|split].
  - intros i Hi Hc.
    assert (Hin : dir_entries (c_str name) (dir_indices name)
                    !! String.substring 0 i (c_str name) = Some directory).
    { apply dir_entries_lookup_Some; [by apply Hidx|by apply Hch]. }
    assert (Hne : nonempty (String.substring 0 i (c_str name)) = true).
    { apply nonempty_substring_prefix; [done|lia]. }
    assert (Hcs := c_str_substring_prefix name i).
    split.
    + rewrite exists_lookup by done. cbn [m_files with_files].
      apply bool_decide_eq_true_2. rewrite lookup_union.
      rewrite Hin. destruct (m_files fc !! _); by eexists.
    + rewrite exists_lookup by done. intros Hno%bool_decide_eq_false.
      apply eq_None_not_Some in Hno.
      rewrite dirExists_lookup by done. cbn [m_files with_files].
      rewrite lookup_union, Hno, Hin. done.
  - intros k b Hk. by apply lookup_union_Some_l.
  - intros k b Hk Hnone. rewrite lookup_union, Hnone in Hk.
    rewrite (left_id None _) in Hk.
    apply dir_entries_lookup_slash in Hk as (-> & i & Hi & Hc & ->).
    split; [done|]. exists i. split; [by apply Hidx|]. split; [by apply Hch|done].
Qed.

End RegisteredEntries.

(** ** What a build leaves in the table *)

Section BuiltTables.
Context `{E : Externals}.

(** X5: after a build that succeeds (files shorter than 2^31 bytes),
    every path that exists is either a file or a directory, never both
    and never neither, whether it is asked for by its relative or by its
    absolute name. *)
Theorem built_paths_are_files_or_directories script w0 w fc name isRelative :
  UseNewCache w0 = false → small_files (disk w0) →
  build script w0 new_FileCache = (Ok tt, w, fc) →
  exists_ w fc name isRelative
  = xorb (fileExists w fc name isRelative) (dirExists w fc name isRelative).
Proof.
  intros Hw Hsmall Hb.
  destruct (build_built script w0 new_FileCache Hw Hsmall) as [Hw' Hbuilt].
  { by rewrite Hb. }
  { cbn. apply map_Forall_empty. }
  rewrite Hb in Hw', Hbuilt. cbn [fst snd] in Hw', Hbuilt. subst w.
  assert (Hrel : ∀ n, exists_relative w0 fc n
                      = xorb (fileExists_relative w0 fc n) (dirExists_relative w0 fc n)).
  { intros n. unfold exists_relative, fileExists_relative, dirExists_relative.
    rewrite Hw. destruct (nonempty n); [|done]. unfold find.
    destruct (m_files fc !! c_str n) as [b|] eqn:Hk.
    2:{ rewrite bool_decide_false; [done|]. by apply is_Some_None. }
    rewrite bool_decide_true by done.
    destruct (Hbuilt _ _ Hk) as (_ & _ & [->|[->|(nm & content & _ & ->)]]);
      [done|done|].
    rewrite len_file_buffer.
    destruct (Z.leb_spec (-1) (Z.of_nat (length content))); [|lia].
    destruct (Z.eqb_spec (Z.of_nat (length content)) (-2)); [lia|done]. }
  unfold exists_, fileExists, dirExists. destruct isRelative; apply Hrel.
Qed.

End BuiltTables.

(** ** The header of an archive *)

Section Headers.
Context `{E : Externals}.

Lemma archive_header_bytes : archive_header = [xff; xff; x01; x00].
Proof. by vm_compute. Qed.

Lemma save_writes filename w fc :
  UseNewCache w = false → nonempty filename = true →
  can_create (c_str filename) = true →
  (save filename w fc).1.1 = Ok tt →
  (save filename w fc).1.2
  = with_disk w (<[c_str filename :=
                    archive_header ++ (save_records (map_to_list (m_files fc))).1]>
                   (disk w)).
Proof.
  intros Hw Hn Hc. unfold save. mrun. rewrite Hn, Hw, Hc. cbn [negb]. cbv zeta.
  destruct (save_records _) as [out o]. cbn [fst snd].
  by destruct o as [[]| | | |].
Qed.

(** X6: the file a run of [save] that returns has written (in the old
    format) is one [getVersion] reads the current version from, whatever
    the table holds. *)
Theorem save_then_getVersion filename w fc fc' :
  UseNewCache w = false → nonempty filename = true →
  can_create (c_str filename) = true →
  (save filename w fc).1.1 = Ok tt →
  isNewCache (disk (save filename w fc).1.2 !! c_str filename) = false →
  (getVersion filename (save filename w fc).1.2 fc').1.1
  = Ok kCurrentFileCacheVersion.
Proof.
  intros Hw Hn Hc Hok. rewrite save_writes by done.
  cbn [disk with_disk]. rewrite lookup_insert_eq. intros Hnew.
  unfold getVersion. mrun. rewrite Hn. cbn [disk with_disk].
  rewrite lookup_insert_eq, Hnew.
  rewrite archive_header_bytes. rewrite !read_bytes_spec.
  cbn [fst snd fopen_r f_rest f_eof app length take drop].
  rewrite !bool_decide_true by (cbn; lia). by vm_compute.
Qed.

(** X7: on a file that is not in the alternate format [getVersion]
    returns, and leaves everything as it was.  A file that ends inside
    the header, with fewer than four bytes, is answered with a negative
    number; a positive answer is given only for a file that holds the
    whole header, with a first field that is not positive, and it is the
    second field. *)
Theorem getVersion_positive_needs_header w fc filename content :
  nonempty filename = true →
  isNewCache (Some content) = false →
  disk w !! c_str filename = Some content →
  ∃ v,
    getVersion filename w fc = (Ok v, w, fc)
    ∧ ((length content < 4)%nat → v < 0)
    ∧ (0 < v →
       ∃ b0 b1 b2 b3 rest,
         content = b0 :: b1 :: b2 :: b3 :: rest
         ∧ bytes_short [b0; b1] ≤ 0 ∧ v = bytes_short [b2; b3]).
Proof.
  intros Hn Hnew Hd. unfold getVersion. mrun. rewrite Hn, Hd, Hnew.
  rewrite !read_bytes_spec. cbn [fst snd fopen_r f_rest f_eof].
  destruct content as [|b0 [|b1 [|b2 [|b3 rest]]]].
  - cbn. eexists. split; [done|]. split; lia.
  - cbn. eexists. split; [done|]. split; lia.
  - rewrite bool_decide_true by (cbn; lia).
    cbn [take drop overlay length app negb orb short_bytes le_bytes].
    change (bytes_short [byte_of_Z (-1); byte_of_Z ((-1) `div` 256)]) with (-1).
    destruct (0 <? _); (eexists; split; [done|]); split; cbn [length]; lia.
  - rewrite bool_decide_true by (cbn; lia).
    cbn [take drop overlay length app negb orb short_bytes le_bytes].
    assert (Hneg : bytes_short [b2; byte_of_Z ((-1) `div` 256)] < 0).
    { clear. destruct b2; by vm_compute. }
    destruct (0 <? _); (eexists; split; [done|]); split; cbn [length]; lia.
  - rewrite bool_decide_true by (cbn; lia).
    cbn [take drop overlay length app negb orb short_bytes le_bytes].
    rewrite take_0. cbn [app length drop].
    destruct (Z.ltb_spec 0 (bytes_short [b0; b1]));
      (eexists; split; [done|]); (split; [cbn [length]; lia|]).
    + lia.
    + intros _. by exists b0, b1, b2, b3, rest.
Qed.

End Headers.

(** ** The alternate backend *)

Section AlternateBackend.
Context `{E : Externals}.

(** X8: with [UseNewCache] set, no operation touches the table, the
    descriptor or the mapping of the instance: everything goes to the
    cache manager, [load] refuses to run, and the flag stays set. *)
Theorem new_cache_mode_bypasses_table op w fc :
  UseNewCache w = true →
  let r := call op w fc in
  m_files r.2 = m_files fc
  ∧ m_fd r.2 = m_fd fc ∧ m_size r.2 = m_size fc ∧ m_addr r.2 = m_addr fc
  ∧ UseNewCache r.1.2 = true
  ∧ (∀ filename onDemandUncompress version,
       op = CallLoad filename onDemandUncompress version →
       r.1.1 = Throw NonMmapNotSupported ∨ r.1.1 = Abort).
Proof.
  intros Hw. cbv zeta.
  destruct op; cbn [call];
    unfold write, write_file, save, getVersion, load, loadMmap, loadMmap_parse,
      adviseOutMemory, const_method.
  all: repeat first
         [ progress mrun
         | progress cbn [fst snd m_files m_fd m_size m_addr with_manager UseNewCache
                         with_UseNewCache with_disk]
         | rewrite Hw
         | match goal with
           | |- context [if ?b then _ else _] => destruct b
           end
         | match goal with
           | |- context [match ?x with _ => _ end] =>
               lazymatch type of x with
               | prod _ _ => fail
               | _ => destruct x
               end
           end ].
  all: repeat split; try done.
  all: intros; simplify_eq; auto.
Qed.

End AlternateBackend.

(** ** The loader into owned buffers, on any file *)

Section OwnedAnyFile.
Context `{E : Externals}.

Lemma exists_world w w' fc name :
  UseNewCache w = UseNewCache w' →
  exists_ w fc name true = exists_ w' fc name true.
Proof. intros Hw. unfold exists_, exists_relative. by rewrite Hw. Qed.

Lemma load_record_world filename onDemandUncompress version f w w' fc :
  UseNewCache w = UseNewCache w' →
  (load_record filename onDemandUncompress version f w fc).1.1
  = (load_record filename onDemandUncompress version f w' fc).1.1
  ∧ (load_record filename onDemandUncompress version f w fc).2
    = (load_record filename onDemandUncompress version f w' fc).2.
Proof.
  intros Hw. unfold load_record.
  repeat first
    [ progress mrun
    | progress cbn [fst snd]
    | rewrite (exists_world w w') by done
    | match goal with
      | |- context [if ?b then _ else _] => destruct b
      end
    | match goal with
      | |- context [match ?x with _ => _ end] =>
          lazymatch type of x with
          | prod _ _ => fail
          | _ => destruct x
          end
      end ]; done.
Qed.

Lemma load_loop_world fuel filename onDemandUncompress version :
  ∀ f w w' fc,
    UseNewCache w = UseNewCache w' →
    (load_loop fuel filename onDemandUncompress version f w fc).1.1
    = (load_loop fuel filename onDemandUncompress version f w' fc).1.1
    ∧ (load_loop fuel filename onDemandUncompress version f w fc).2
      = (load_loop fuel filename onDemandUncompress version f w' fc).2.
Proof.
  induction fuel as [|fuel IH]; intros f w w' fc Hw; [done|].
  cbn [load_loop]. unfold bind.
  pose proof (load_record_world filename onDemandUncompress version f w w' fc Hw)
    as [Ho Hfc].
  pose proof (unchanged_load_record filename onDemandUncompress version f w fc) as H1.
  pose proof (unchanged_load_record filename onDemandUncompress version f w' fc) as H2.
  destruct (load_record _ _ _ f w fc) as [[o1 w1] fc1].
  destruct (load_record _ _ _ f w' fc) as [[o2 w2] fc2].
  cbn [fst snd] in *. subst.
  destruct o2 as [[f'|]| | | |]; try done.
  by apply IH.
Qed.

(** X9: with a version above zero [load] steps over the first four
    bytes of the file without looking at them: two archives that differ
    only there load to the same outcome and the same table. *)
Theorem load_ignores_header filename onDemandUncompress version
    h1 h2 body w1 w2 fc :
  0 < version →
  length h1 = 4%nat → length h2 = 4%nat →
  UseNewCache w1 = UseNewCache w2 →
  disk w1 !! c_str filename = Some (h1 ++ body) →
  disk w2 !! c_str filename = Some (h2 ++ body) →
  (load filename onDemandUncompress version w1 fc).1.1
  = (load filename onDemandUncompress version w2 fc).1.1
  ∧ (load filename onDemandUncompress version w1 fc).2
    = (load filename onDemandUncompress version w2 fc).2.
Proof.
  intros Hv Hh1 Hh2 Hw Hd1 Hd2.
  assert (Hskip : ∀ h, length h = 4%nat →
            (read_bytes (read_bytes (fopen_r (h ++ body)) 2).2 2).2
            = {| f_rest := body; f_eof := false |}).
  { intros h Hh. by destruct h as [|a [|b [|c [|d [|]]]]]. }
  unfold load. mrun.
  destruct (nonempty filename); [|done]. rewrite <- Hw.
  destruct (UseNewCache w1) eqn:Hw1; [done|].
  rewrite Hd1, Hd2. destruct (Z.ltb_spec 0 version); [|lia].
  rewrite !Hskip by done. rewrite !length_app, Hh1, Hh2.
  apply load_loop_world. congruence.
Qed.

Lemma load_record_short filename onDemandUncompress version f w fc :
  (length (f_rest f) < 2)%nat →
  load_record filename onDemandUncompress version f w fc = (Ok Break, w, fc).
Proof.
  intros Hlen. unfold load_record. rewrite read_bytes_spec.
  cbn [fst snd f_eof f_rest]. rewrite bool_decide_false by lia.
  cbn [negb orb]. destruct (Nat.ltb_spec (length (f_rest f)) 2); [|lia].
  by rewrite orb_true_r.
Qed.

Lemma load_loop_records_tail filename onDemandUncompress version tail rs :
  ∀ fuel f w fc,
    UseNewCache w = false → Forall record_ok rs →
    (length tail < 2)%nat →
    f_rest f = concat (map (record_bytes version) rs) ++ tail →
    (length rs < fuel)%nat →
    match (load_records filename onDemandUncompress rs (m_files fc)).1 with
    | Ok _ =>
        load_loop fuel filename onDemandUncompress version f w fc
        = (Ok tt, w,
           with_files fc (load_records filename onDemandUncompress rs (m_files fc)).2)
    | o => (load_loop fuel filename onDemandUncompress version f w fc).1.1 = o
    end.
Proof.
  induction rs as [|r rs IH]; intros fuel f w fc Hw Hok Htail Hf Hfuel.
  - destruct fuel as [|fuel]; [cbn in Hfuel; lia|].
    cbn in Hf.
    cbn [load_loop load_records fst snd]. unfold bind.
    rewrite load_record_short by (rewrite Hf; lia).
    unfold ret. rewrite with_files_id. done.
  - destruct fuel as [|fuel]; [cbn in Hfuel; lia|].
    apply Forall_cons in Hok as [Hr Hok]. cbn [map concat] in Hf.
    rewrite <- app_assoc in Hf.
    cbn [load_loop load_records].
    case_bool_decide as Hin.
    + cbn [fst]. unfold bind.
      rewrite (load_record_duplicate _ _ _ _ _ _ _ _ Hw Hr Hf Hin). done.
    + assert (m_files fc !! rec_name r = None) as Hnone
        by (by apply eq_None_not_Some).
      pose proof (load_record_step filename onDemandUncompress version f r _ w fc
                    Hw Hr Hf Hnone) as Hstep.
      cbv zeta in Hstep.
      destruct (record_buffer filename onDemandUncompress r) as [b| e | | |].
      * pose proof (IH fuel {| f_rest := concat (map (record_bytes version) rs) ++ tail;
                                f_eof := f_eof f |} w
                      (with_files fc (<[rec_name r := b]> (m_files fc)))
                      Hw Hok Htail eq_refl ltac:(cbn in Hfuel; lia)) as IH'.
        cbn [m_files with_files] in IH'. unfold bind. rewrite Hstep.
        destruct (load_records filename onDemandUncompress rs _).1; apply IH'.
      * destruct Hstep as [Ho _]. cbn [fst]. unfold bind.
        destruct (load_record _ _ _ _ _ _) as [[o w'] fc']. cbn in Ho. by subst o.
      * destruct Hstep as [Ho _]. cbn [fst]. unfold bind.
        destruct (load_record _ _ _ _ _ _) as [[o w'] fc']. cbn in Ho. by subst o.
      * destruct Hstep as [Ho _]. cbn [fst]. unfold bind.
        destruct (load_record _ _ _ _ _ _) as [[o w'] fc']. cbn in Ho. by subst o.
      * destruct Hstep as [Ho _]. cbn [fst]. unfold bind.
        destruct (load_record _ _ _ _ _ _) as [[o w'] fc']. cbn in Ho. by subst o.
Qed.

Lemma load_archive_tail filename onDemandUncompress version rs tail w fc :
  UseNewCache w = false → nonempty filename = true →
  Forall record_ok rs → (length tail < 2)%nat →
  disk w !! c_str filename = Some (archive_bytes version rs ++ tail) →
  match (load_records filename onDemandUncompress rs (m_files fc)).1 with
  | Ok _ =>
      load filename onDemandUncompress version w fc
      = (Ok tt, w,
         with_files fc (load_records filename onDemandUncompress rs (m_files fc)).2)
  | o => (load filename onDemandUncompress version w fc).1.1 = o
  end.
Proof.
  intros Hw Hn Hok Htail Hd.
  assert (load filename onDemandUncompress version w fc
          = load_loop (S (length (archive_bytes version rs ++ tail))) filename
              onDemandUncompress version
              {| f_rest := concat (map (record_bytes version) rs) ++ tail;
                 f_eof := false |}
              w fc) as ->.
  { unfold load. mrun. rewrite Hn, Hw, Hd. f_equal.
    unfold archive_bytes, header_bytes.
    destruct (0 <? version); [|done].
    rewrite <- !app_assoc.
    rewrite (read_bytes_app (fopen_r _) (short_bytes (-1)) _ 2 eq_refl
               (length_short_bytes _)) by lia.
    cbn [fst snd].
    rewrite (read_bytes_app {| f_rest := _ |} (short_bytes version) _ 2 eq_refl
               (length_short_bytes _)) by lia.
    done. }
  apply (load_loop_records_tail _ _ _ tail); [done|done|done|done|].
  unfold archive_bytes. rewrite !length_app.
  pose proof (length_concat_records version rs). lia.
Qed.

(** X10: [load] reads records until fewer than two bytes are left, and
    what is left then is dropped without a word: an archive followed by
    one stray byte loads to the same outcome, and when that is success
    to the same table, as the archive alone. *)
Theorem load_ignores_trailing_byte filename onDemandUncompress version
    rs b w w' fc :
  UseNewCache w = false → UseNewCache w' = false →
  nonempty filename = true →
  Forall record_ok rs →
  disk w !! c_str filename = Some (archive_bytes version rs) →
  disk w' !! c_str filename = Some (archive_bytes version rs ++ [b]) →
  (load filename onDemandUncompress version w' fc).1.1
  = (load filename onDemandUncompress version w fc).1.1
  ∧ ((load filename onDemandUncompress version w fc).1.1 = Ok tt →
     (load filename onDemandUncompress version w' fc).2
     = (load filename onDemandUncompress version w fc).2).
Proof.
  intros Hw Hw' Hn Hok Hd Hd'.
  pose proof (load_archive filename onDemandUncompress version rs w fc
                Hw Hn Hok Hd) as H1.
  pose proof (load_archive_tail filename onDemandUncompress version rs [b] w' fc
                Hw' Hn Hok ltac:(cbn; lia) Hd') as H2.
  destruct (load_records filename onDemandUncompress rs (m_files fc)).1
    as [[]| | | |] eqn:Hr.
  - rewrite H1, H2. done.
  - rewrite H1, H2. done.
  - rewrite H1, H2. done.
  - rewrite H1, H2. done.
  - rewrite H1, H2. done.
Qed.

(** X11: [load] comes to an end on every file: a turn of its loop that
    does not end it has taken at least two bytes off the stream, and the
    file has no more turns in it than bytes. *)
Theorem load_terminates filename onDemandUncompress version w fc :
  (∀ f w1 fc1 f',
     (load_record filename onDemandUncompress version f w1 fc1).1.1 = Ok (Next f') →
     (length (f_rest f') + 2 ≤ length (f_rest f))%nat)
  ∧ match (load filename onDemandUncompress version w fc).1.1 with
    | OutOfFuel => False
    | _ => True
    end.
Proof.
  split.
  - intros f w1 fc1 f' Hr.
    pose proof (load_record_progress filename onDemandUncompress version f w1 fc1) as H.
    by rewrite Hr in H.
  - pose proof (load_has_fuel filename onDemandUncompress version w fc) as H.
    by destruct (load _ _ _ _ _).1.1.
Qed.

End OwnedAnyFile.

(** ** The mapped loader, on an archive with a stray byte *)

Section MappedTrailing.
Context `{E : Externals}.

Lemma loadMmap_records_dom filename rs :
  ∀ m m' : gmap string Buffer,
    dom m = dom m' →
    (loadMmap_records filename rs m).1 = (loadMmap_records filename rs m').1.
Proof.
  induction rs as [|r rs IH]; intros m m' Hdom; [done|].
  cbn [loadMmap_records].
  assert (is_Some (m !! rec_name r) ↔ is_Some (m' !! rec_name r)) as Hiff.
  { by rewrite <- !elem_of_dom, Hdom. }
  rewrite (bool_decide_ext _ _ Hiff). case_bool_decide; [done|].
  apply IH. by rewrite !dom_insert_L, Hdom.
Qed.

Lemma loadMmap_loop_records_tail filename b rs :
  ∀ fuel pre w fc,
    UseNewCache w = false → Forall record_ok rs →
    (S (length rs) < fuel)%nat →
    (loadMmap_loop fuel filename (pre ++ concat (map (record_bytes 1) rs) ++ [b])
       (Z.of_nat (length (pre ++ concat (map (record_bytes 1) rs) ++ [b])))
       (Z.of_nat (length pre)) w fc).1.1
    = match (loadMmap_records filename rs (m_files fc)).1 with
      | Ok _ => Throw (BadFileNameLength (c_str filename))
      | o => o
      end.
Proof.
  induction rs as [|r rs IH]; intros fuel pre w fc Hw Hok Hfuel.
  - destruct fuel as [|fuel]; [cbn in Hfuel; lia|].
    cbn [map concat loadMmap_records fst snd loadMmap_loop app].
    assert (Hl : Z.of_nat (length (pre ++ [b])) = Z.of_nat (length pre) + 1).
    { rewrite length_app. cbn. lia. }
    destruct (Z.ltb_spec (Z.of_nat (length pre)) (Z.of_nat (length (pre ++ [b]))));
      [|lia].
    unfold bind.
    rewrite loadMmap_record_plan_eq by lia.
    unfold loadMmap_record_plan. cbv zeta.
    destruct (Z.ltb_spec (Z.of_nat (length (pre ++ [b]))) (Z.of_nat (length pre) + 2));
      [done|lia].
  - destruct fuel as [|fuel]; [cbn in Hfuel; lia|].
    apply Forall_cons in Hok as [Hr Hok].
    cbn [map concat loadMmap_records loadMmap_loop].
    pose proof (length_record_bytes 1 r) as Hpos.
    rewrite <- (app_assoc (record_bytes 1 r)).
    destruct (Z.ltb_spec (Z.of_nat (length pre))
                (Z.of_nat (length (pre ++ record_bytes 1 r
                                     ++ concat (map (record_bytes 1) rs) ++ [b]))))
      as [_|Hge]; [|rewrite !length_app in Hge; lia].
    unfold bind.
    rewrite (loadMmap_record_step filename pre r _ w fc Hw Hr).
    case_bool_decide as Hin; [done|].
    pose proof (IH fuel (pre ++ record_bytes 1 r) w
                  (with_files fc (<[rec_name r :=
                     mapped_buffer r (concat (map (record_bytes 1) rs) ++ [b])]>
                     (m_files fc)))
                  Hw Hok ltac:(cbn in Hfuel; lia)) as IH'.
    cbn [m_files with_files] in IH'.
    rewrite <- !app_assoc in IH'.
    rewrite (length_app pre (record_bytes 1 r)), Nat2Z.inj_add in IH'.
    rewrite IH'.
    rewrite (loadMmap_records_dom filename rs _
               (<[rec_name r := mapped_buffer r (concat (map (record_bytes 1) rs))]>
                  (m_files fc))); [done|].
    by rewrite !dom_insert_L.
Qed.

Lemma loadMmap_records_fresh filename rs :
  ∀ m : gmap string Buffer,
    NoDup (rec_name <$> rs) →
    (∀ r, r ∈ rs → m !! rec_name r = None) →
    (loadMmap_records filename rs m).1 = Ok tt.
Proof.
  induction rs as [|r rs IH]; intros m Hnd Hfresh; [done|].
  cbn [loadMmap_records]. rewrite fmap_cons in Hnd.
  apply NoDup_cons in Hnd as [Hr Hnd].
  rewrite bool_decide_false.
  2:{ rewrite Hfresh by left. by apply is_Some_None. }
  apply IH; [done|]. intros r' Hr'.
  rewrite lookup_insert_ne; [apply Hfresh; by right|].
  intros Heq. apply Hr. rewrite Heq. apply list_elem_of_fmap. by exists r'.
Qed.

(** X12: [loadMmap] does not let the stray byte pass that [load] drops.
    An archive (any version above zero) of well-formed records with
    distinct paths is accepted into an empty table; the same archive
    followed by one byte makes [loadMmap] throw 'Bad file name length'. *)
Theorem loadMmap_rejects_trailing_byte filename version rs b w w' fc :
  UseNewCache w = false → UseNewCache w' = false →
  nonempty filename = true →
  isNewCache (Some (archive_bytes version rs)) = false →
  isNewCache (Some (archive_bytes version rs ++ [b])) = false →
  0 < version →
  Forall record_ok rs → NoDup (rec_name <$> rs) →
  m_files fc = ∅ →
  disk w !! c_str filename = Some (archive_bytes version rs) →
  disk w' !! c_str filename = Some (archive_bytes version rs ++ [b]) →
  (loadMmap filename version w fc).1.1 = Ok tt
  ∧ (loadMmap filename version w' fc).1.1
    = Throw (BadFileNameLength (c_str filename)).
Proof.
  intros Hw Hw' Hn Hnew Hnew' Hv Hok Hnd Hempty Hd Hd'.
  assert (Hrec : (loadMmap_records filename rs (m_files fc)).1 = Ok tt).
  { apply loadMmap_records_fresh; [done|]. intros r _. by rewrite Hempty. }
  split.
  { pose proof (loadMmap_archive filename version rs w fc Hw Hn Hnew Hv Hok Hd) as H.
    rewrite Hrec in H. by rewrite H. }
  clear Hd Hw Hnew. rename Hd' into Hd, Hw' into Hw, Hnew' into Hnew.
  set (content := archive_bytes version rs ++ [b]) in *.
  assert (Hlen : length content ≠ 0%nat).
  { subst content. rewrite length_app. cbn. lia. }
  assert (loadMmap filename version w' fc
          = bind (loadMmap_loop (S (length content)) filename content
                    (Z.of_nat (length content)) 4)
              (λ _, adviseOutMemory) w'
              (with_mapping fc opened_fd (Z.of_nat (length content)) (Some content)))
    as ->.
  { unfold loadMmap, loadMmap_parse. mrun. rewrite Hn, Hd, Hnew, Hw.
    destruct (Z.ltb_spec 0 version); [|lia]. rewrite Hd.
    destruct (Z.eqb_spec (Z.of_nat (length content)) 0); [lia|]. done. }
  pose proof (loadMmap_loop_records_tail filename b rs (S (length content))
                (header_bytes version) w'
                (with_mapping fc opened_fd (Z.of_nat (length content)) (Some content))
                Hw Hok) as Hloop.
  rewrite length_header_bytes in Hloop by done.
  rewrite app_assoc in Hloop.
  rewrite <- archive_bytes_current in Hloop by done. fold content in Hloop.
  cbn [m_files with_mapping] in Hloop.
  assert (S (length rs) < S (length content))%nat as Hfuel.
  { subst content. rewrite archive_bytes_current, !length_app by done.
    pose proof (length_concat_records 1 rs). rewrite length_header_bytes by done.
    cbn. lia. }
  specialize (Hloop Hfuel). change (Z.of_nat 4) with 4 in Hloop.
  rewrite Hrec in Hloop.
  unfold bind.
  destruct (loadMmap_loop _ _ _ _ _ _ _) as [[o w''] fc']. cbn [fst snd] in *.
  by subst o.
Qed.

End MappedTrailing.

(** ** Absolute paths *)

Section AbsolutePaths.
Context `{E : Externals}.

Lemma append_cons (c : ascii) (a b : string) :
  String c a +:+ b = String c (a +:+ b).
Proof. reflexivity. Qed.

Lemma append_nil (b : string) : "" +:+ b = b.
Proof. reflexivity. Qed.

Lemma length_append (a b : string) :
  String.length (a +:+ b) = (String.length a + String.length b)%nat.
Proof.
  induction a as [|c a IH]; [done|].
  rewrite append_cons. cbn [String.length]. by rewrite IH.
Qed.

Lemma c_str_append (a b : string) :
  c_str a = a → c_str (a +:+ b) = a +:+ c_str b.
Proof.
  induction a as [|c a IH]; [done|]. rewrite !append_cons. cbn [c_str].
  destruct (Ascii.eqb c zero); [done|]. intros [= Ha]. by rewrite IH.
Qed.

Lemma substring_append_prefix (a b : string) :
  String.substring 0 (String.length a) (a +:+ b) = a.
Proof.
  induction a as [|c a IH]; [rewrite append_nil; by destruct b|].
  rewrite append_cons. cbn [String.length String.substring]. by rewrite IH.
Qed.

Lemma substring_all (a : string) : String.substring 0 (String.length a) a = a.
Proof. induction a as [|c a IH]; cbn; [done|]. by rewrite IH. Qed.

Lemma substr_from_append (a b : string) :
  substr_from (a +:+ b) (String.length a) = b.
Proof.
  unfold substr_from. rewrite length_append.
  replace (String.length a + String.length b - String.length a)%nat
    with (String.length b) by lia.
  induction a as [|c a IH]; [rewrite append_nil; apply substring_all|].
  rewrite append_cons. cbn [String.length String.substring]. done.
Qed.

Lemma last_char_append_nonempty (a b : string) :
  b ≠ "" → last_char (a +:+ b) = last_char b.
Proof.
  intros Hb. unfold last_char. induction a as [|x a IH]; [done|].
  rewrite append_cons. cbn [String.length]. rewrite Nat.sub_1_r. cbn [Nat.pred].
  rewrite length_append in *.
  destruct b as [|y b]; [done|]. cbn [String.length] in *.
  replace (String.length a + S (String.length b))%nat
    with (S (String.length a + String.length b)) in * by lia.
  cbn [String.get]. rewrite Nat.sub_1_r in IH. exact IH.
Qed.

Lemma last_char_append (a : string) (c : ascii) :
  last_char (a +:+ String c "") = Some c.
Proof. by rewrite last_char_append_nonempty. Qed.

Lemma strip_slash_append (a : string) : strip_slash (a +:+ "/") = a.
Proof.
  unfold strip_slash. destruct (a +:+ "/") as [|a0 s] eqn:Heq.
  { apply (f_equal String.length) in Heq. rewrite length_append in Heq.
    cbn in Heq. lia. }
  rewrite <- Heq. rewrite last_char_append.
  rewrite length_append. cbn [String.length].
  replace (String.length a + 1 - 1)%nat with (String.length a) by lia.
  by rewrite substring_append_prefix.
Qed.

Lemma GetRelativePath_strip w path :
  GetRelativePath w path
  = strip_slash
      (let relative := c_str path in
       let n := ssize (SourceRoot w) mod 2 ^ 32 in
       if (0 <? n) && (n <? ssize relative) &&
          String.eqb (String.substring 0 (Z.to_nat n) relative)
                     (String.substring 0 (Z.to_nat n) (SourceRoot w))
       then substr_from relative (Z.to_nat n)
       else relative).
Proof. reflexivity. Qed.

Lemma strip_slash_other (a : string) :
  last_char a ≠ Some "/"%char → strip_slash a = a.
Proof.
  unfold strip_slash. destruct a as [|x a]; [done|].
  destruct (last_char (String x a)) as [c|]; [|done].
  intros Hc. destruct c as [[] [] [] [] [] [] [] []]; done.
Qed.

Lemma GetRelativePath_append w (name : string) :
  ssize (SourceRoot w) < 4294967296 →
  c_str (SourceRoot w) = SourceRoot w → c_str name = name → name ≠ "" →
  GetRelativePath w (SourceRoot w +:+ name) = strip_slash name.
Proof.
  intros Hsize Hroot Hname Hne. rewrite GetRelativePath_strip. cbv zeta.
  rewrite c_str_append, Hname by done.
  rewrite Z.mod_small by (unfold ssize in *; lia).
  unfold ssize. rewrite Nat2Z.id.
  rewrite substring_append_prefix, substring_all, String.eqb_refl.
  rewrite substr_from_append, length_append.
  destruct (Z.ltb_spec 0 (Z.of_nat (String.length (SourceRoot w)))) as [Hpos|H0].
  - destruct (Z.ltb_spec (Z.of_nat (String.length (SourceRoot w)))
                (Z.of_nat (String.length (SourceRoot w) + String.length name)))
      as [_|Hge]; [done|].
    destruct name; [done|]. cbn [String.length] in Hge. lia.
  - cbn [andb]. destruct (SourceRoot w) as [|c r]; [done|]. cbn in H0. lia.
Qed.

(** X13: an absolute path below [SourceRoot] resolves to the relative
    path.  For a root and a relative path without NUL characters (the
    root shorter than 2^32 characters, the path not empty),
    [GetRelativePath] of the root followed by the path is the path, with
    one trailing slash taken off; so the queries that take an absolute
    name answer for it what they answer for the relative one. *)
Theorem absolute_paths_resolve w fc (name : string) :
  ssize (SourceRoot w) < 4294967296 →
  c_str (SourceRoot w) = SourceRoot w →
  c_str name = name → name ≠ "" →
  GetRelativePath w (SourceRoot w +:+ name +:+ "/") = name
  ∧ (last_char name ≠ Some "/"%char →
     GetRelativePath w (SourceRoot w +:+ name) = name)
  ∧ (∀ path, path = SourceRoot w +:+ name +:+ "/"
             ∨ (last_char name ≠ Some "/"%char ∧ path = SourceRoot w +:+ name) →
       exists_ w fc path false = exists_ w fc name true
       ∧ fileExists w fc path false = fileExists w fc name true
       ∧ dirExists w fc path false = dirExists w fc name true
       ∧ fileSize w fc path false = fileSize w fc name true).
Proof.
  intros Hsize Hroot Hname Hne.
  assert (Hslash : GetRelativePath w (SourceRoot w +:+ name +:+ "/") = name).
  { rewrite GetRelativePath_append; [apply strip_slash_append|done|done| |].
    - rewrite c_str_append by done. done.
    - by destruct name. }
  assert (Hplain : last_char name ≠ Some "/"%char →
                   GetRelativePath w (SourceRoot w +:+ name) = name).
  { intros Hl. rewrite GetRelativePath_append by done. by apply strip_slash_other. }
  split; [done|]. split; [done|].
  intros path Hpath.
  assert (Hrel : GetRelativePath w path = name).
  { destruct Hpath as [->|[Hl ->]]; [done|by apply Hplain]. }
  assert (Hnp : nonempty path = true).
  { unfold nonempty.
    destruct Hpath as [->|[Hl ->]]; rewrite c_str_append by done.
    - rewrite c_str_append by done.
      destruct (SourceRoot w); [by destruct name|done].
    - rewrite Hname. destruct (SourceRoot w); [by destruct name|done]. }
  assert (Hnn : nonempty name = true).
  { unfold nonempty. rewrite Hname. by destruct name. }
  unfold exists_, fileExists, dirExists, fileSize. rewrite Hrel, Hnp, Hnn. done.
Qed.

End AbsolutePaths.

(** ** What [read] hands out is addressable *)


Section InBounds.
Context `{E : Externals}.

Lemma in_bounds_null l cl :
  in_bounds {| len := l; data := None; clen := cl; cdata := None |}.
Proof. by split. Qed.

Lemma in_bounds_store fc key b :
  table_in_bounds fc → in_bounds b →
  table_in_bounds (with_files fc (<[key := b]> (m_files fc))).
Proof.
  intros Hfc Hb. unfold table_in_bounds. cbn [with_files m_files].
  by apply map_Forall_insert_2.
Qed.

Lemma in_bounds_dirs fc sname l :
  table_in_bounds fc →
  table_in_bounds (with_files fc (m_files fc ∪ dir_entries sname l)).
Proof.
  intros Hfc k b. cbn [with_files m_files]. intros Hk.
  apply lookup_union_Some_raw in Hk as [Hk|[_ Hk]]; [by apply (Hfc k)|].
  apply dir_entries_lookup in Hk as [-> _]. apply in_bounds_null.
Qed.

Ltac bounds :=
  unfold table_in_bounds in *; cbn [fst snd with_files m_files with_manager];
  rewrite ?insert_insert_eq;
  first
    [ assumption
    | apply map_Forall_insert_2;
      [ split; cbn [len data clen cdata]; intros ? ?; simplify_eq; lia
      | assumption ] ].

Ltac ok_bounds :=
  unfold ok_in_bounds; cbn [fst snd is_Ok];
  first [ discriminate | done | intros _; bounds ].

Lemma load_payload_alloc version f n ok alloc f' :
  0 < n →
  load_payload version f n = Ok (ok, alloc, f') → ok = true →
  Z.of_nat (length alloc) = n + 1.
Proof.
  intros Hn. unfold load_payload. rewrite !read_bytes_spec.
  cbn [fst snd f_rest f_eof].
  destruct (to_int (n + 1) <? 0); [done|].
  destruct (0 <? version).
  - case_bool_decide as Hlen; cbn [negb].
    + case_bool_decide; [|done]. intros [= <- <- <-] _.
      rewrite length_take. lia.
    + by intros [= <- <- <-].
  - case_bool_decide as Hlen; cbn [negb].
    + intros [= <- <- <-] _. rewrite length_app, length_take. cbn. lia.
    + by intros [= <- <- <-].
Qed.

Lemma load_record_in_bounds filename onDemandUncompress version f w fc :
  table_in_bounds fc →
  ok_in_bounds (load_record filename onDemandUncompress version f w fc).
Proof.
  intros Hfc. unfold load_record. rewrite !read_bytes_spec.
  cbn [fst snd f_rest f_eof].
  destruct (_ || _).
  { destruct (_ || _); ok_bounds. }
  destruct (negb _); [ok_bounds|].
  unfold bind at 1. unfold world at 1. unfold bind at 1. unfold this at 1.
  destruct (exists_ _ _ _ _); [ok_bounds|].
  destruct (_ || _); [ok_bounds|].
  unfold bind at 1. unfold store at 1.
  set (name := bytes_string _). set (n := bytes_int _).
  destruct (Z.ltb_spec 0 n) as [Hpos|Hneg].
  2:{ mrun. ok_bounds. }
  unfold bind at 1. unfold lift at 1.
  destruct (load_payload _ _ _) as [[[ok alloc] f']| | | |] eqn:Hp; try ok_bounds.
  unfold bind at 1. unfold store at 1. cbn [fst snd].
  destruct ok; cbn [negb]; [|ok_bounds].
  pose proof (load_payload_alloc _ _ _ _ _ _ Hpos Hp eq_refl) as Halloc.
  destruct (negb _).
  2:{ mrun. ok_bounds. }
  unfold bind at 1. unfold lift at 1. unfold load_compressed. cbn [len data].
  destruct onDemandUncompress.
  - mrun. ok_bounds.
  - destruct (mem_take _ _); [|ok_bounds]. destruct (gzdecode _) as [u|]; [|ok_bounds].
    mrun. ok_bounds.
Qed.

Lemma load_loop_in_bounds filename onDemandUncompress version fuel :
  ∀ f w fc,
    table_in_bounds fc →
    ok_in_bounds (load_loop fuel filename onDemandUncompress version f w fc).
Proof.
  induction fuel as [|fuel IH]; intros f w fc Hfc; [done|].
  cbn [load_loop]. unfold bind.
  pose proof (load_record_in_bounds filename onDemandUncompress version f w fc Hfc)
    as Hr.
  destruct (load_record _ _ _ _ _ _) as [[o w'] fc'].
  destruct o as [[f'|]| | | |]; try done.
  apply IH. by apply Hr.
Qed.

Lemma load_in_bounds filename onDemandUncompress version w fc :
  table_in_bounds fc →
  ok_in_bounds (load filename onDemandUncompress version w fc).
Proof.
  intros Hfc. unfold load. mrun. destruct (nonempty filename); [|done].
  destruct (UseNewCache w); [done|].
  destruct (disk w !! c_str filename) as [content|]; [|done].
  by apply load_loop_in_bounds.
Qed.

Lemma loadMmap_record_in_bounds filename region p w fc :
  0 ≤ p → table_in_bounds fc →
  ok_in_bounds (loadMmap_record filename region (Z.of_nat (length region)) p w fc).
Proof.
  intros Hp Hfc. rewrite loadMmap_record_plan_eq by done.
  unfold loadMmap_record_plan. cbv zeta.
  set (name_len := bytes_short _) in *.
  destruct (_ <? p + 2); [done|].
  destruct (Z.leb_spec name_len 0) as [|Hname]; [done|].
  destruct (_ <? p + 2 + name_len); [done|].
  destruct (exists_ _ _ _ _); [done|].
  destruct (_ <? p + 2 + name_len + 1 + 4); [done|].
  set (n := bytes_int _).
  destruct (Z.leb_spec n 0) as [|Hn].
  { ok_bounds. }
  destruct (Z.leb_spec (Z.of_nat (length region)) (p + 2 + name_len + 1 + 4 + n))
    as [|He]; [done|].
  destruct (region !! _) as [b|]; [|done].
  destruct (bool_decide (b = x00)); [|done].
  assert (n ≤ Z.of_nat (length (drop (Z.to_nat (p + 2 + name_len + 1 + 4)) region))).
  { rewrite length_drop. lia. }
  destruct (negb _); ok_bounds.
Qed.

Lemma loadMmap_loop_in_bounds filename region fuel :
  ∀ p w fc,
    0 ≤ p → table_in_bounds fc →
    ok_in_bounds
      (loadMmap_loop fuel filename region (Z.of_nat (length region)) p w fc).
Proof.
  induction fuel as [|fuel IH]; intros p w fc Hp Hfc; [done|].
  cbn [loadMmap_loop]. destruct (p <? Z.of_nat (length region)); [|by intros _].
  unfold bind.
  pose proof (loadMmap_record_in_bounds filename region p w fc Hp Hfc) as Hr.
  pose proof (loadMmap_record_plan_defined filename region p w fc Hp)
    as (_ & Hnext & _).
  rewrite <- loadMmap_record_plan_eq in Hnext by done.
  destruct (loadMmap_record _ _ _ _ _ _) as [[o w'] fc']. cbn [fst snd] in *.
  destruct o as [p'| | | |]; try done.
  specialize (Hnext p' eq_refl). apply IH; [lia|by apply Hr].
Qed.

Lemma loadMmap_in_bounds filename version w fc :
  table_in_bounds fc →
  ok_in_bounds (loadMmap filename version w fc).
Proof.
  intros Hfc. unfold loadMmap, loadMmap_parse. mrun.
  destruct (nonempty filename); [|done].
  destruct (isNewCache _).
  { mrun. cbn [UseNewCache with_UseNewCache]. cbv zeta.
    destruct (loadCache _ _ _).1; ok_bounds. }
  mrun. destruct (UseNewCache w) eqn:Hw.
  { cbv zeta. destruct (loadCache _ _ _).1; ok_bounds. }
  destruct (0 <? version); [|done].
  destruct (disk w !! c_str filename) as [content|]; [|done].
  cbv zeta. destruct (Z.of_nat (length content) =? 0); [done|].
  pose proof (loadMmap_loop_in_bounds filename content (S (length content)) 4 w
                (with_mapping fc opened_fd (Z.of_nat (length content)) (Some content))
                ltac:(lia) Hfc) as Hl.
  destruct (loadMmap_loop _ _ _ _ _ _ _) as [[o w'] fc'].
  destruct o; try done.
  unfold adviseOutMemory. mrun. destruct (UseNewCache w'); intros _; by apply Hl.
Qed.

Lemma write_in_bounds name addDirectories w fc :
  table_in_bounds fc →
  ok_in_bounds (write name addDirectories w fc).
Proof.
  intros Hfc. unfold write. mrun.
  destruct (nonempty name) eqn:Hn; [|done].
  destruct (exists_ w fc name true); [done|]. cbn [negb].
  destruct (UseNewCache w) eqn:Hw.
  { destruct (addEmptyEntry _ _).1; ok_bounds. }
  destruct addDirectories; [|ok_bounds].
  rewrite writeDirectories_spec by done. intros _.
  apply in_bounds_dirs. apply in_bounds_store; [done|apply in_bounds_null].
Qed.

Lemma write_file_in_bounds name fullpath w fc :
  table_in_bounds fc →
  ok_in_bounds (write_file name fullpath w fc).
Proof.
  intros Hfc. unfold write_file. mrun.
  destruct (nonempty name) eqn:Hn; [|done].
  destruct (nonempty fullpath); [|done].
  destruct (exists_ w fc name true); [done|]. cbn [negb].
  destruct (UseNewCache w) eqn:Hw.
  { destruct (addFileContents _ _ _ _).1; ok_bounds. }
  destruct (disk w !! c_str fullpath) as [content|]; [|done].
  mrun. set (n := to_int _).
  destruct (Z.eqb_spec n 0) as [H0|H0].
  { mrun. rewrite writeDirectories_spec by done. intros _.
    apply in_bounds_dirs. apply in_bounds_store; [done|apply in_bounds_null]. }
  destruct (Z.ltb_spec n 0) as [Hneg|Hpos]; [done|].
  rewrite read_bytes_spec. cbn [fst snd fopen_r f_rest f_eof].
  case_bool_decide as Hlen; cbn [negb]; [|done].
  assert (Z.of_nat (length (take (Z.to_nat n) content)) = n) as Htake.
  { rewrite length_take. lia. }
  unfold compress_gate. cbn [len data].
  destruct (is_compressible_file _);
    [destruct (mem_take _ _);
      [destruct (gzencode _) as [compressed|];
        [destruct (_ <? _)|]|]|].
  all: mrun; try done.
  all: rewrite writeDirectories_spec by done; intros _.
  all: apply in_bounds_dirs; cbn [with_files m_files]; rewrite ?insert_insert_eq.
  all: bounds.
Qed.

Lemma call_in_bounds op w fc :
  table_in_bounds fc → ok_in_bounds (call op w fc).
Proof.
  intros Hfc. destruct op; cbn [call].
  - by apply write_in_bounds.
  - by apply write_file_in_bounds.
  - unfold save. mrun. destruct (nonempty filename); [|ok_bounds].
    destruct (UseNewCache w).
    { destruct (saveCache _ _ _).1; ok_bounds. }
    destruct (can_create _); [|ok_bounds]. cbv zeta.
    destruct (save_records _).2; ok_bounds.
  - unfold getVersion. mrun. destruct (nonempty filename); [|ok_bounds].
    destruct (isNewCache _); [ok_bounds|].
    destruct (disk w !! _); [|ok_bounds]. cbv zeta.
    match goal with |- context [if ?b then _ else _] => destruct b end; ok_bounds.
  - by apply load_in_bounds.
  - by apply loadMmap_in_bounds.
  - unfold adviseOutMemory. mrun. destruct (UseNewCache w); ok_bounds.
  - ok_bounds.
  - ok_bounds.
  - ok_bounds.
  - unfold const_method. mrun. destruct (read _ _ _ _ _); ok_bounds.
  - unfold const_method. mrun. destruct (fileSize _ _ _ _); ok_bounds.
  - ok_bounds.
  - ok_bounds.
Qed.

Lemma session_in_bounds calls :
  ∀ w fc, table_in_bounds fc → ok_in_bounds (session calls w fc).
Proof.
  induction calls as [|op calls IH]; intros w fc Hfc; [by intros _|].
  unfold session in *. cbn [for_each]. unfold bind.
  pose proof (call_in_bounds op w fc Hfc) as Hop.
  destruct (call op w fc) as [[o w'] fc'].
  destruct o; try done. apply IH. by apply Hop.
Qed.

(** X14: what [read] hands out can be read.  After any session of calls
    that all returned, on an instance that started empty and still uses
    the old cache, a pointer that [read] returns has at least as many
    bytes behind it as the length returned with it, whichever form it is;
    and [fileSize] never asks the codec to read past the end of a
    compressed form. *)
Theorem read_hands_out_addressable_bytes calls w0 w fc :
  session calls w0 new_FileCache = (Ok tt, w, fc) →
  UseNewCache w = false →
  (∀ name len0 compressed r p,
     read w fc name len0 compressed = Ok r → r_ptr r = Some p →
     0 ≤ r_len r ≤ Z.of_nat (length p))
  ∧ (∀ name isRelative,
       match fileSize w fc name isRelative with
       | Undefined => False
       | _ => True
       end).
Proof.
  intros Hs Hw.
  assert (Hfc : table_in_bounds fc).
  { pose proof (session_in_bounds calls w0 new_FileCache) as H.
    rewrite Hs in H. apply H; [|done]. apply map_Forall_empty. }
  split.
  - intros name len0 compressed r p. rewrite read_as_buffer by done.
    destruct (nonempty name); [|by intros [= <-]].
    destruct (find fc name) as [b|] eqn:Hfind; [|by intros [= <-]].
    destruct (Hfc _ _ Hfind) as [Hd Hc]. unfold read_buffer.
    repeat case_match; intros; simplify_eq; cbn [r_ptr r_len] in *;
      simplify_eq; cbn; try lia; auto.
  - assert (Hrel : ∀ n, match fileSize_relative w fc n with
                        | Undefined => False
                        | _ => True
                        end).
    { intros n. rewrite fileSize_as_buffer by done.
      destruct (find fc n) as [b|] eqn:Hfind; [|done].
      destruct (Hfc _ _ Hfind) as [Hd Hc]. unfold fileSize_buffer.
      destruct (0 <=? len b); [done|].
      destruct (cdata b) as [c|] eqn:Hcd; [|done].
      specialize (Hc c eq_refl). unfold mem_take.
      destruct (Z.leb_spec 0 (clen b)); [|lia].
      destruct (Z.leb_spec (clen b) (Z.of_nat (length c))); [|lia].
      cbn. by destruct (gzdecode _). }
    intros name isRelative. unfold fileSize.
    destruct (negb (nonempty name)); [done|].
    destruct isRelative; [apply Hrel|].
    destruct (negb _); [done|apply Hrel].
Qed.

End InBounds.

(** ** The two loaders on the same archive *)


Section LoadersAgree.
Context `{E : Externals}.

Lemma same_views_insert (m m' : gmap string Buffer) k b b' :
  same_views m m' → same_view b b' → same_views (<[k := b]> m) (<[k := b']> m').
Proof.
  intros Hm Hb k'. destruct (decide (k = k')) as [<-|Hne].
  - by rewrite !lookup_insert_eq.
  - rewrite !lookup_insert_ne by done. apply Hm.
Qed.

Lemma same_views_is_Some (m m' : gmap string Buffer) k :
  same_views m m' → is_Some (m !! k) ↔ is_Some (m' !! k).
Proof.
  intros Hm. specialize (Hm k).
  destruct (m !! k), (m' !! k); try done; split; eauto.
Qed.

Lemma record_buffer_deferred filename r post :
  record_ok r →
  ∃ b, record_buffer filename true r = Ok b ∧ same_view b (mapped_buffer r post).
Proof.
  intros (_ & _ & Hlen & Hpay).
  unfold record_buffer, mapped_buffer, loaded_buffer, load_compressed.
  destruct (Z.ltb_spec 0 (rec_len r)) as [Hpos|Hneg].
  2:{ eexists. split; [done|]. by repeat split. }
  specialize (Hpay Hpos).
  assert (Htake : take (Z.to_nat (rec_len r)) (rec_payload r ++ [x00])
                  = take (Z.to_nat (rec_len r)) (rec_payload r ++ [x00] ++ post)).
  { rewrite !take_app_length' by lia. done. }
  destruct (bool_decide (rec_flag r = x00)); cbn [len data].
  - eexists. split; [done|]. repeat split; cbn [len data clen cdata]; done.
  - eexists. split; [done|]. repeat split; cbn [len data clen cdata]; try done.
    + lia.
    + rewrite length_app. cbn. lia.
    + rewrite !length_app. cbn. lia.
Qed.

Lemma loaders_agree_records filename rs :
  ∀ mL mM : gmap string Buffer,
    same_views mL mM → Forall record_ok rs →
    (load_records filename true rs mL).1 = (loadMmap_records filename rs mM).1
    ∧ same_views (load_records filename true rs mL).2
                 (loadMmap_records filename rs mM).2.
Proof.
  induction rs as [|r rs IH]; intros mL mM Hm Hok; [done|].
  apply Forall_cons in Hok as [Hr Hok]. cbn [load_records loadMmap_records].
  rewrite (bool_decide_ext _ _ (same_views_is_Some _ _ (rec_name r) Hm)).
  case_bool_decide; [done|].
  destruct (record_buffer_deferred filename r
              (concat (map (record_bytes 1) rs)) Hr) as (b & -> & Hb).
  apply IH; [|done]. by apply same_views_insert.
Qed.

Lemma mem_take_same (c c' : list byte) n :
  0 ≤ n ≤ Z.of_nat (length c) → n ≤ Z.of_nat (length c') →
  take (Z.to_nat n) c = take (Z.to_nat n) c' →
  mem_take (Some c) n = mem_take (Some c') n.
Proof.
  intros Hn Hn' Ht. rewrite !mem_take_Some by lia. by rewrite Ht.
Qed.

Lemma same_view_queries w fc fc' :
  UseNewCache w = false →
  same_views (m_files fc) (m_files fc') →
  (∀ name isRelative,
     exists_ w fc name isRelative = exists_ w fc' name isRelative
     ∧ dirExists w fc name isRelative = dirExists w fc' name isRelative
     ∧ fileExists w fc name isRelative = fileExists w fc' name isRelative
     ∧ fileSize w fc name isRelative = fileSize w fc' name isRelative)
  ∧ (∀ name len0 compressed,
       read_view w fc name len0 compressed = read_view w fc' name len0 compressed).
Proof.
  intros Hw Hm.
  assert (Hrel : ∀ name,
     exists_relative w fc name = exists_relative w fc' name
     ∧ dirExists_relative w fc name = dirExists_relative w fc' name
     ∧ fileExists_relative w fc name = fileExists_relative w fc' name
     ∧ fileSize_relative w fc name = fileSize_relative w fc' name).
  { intros name.
    unfold exists_relative, dirExists_relative, fileExists_relative.
    rewrite !fileSize_as_buffer by done. rewrite Hw. unfold find.
    specialize (Hm (c_str name)).
    destruct (m_files fc !! c_str name) as [b|], (m_files fc' !! c_str name) as [b'|];
      try done.
    destruct Hm as (Hl & Hcl & Hd & Hc).
    rewrite !bool_decide_true by eauto. rewrite <- Hl.
    repeat split; try done. unfold fileSize_buffer. rewrite <- Hl, <- Hcl.
    destruct (0 <=? len b); [done|].
    destruct (cdata b) as [c|], (cdata b') as [c'|]; try done.
    destruct Hc as (H1 & H2 & H3). by rewrite (mem_take_same c c'). }
  split.
  - intros name isRelative. unfold exists_, dirExists, fileExists, fileSize.
    destruct isRelative.
    + destruct (Hrel name) as (-> & -> & -> & ->). done.
    + destruct (Hrel (GetRelativePath w name)) as (-> & -> & -> & ->). done.
  - intros name len0 compressed. unfold read_view.
    rewrite !read_as_buffer by done. destruct (nonempty name); [|done].
    unfold find. specialize (Hm (c_str name)).
    destruct (m_files fc !! c_str name) as [b|], (m_files fc' !! c_str name) as [b'|];
      try done.
    destruct Hm as (Hl & Hcl & Hd & Hc). unfold read_buffer.
    rewrite <- Hl, <- Hcl.
    destruct (data b) as [d|], (data b') as [d'|]; try done;
      destruct (cdata b) as [c|], (cdata b') as [c'|]; try done.
    all: rewrite ?(bool_decide_true (is_Some (Some _))) by eauto.
    all: rewrite ?(bool_decide_false (is_Some None)) by (by intros [? ?]).
    all: rewrite ?(bool_decide_false (Some _ = None)) by done.
    all: rewrite ?(bool_decide_true (None = None)) by done.
    all: destruct compressed; cbn [andb negb].
    all: repeat match goal with
           | |- context [if ?b then _ else _] => destruct b
           end.
    all: cbn [outcome_map]; unfold view;
      cbn [r_ptr r_len r_compressed fmap option_fmap option_map]; try done.
    all: try (destruct Hc as (_ & _ & ->); done).
    all: try (rewrite Hd; done).
Qed.

(** X15: the two loaders agree.  On an archive (any version above zero)
    of well-formed records, [load] with deferred decompression and
    [loadMmap], each into a fresh instance, end alike: both succeed or
    both throw the same exception; and when they succeed no query can
    tell the two instances apart, [read] handing out the same lengths,
    flags and bytes. *)
Theorem loaders_agree filename version rs w :
  UseNewCache w = false → nonempty filename = true →
  isNewCache (Some (archive_bytes version rs)) = false →
  0 < version →
  Forall record_ok rs →
  disk w !! c_str filename = Some (archive_bytes version rs) →
  let owned := load filename true version w new_FileCache in
  let mapped := loadMmap filename version w new_FileCache in
  owned.1.1 = mapped.1.1
  ∧ (owned.1.1 = Ok tt →
     owned.1.2 = w ∧ mapped.1.2 = w
     ∧ (∀ name isRelative,
          exists_ w owned.2 name isRelative = exists_ w mapped.2 name isRelative
          ∧ dirExists w owned.2 name isRelative = dirExists w mapped.2 name isRelative
          ∧ fileExists w owned.2 name isRelative
            = fileExists w mapped.2 name isRelative
          ∧ fileSize w owned.2 name isRelative = fileSize w mapped.2 name isRelative)
     ∧ (∀ name len0 compressed,
          read_view w owned.2 name len0 compressed
          = read_view w mapped.2 name len0 compressed)).
Proof.
  intros Hw Hn Hnew Hv Hok Hd. cbv zeta.
  pose proof (load_archive filename true version rs w new_FileCache Hw Hn Hok Hd)
    as HL.
  pose proof (loadMmap_archive filename version rs w new_FileCache
                Hw Hn Hnew Hv Hok Hd) as HM.
  destruct (loaders_agree_records filename rs ∅ ∅) as [Ho Hm]; [done|done|].
  cbn [m_files new_FileCache] in HL, HM.
  rewrite <- Ho in HM.
  destruct (load_records filename true rs ∅).1 as [[]| | | |] eqn:Hr.
  2-5: by rewrite HL, HM.
  rewrite HL, HM. cbn [fst snd]. split; [done|]. intros _.
  split; [done|]. split; [done|].
  apply same_view_queries; [done|]. cbn [m_files with_files]. exact Hm.
Qed.

End LoadersAgree.

(** ** Loading an archive and saving it again *)


Section LoadThenSave.
Context `{E : Externals}.

Lemma record_buffer_Ok filename onDemandUncompress r :
  record_ok r → (onDemandUncompress = false → decodable r) →
  ∃ b, record_buffer filename onDemandUncompress r = Ok b.
Proof.
  intros (_ & _ & Hlen & Hpay) Hdec.
  unfold record_buffer, loaded_buffer, load_compressed.
  destruct (Z.ltb_spec 0 (rec_len r)) as [Hpos|Hneg]; [|by eexists].
  specialize (Hpay Hpos).
  case_bool_decide as Hflag; [by eexists|].
  destruct onDemandUncompress; [by eexists|]. cbn [len data].
  rewrite mem_take_Some by (rewrite length_app; cbn; lia).
  rewrite take_app_length' by lia.
  destruct (Hdec eq_refl Hpos Hflag) as [u ->]. by eexists.
Qed.

Lemma save_record_loaded filename onDemandUncompress r b :
  record_ok r → canonical r →
  record_buffer filename onDemandUncompress r = Ok b →
  save_record (rec_name r, b) = (record_bytes 1 r, Ok tt).
Proof.
  intros (Hname & _ & Hlen & Hpay) Hcan.
  unfold canonical in Hcan.
  unfold record_buffer, loaded_buffer, load_compressed.
  unfold save_record, record_bytes, record_head. cbn [fst snd].
  rewrite to_short_small by lia.
  destruct (Z.eqb_spec (ssize (rec_name r)) 0); [lia|].
  destruct (Z.ltb_spec (ssize (rec_name r)) 0); [lia|].
  rewrite firstn_all2 by (rewrite length_string_bytes; unfold ssize; lia).
  destruct (Z.ltb_spec 0 (rec_len r)) as [Hpos|Hneg].
  - specialize (Hpay Hpos).
    assert (Htake : take (Z.to_nat (rec_len r)) (rec_payload r ++ [x00])
                    = rec_payload r).
    { by rewrite take_app_length' by lia. }
    assert (Hmem : mem_take (Some (rec_payload r ++ [x00])) (rec_len r)
                   = Some (rec_payload r)).
    { rewrite mem_take_Some by (rewrite length_app; cbn; lia). by rewrite Htake. }
    destruct Hcan as [Hflag|Hflag]; rewrite Hflag.
    + rewrite bool_decide_true by done. intros [= <-]. cbn [len data clen cdata].
      rewrite bool_decide_false by (by intros [? ?]).
      destruct (Z.ltb_spec 0 (rec_len r)); [|lia].
      rewrite Hmem. by rewrite <- !app_assoc.
    + rewrite bool_decide_false by done. cbn [len data].
      destruct onDemandUncompress.
      * intros [= <-]. cbn [len data clen cdata].
        rewrite bool_decide_true by eauto.
        destruct (Z.ltb_spec 0 (rec_len r)); [|lia]. cbn [negb].
        rewrite Hmem. by rewrite <- !app_assoc.
      * rewrite Hmem. destruct (gzdecode _) as [u|]; [|done].
        intros [= <-]. cbn [len data clen cdata].
        rewrite bool_decide_true by eauto.
        destruct (Z.ltb_spec 0 (rec_len r)); [|lia]. cbn [negb].
        rewrite Hmem. by rewrite <- !app_assoc.
  - destruct Hcan as [Hflag Hnil]. rewrite Hflag. intros [= <-].
    cbn [len data clen cdata].
    rewrite bool_decide_false by (by intros [? ?]).
    destruct (Z.ltb_spec 0 (rec_len r)); [lia|].
    by rewrite <- !app_assoc, !app_nil_r.
Qed.

Lemma load_records_table filename onDemandUncompress (g : record → Buffer) rs :
  ∀ m0 : gmap string Buffer,
    Forall (λ r, record_buffer filename onDemandUncompress r = Ok (g r)) rs →
    NoDup (rec_name <$> rs) →
    (∀ k, k ∈ rec_name <$> rs → m0 !! k = None) →
    load_records filename onDemandUncompress rs m0
    = (Ok tt, list_to_map ((λ r, (rec_name r, g r)) <$> rs) ∪ m0).
Proof.
  induction rs as [|r rs IH]; intros m0 Hg Hnd Hfresh.
  - cbn. by rewrite (left_id_L ∅ (∪)).
  - apply Forall_cons in Hg as [Hr Hg].
    rewrite fmap_cons in Hnd. apply NoDup_cons in Hnd as [Hnin Hnd].
    cbn [load_records].
    rewrite bool_decide_false.
    2: { rewrite Hfresh; [by intros [? ?]|]. rewrite fmap_cons. by left. }
    rewrite Hr.
    rewrite IH; [|done|done|].
    2: { intros k' Hk'. rewrite lookup_insert_ne by (by intros <-).
         apply Hfresh. rewrite fmap_cons. by right. }
    f_equal. rewrite fmap_cons. cbn [list_to_map foldr].
    rewrite <- insert_union_l.
    rewrite <- insert_union_r; [done|].
    apply not_elem_of_list_to_map_1.
    rewrite <- list_fmap_compose.
    by erewrite list_fmap_ext; [exact Hnin|].
Qed.

Lemma save_records_loaded filename onDemandUncompress (g : record → Buffer) rs :
  Forall (λ r, record_ok r ∧ canonical r
               ∧ record_buffer filename onDemandUncompress r = Ok (g r)) rs →
  save_records ((λ r, (rec_name r, g r)) <$> rs)
  = (concat (map (record_bytes 1) rs), Ok tt).
Proof.
  induction rs as [|r rs IH]; intros Hrs; [done|].
  apply Forall_cons in Hrs as [(Hok & Hcan & Hbuf) Hrs].
  rewrite fmap_cons. cbn [save_records].
  rewrite (save_record_loaded _ _ _ _ Hok Hcan Hbuf), (IH Hrs). done.
Qed.

(** X16: loading an archive and saving the table again gives the archive
    back, in the current format and with its records in the order of the
    table.  For well-formed records with distinct paths, written as
    [save] writes them (and, when they are decompressed on loading, with
    payloads the codec accepts): [load] succeeds on the archive in either
    sub-format, [save] succeeds on the table, and the file it writes is
    the version-1 archive of a permutation of the same records. *)
Theorem load_then_save_keeps_records filename out onDemandUncompress version rs w :
  UseNewCache w = false →
  nonempty filename = true → nonempty out = true →
  can_create (c_str out) = true →
  Forall record_ok rs → Forall canonical rs →
  NoDup (rec_name <$> rs) →
  (onDemandUncompress = false → Forall decodable rs) →
  disk w !! c_str filename = Some (archive_bytes version rs) →
  let loaded := load filename onDemandUncompress version w new_FileCache in
  let saved := save out loaded.1.2 loaded.2 in
  loaded.1.1 = Ok tt ∧ saved.1.1 = Ok tt
  ∧ ∃ rs', rs' ≡ₚ rs ∧ disk saved.1.2 !! c_str out = Some (archive_bytes 1 rs').
Proof.
  intros Hw Hn Hout Hcan Hok Hcanon Hnd Hdec Hd. cbv zeta.
  assert (∃ g : record → Buffer,
            Forall (λ r, record_buffer filename onDemandUncompress r = Ok (g r)) rs)
    as [g Hg].
  { exists (λ r, match record_buffer filename onDemandUncompress r with
                 | Ok b => b
                 | _ => php_file
                 end).
    apply Forall_forall. intros r Hr.
    destruct (record_buffer_Ok filename onDemandUncompress r) as [b ->]; [| |done].
    - by apply (proj1 (Forall_forall _ _) Hok).
    - intros Ho. by apply (proj1 (Forall_forall _ _) (Hdec Ho)). }
  pose proof (load_archive filename onDemandUncompress version rs w new_FileCache
                Hw Hn Hok Hd) as HL.
  rewrite (load_records_table filename onDemandUncompress g) in HL;
    [|done|done|intros k _; apply lookup_empty].
  cbn [fst snd m_files new_FileCache] in HL. rewrite (right_id_L ∅ (∪)) in HL.
  rewrite HL. cbn [fst snd]. split; [done|].
  set (l := (λ r, (rec_name r, g r)) <$> rs) in *.
  set (fc := with_files new_FileCache (list_to_map l)).
  assert (Hperm : map_to_list (m_files fc) ≡ₚ l).
  { subst fc. cbn [m_files with_files]. apply map_to_list_to_map.
    subst l. rewrite <- list_fmap_compose.
    by erewrite list_fmap_ext; [exact Hnd|]. }
  subst l.
  apply (Permutation_map_inv (λ r, (rec_name r, g r))) in Hperm
    as (rs' & Hfiles & Hperm).
  change (map ?f ?l) with (f <$> l) in Hfiles.
  assert (Hrs' : Forall (λ r, record_ok r ∧ canonical r
                   ∧ record_buffer filename onDemandUncompress r = Ok (g r)) rs').
  { apply Forall_forall. intros r Hr.
    assert (r ∈ rs) as Hin by (by rewrite Hperm).
    split; [|split].
    - by apply (proj1 (Forall_forall _ _) Hok).
    - by apply (proj1 (Forall_forall _ _) Hcanon).
    - by apply (proj1 (Forall_forall _ _) Hg). }
  assert (Hsave : save_records (map_to_list (m_files fc))
                  = (concat (map (record_bytes 1) rs'), Ok tt)).
  { rewrite Hfiles. by apply (save_records_loaded filename onDemandUncompress). }
  unfold save. mrun. rewrite Hout, Hw, Hcan. cbn [negb]. cbv zeta.
  rewrite Hsave. cbn [fst snd]. split; [done|].
  exists rs'. split; [by symmetry|].
  cbn [disk with_disk]. by rewrite lookup_insert_eq.
Qed.

End LoadThenSave.

(** ** The destructor *)


Section DestructorFacts.
Context `{E : Externals}.

Ltac forms :=
  unfold one_form in *; cbn [fst snd with_files m_files with_mapping];
  rewrite ?insert_insert_eq;
  first
    [ assumption
    | apply map_Forall_insert_2; [cbn [data cdata]; auto | assumption] ].

Lemma loadMmap_record_one_form filename region p w fc :
  0 ≤ p → one_form fc →
  one_form (loadMmap_record filename region (Z.of_nat (length region)) p w fc).2.
Proof.
  intros Hp Hfc. rewrite loadMmap_record_plan_eq by done.
  unfold loadMmap_record_plan. cbv zeta.
  repeat match goal with
         | |- context [if ?b then _ else _] => destruct b eqn:?; try done
         end.
  all: try forms.
  all: destruct (region !! _) as [b|]; [destruct (bool_decide (b = x00))|].
  all: forms.
Qed.

Lemma loadMmap_loop_one_form filename region fuel :
  ∀ p w fc,
    0 ≤ p → one_form fc →
    one_form (loadMmap_loop fuel filename region (Z.of_nat (length region))
                p w fc).2.
Proof.
  induction fuel as [|fuel IH]; intros p w fc Hp Hfc; [done|].
  cbn [loadMmap_loop]. destruct (p <? Z.of_nat (length region)); [|done].
  unfold bind.
  pose proof (loadMmap_record_one_form filename region p w fc Hp Hfc) as Hr.
  pose proof (loadMmap_record_plan_defined filename region p w fc Hp)
    as (_ & Hnext & _).
  rewrite <- loadMmap_record_plan_eq in Hnext by done.
  destruct (loadMmap_record _ _ _ _ _ _) as [[o w'] fc']. cbn [fst snd] in *.
  destruct o as [p'| | | |]; try done.
  specialize (Hnext p' eq_refl). apply IH; [lia|done].
Qed.

Lemma loadMmap_loop_mapping filename region fuel :
  ∀ p w fc,
    let fc' := (loadMmap_loop fuel filename region (Z.of_nat (length region))
                  p w fc).2 in
    m_fd fc' = m_fd fc ∧ m_size fc' = m_size fc ∧ m_addr fc' = m_addr fc.
Proof.
  induction fuel as [|fuel IH]; intros p w fc; [done|].
  cbn [loadMmap_loop]. cbv zeta. destruct (p <? Z.of_nat (length region)); [|done].
  unfold bind.
  assert (Hr : let fc' := (loadMmap_record filename region
                             (Z.of_nat (length region)) p w fc).2 in
               m_fd fc' = m_fd fc ∧ m_size fc' = m_size fc
               ∧ m_addr fc' = m_addr fc).
  { unfold loadMmap_record.
    repeat first
      [ progress mrun
      | progress cbn [fst snd m_fd m_size m_addr with_files]
      | match goal with
        | |- context [if ?b then _ else _] => destruct b
        end
      | match goal with
        | |- context [match ?x with _ => _ end] =>
            lazymatch type of x with
            | prod _ _ => fail
            | _ => destruct x
            end
        end ]; done. }
  destruct (loadMmap_record _ _ _ _ _ _) as [[o w'] fc']. cbn [fst snd] in *.
  destruct o as [p'| | | |]; try done.
  destruct (IH p' w' fc') as (-> & -> & ->). done.
Qed.

Lemma destroy_asserts w fc :
  UseNewCache w = false →
  m_fd fc ≠ -1 → one_form fc →
  (destroy w fc).1.1 = if 0 <? m_size fc then Ok tt else Abort.
Proof.
  intros Hw Hfd Hone. unfold destroy. mrun. rewrite Hw.
  destruct (Z.eqb_spec (m_fd fc) (-1)) as [|_]; [done|].
  assert (Hloop : ∀ l, Forall (λ file : string * Buffer,
                                 data file.2 = None ∨ cdata file.2 = None) l →
            for_each l
              (λ file : string * Buffer,
                 if bool_decide (data file.2 = None)
                    || bool_decide (cdata file.2 = None)
                 then λ (w0 : World) (fc0 : FileCache), (Ok (), w0, fc0)
                 else λ (w0 : World) (fc0 : FileCache), (Abort, w0, fc0)) w fc
            = (Ok tt, w, fc)).
  { induction l as [|file l IH]; intros Hl; [done|].
    apply Forall_cons in Hl as [Hf Hl]. cbn [for_each]. unfold bind.
    destruct Hf as [-> | ->]; rewrite ?bool_decide_true by done;
      rewrite ?orb_true_r; cbn [orb]; by apply IH. }
  rewrite Hloop.
  2:{ apply Forall_forall. intros [k b] Hin%elem_of_map_to_list. by apply (Hone k). }
  unfold addr_not_null. destruct (Z.eqb_spec (m_fd fc) (-1)); [done|].
  rewrite orb_true_r. by destruct (0 <? m_size fc).
Qed.

(** X17: destroying an instance after [loadMmap].  An instance that
    never mapped a file is destroyed without an assertion failing,
    whatever its table holds.  A fresh instance that [loadMmap] was
    called on for an old-format file is destroyed cleanly when the file
    is not empty, however the parsing of the file ended; on an empty
    file [loadMmap] throws 'Unable to mmap' and leaves an instance whose
    destructor fails its assertion on [m_size]. *)
Theorem destructor_after_loadMmap filename version content w fc0 :
  UseNewCache w = false → nonempty filename = true →
  isNewCache (Some content) = false → 0 < version →
  disk w !! c_str filename = Some content →
  let r := loadMmap filename version w new_FileCache in
  (m_fd fc0 = -1 → (destroy w fc0).1.1 = Ok tt)
  ∧ (content ≠ [] → (destroy r.1.2 r.2).1.1 = Ok tt)
  ∧ (content = [] →
     r.1.1 = Throw (UnableToMmap (c_str filename))
     ∧ (destroy r.1.2 r.2).1.1 = Abort).
Proof.
  intros Hw Hn Hnew Hv Hd. cbv zeta. split; [|split].
  - intros Hfd. unfold destroy. mrun. rewrite Hw, Hfd. cbn [Z.eqb negb].
    assert (Hloop : ∀ l : list (string * Buffer),
              for_each l (λ _, λ (w0 : World) (fc1 : FileCache), (Ok (), w0, fc1))
                w fc0 = (Ok tt, w, fc0)).
    { induction l as [|file l IH]; [done|]. cbn [for_each]. unfold bind. apply IH. }
    by rewrite Hloop.
  - intros Hne.
    assert (Hlen : Z.of_nat (length content) ≠ 0) by (destruct content; [done|cbn; lia]).
    unfold loadMmap, loadMmap_parse. mrun. rewrite Hn, Hd, Hnew, Hw.
    destruct (Z.ltb_spec 0 version); [|lia]. rewrite Hd.
    destruct (Z.eqb_spec (Z.of_nat (length content)) 0); [lia|].
    set (fc := with_mapping new_FileCache opened_fd (Z.of_nat (length content))
                 (Some content)).
    pose proof (loadMmap_loop_one_form filename content (S (length content)) 4 w fc
                  ltac:(lia)) as Hone.
    pose proof (loadMmap_loop_mapping filename content (S (length content)) 4 w fc)
      as Hmap.
    pose proof (unchanged_loadMmap_loop (S (length content)) filename content
                  (Z.of_nat (length content)) 4 w fc) as Hw'.
    cbv zeta in Hmap.
    destruct (loadMmap_loop _ _ _ _ _ _ _) as [[o w'] fc']. cbn [fst snd] in *.
    subst w'. destruct Hmap as (Hfd & Hsize & _).
    assert (Hfc' : (destroy w fc').1.1 = Ok tt).
    { rewrite destroy_asserts; [|done| |].
      - rewrite Hsize. cbn. destruct (Z.ltb_spec 0 (Z.of_nat (length content))); [done|lia].
      - rewrite Hfd. done.
      - apply Hone. apply map_Forall_empty. }
    destruct o; try done.
    unfold adviseOutMemory. mrun. by rewrite Hw.
  - intros ->.
    unfold loadMmap, loadMmap_parse. mrun. rewrite Hn, Hd, Hnew, Hw.
    destruct (Z.ltb_spec 0 version); [|lia]. rewrite Hd. cbn [length Z.of_nat Z.eqb].
    cbn [fst snd]. split; [done|].
    rewrite destroy_asserts; [done|done|done|]. apply map_Forall_empty.
Qed.

End DestructorFacts.

(** ** A load that fails *)

Section FailedLoad.
Context `{E : Externals}.

Lemma load_records_app filename onDemandUncompress rs1 rs2 :
  ∀ m : gmap string Buffer,
    load_records filename onDemandUncompress (rs1 ++ rs2) m
    = match (load_records filename onDemandUncompress rs1 m).1 with
      | Ok _ =>
          load_records filename onDemandUncompress rs2
            (load_records filename onDemandUncompress rs1 m).2
      | _ => load_records filename onDemandUncompress rs1 m
      end.
Proof.
  induction rs1 as [|r rs1 IH]; intros m; [done|].
  cbn [app load_records]. case_bool_decide; [done|].
  by destruct (record_buffer _ _ _).
Qed.

Lemma load_loop_records_full filename onDemandUncompress version rs :
  ∀ fuel f w fc,
    UseNewCache w = false → Forall record_ok rs →
    Forall (λ r, is_Ok (record_buffer filename onDemandUncompress r) = true) rs →
    f_rest f = concat (map (record_bytes version) rs) →
    (length rs < fuel)%nat →
    load_loop fuel filename onDemandUncompress version f w fc
    = ((load_records filename onDemandUncompress rs (m_files fc)).1, w,
       with_files fc (load_records filename onDemandUncompress rs (m_files fc)).2).
Proof.
  induction rs as [|r rs IH]; intros fuel f w fc Hw Hok Hbuf Hf Hfuel.
  - destruct fuel as [|fuel]; [cbn in Hfuel; lia|].
    destruct f as [rest eof]. cbn in Hf. subst rest.
    cbn [load_loop load_records fst snd]. unfold bind.
    rewrite load_record_eof. unfold ret. rewrite with_files_id. done.
  - destruct fuel as [|fuel]; [cbn in Hfuel; lia|].
    apply Forall_cons in Hok as [Hr Hok]. apply Forall_cons in Hbuf as [Hb Hbuf].
    cbn [map concat] in Hf. cbn [load_loop load_records].
    case_bool_decide as Hin.
    + cbn [fst snd]. unfold bind.
      rewrite (load_record_duplicate _ _ _ _ _ _ _ _ Hw Hr Hf Hin).
      by rewrite with_files_id.
    + assert (m_files fc !! rec_name r = None) as Hnone
        by (by apply eq_None_not_Some).
      pose proof (load_record_step filename onDemandUncompress version f r _ w fc
                    Hw Hr Hf Hnone) as Hstep.
      cbv zeta in Hstep.
      destruct (record_buffer filename onDemandUncompress r) as [b| e | | |];
        try done.
      unfold bind. rewrite Hstep.
      rewrite (IH fuel {| f_rest := concat (map (record_bytes version) rs);
                          f_eof := f_eof f |} w
                 (with_files fc (<[rec_name r := b]> (m_files fc)))
                 Hw Hok Hbuf eq_refl ltac:(cbn in Hfuel; lia)).
      done.
Qed.

(** X18: a load that fails is not undone.  When the last record of an
    archive repeats the path of an earlier one (the records well formed
    and accepted by the codec where it is used, the ones before the last
    with distinct paths), [load] throws 'Same file appeared twice' and the instance
    keeps every entry it stored before it met the duplicate. *)
Theorem failed_load_keeps_earlier_records filename onDemandUncompress version
    rs r w :
  UseNewCache w = false → nonempty filename = true →
  Forall record_ok rs → record_ok r →
  (onDemandUncompress = false → Forall decodable (rs ++ [r])) →
  NoDup (rec_name <$> rs) →
  rec_name r ∈ rec_name <$> rs →
  disk w !! c_str filename = Some (archive_bytes version (rs ++ [r])) →
  let loaded := load filename onDemandUncompress version w new_FileCache in
  loaded.1.1 = Throw (SameFileTwice (rec_name r) (c_str filename))
  ∧ ∀ r', r' ∈ rs → exists_ w loaded.2 (rec_name r') true = true.
Proof.
  intros Hw Hn Hok Hr Hdec Hnd Hin Hd. cbv zeta.
  assert (∃ g : record → Buffer,
            Forall (λ r, record_buffer filename onDemandUncompress r = Ok (g r)) rs)
    as [g Hg].
  { exists (λ r, match record_buffer filename onDemandUncompress r with
                 | Ok b => b
                 | _ => php_file
                 end).
    apply Forall_forall. intros r0 Hr0.
    destruct (record_buffer_Ok filename onDemandUncompress r0) as [b ->]; [| |done].
    - by apply (proj1 (Forall_forall _ _) Hok).
    - intros Ho. apply (proj1 (Forall_forall _ _) (Hdec Ho)).
      apply elem_of_app. by left. }
  set (table := list_to_map ((λ r, (rec_name r, g r)) <$> rs) : gmap string Buffer).
  assert (Hrs : load_records filename onDemandUncompress rs ∅ = (Ok tt, table)).
  { rewrite (load_records_table filename onDemandUncompress g);
      [|done|done|intros k _; apply lookup_empty].
    by rewrite (right_id_L ∅ (∪)). }
  assert (Hlook : ∀ r', r' ∈ rs → is_Some (table !! rec_name r')).
  { intros r' Hr'. subst table.
    apply (elem_of_dom (M := gmap string)). rewrite dom_list_to_map_L.
    apply elem_of_list_to_set. rewrite <- list_fmap_compose.
    apply list_elem_of_fmap. by exists r'. }
  assert (Hall : load_records filename onDemandUncompress (rs ++ [r]) ∅
                 = (Throw (SameFileTwice (rec_name r) (c_str filename)), table)).
  { rewrite load_records_app, Hrs. cbn [fst snd load_records].
    rewrite bool_decide_true; [done|].
    apply list_elem_of_fmap in Hin as (r' & -> & Hr'). by apply Hlook. }
  assert (Hload : load filename onDemandUncompress version w new_FileCache
                  = (Throw (SameFileTwice (rec_name r) (c_str filename)), w,
                     with_files new_FileCache table)).
  { assert (load filename onDemandUncompress version w new_FileCache
            = load_loop (S (length (archive_bytes version (rs ++ [r])))) filename
                onDemandUncompress version
                {| f_rest := concat (map (record_bytes version) (rs ++ [r]));
                   f_eof := false |}
                w new_FileCache) as ->.
    { unfold load. mrun. rewrite Hn, Hw, Hd. f_equal.
      unfold archive_bytes, header_bytes.
      destruct (0 <? version); [|done].
      rewrite <- app_assoc.
      rewrite (read_bytes_app (fopen_r _) (short_bytes (-1)) _ 2 eq_refl
                 (length_short_bytes _)) by lia.
      cbn [fst snd].
      rewrite (read_bytes_app {| f_rest := _ |} (short_bytes version) _ 2 eq_refl
                 (length_short_bytes _)) by lia.
      done. }
    rewrite (load_loop_records_full filename onDemandUncompress version (rs ++ [r]));
      [cbn [m_files new_FileCache]; by rewrite Hall| done | | | done |].
    - apply Forall_app. split; [done|]. by apply Forall_singleton.
    - apply Forall_forall. intros r0 Hr0.
      destruct (record_buffer_Ok filename onDemandUncompress r0) as [b ->]; [| |done].
      + apply elem_of_app in Hr0 as [Hr0|Hr0%list_elem_of_singleton].
        * by apply (proj1 (Forall_forall _ _) Hok).
        * by subst r0.
      + intros Ho. by apply (proj1 (Forall_forall _ _) (Hdec Ho)).
    - unfold archive_bytes.
      pose proof (length_concat_records version (rs ++ [r])) as Hlen.
      rewrite (length_app (header_bytes version)). lia. }
  rewrite Hload. cbn [fst snd]. split; [done|].
  intros r' Hr'.
  assert (Hokr : record_ok r') by (by apply (proj1 (Forall_forall _ _) Hok)).
  destruct Hokr as (Hsz & Hc & _).
  rewrite exists_lookup; [|done| |done].
  - cbn [m_files with_files]. apply bool_decide_eq_true_2. by apply Hlook.
  - unfold nonempty. rewrite Hc.
    destruct (rec_name r'); [unfold ssize in Hsz; cbn in Hsz; lia|done].
Qed.

End FailedLoad.

(** ** Paths with a NUL character *)

Section NulPaths.
Context `{E : Externals}.

Lemma exists_after_store_other w fc key name b :
  c_str name ≠ key →
  exists_ w (with_files fc (<[key := b]> (m_files fc))) name true
  = exists_ w fc name true.
Proof.
  intros Hne. unfold exists_, exists_relative, find. cbn [m_files with_files cache_manager_].
  by rewrite lookup_insert_ne.
Qed.

(** X19: a path with a NUL character in it slips through the check for
    duplicates.  [load] looks the path up as a C string, that is by its
    characters before the NUL, and stores it under all its characters:
    an archive with the same such path in two records (here records
    without a payload) loads without complaint, and the entry the first
    record made is replaced by that of the second. *)
Theorem nul_in_path_escapes_duplicate_check filename onDemandUncompress version
    r1 r2 w fc :
  UseNewCache w = false → nonempty filename = true →
  rec_name r1 = rec_name r2 →
  0 < ssize (rec_name r1) < 32768 →
  c_str (rec_name r1) ≠ rec_name r1 →
  -2147483648 ≤ rec_len r1 ≤ 0 → -2147483648 ≤ rec_len r2 ≤ 0 →
  exists_ w fc (rec_name r1) true = false →
  disk w !! c_str filename = Some (archive_bytes version [r1; r2]) →
  load filename onDemandUncompress version w fc
  = (Ok tt, w,
     with_files fc (<[rec_name r1 := {| len := rec_len r2; data := None;
                                        clen := -1; cdata := None |}]>
                      (m_files fc))).
Proof.
  intros Hw Hn Hsame Hsize Hnul Hl1 Hl2 Hex Hd.
  set (name := rec_name r1) in *.
  assert (Hbytes : ∀ r, rec_name r = name → rec_len r ≤ 0 →
            record_bytes version r = record_head name (rec_flag r) (rec_len r)).
  { intros r Hr Hl. unfold record_bytes. rewrite Hr.
    destruct (Z.ltb_spec 0 (rec_len r)); [lia|]. by rewrite app_nil_r. }
  assert (load filename onDemandUncompress version w fc
          = load_loop (S (length (archive_bytes version [r1; r2]))) filename
              onDemandUncompress version
              {| f_rest := record_head name (rec_flag r1) (rec_len r1)
                           ++ record_head name (rec_flag r2) (rec_len r2);
                 f_eof := false |}
              w fc) as ->.
  { unfold load. mrun. rewrite Hn, Hw, Hd. f_equal.
    unfold archive_bytes, header_bytes. cbn [map concat].
    rewrite app_nil_r, (Hbytes r1), (Hbytes r2) by (done || lia).
    destruct (0 <? version); [|done].
    rewrite <- app_assoc.
    rewrite (read_bytes_app (fopen_r _) (short_bytes (-1)) _ 2 eq_refl
               (length_short_bytes _)) by lia.
    cbn [fst snd].
    rewrite (read_bytes_app {| f_rest := _ |} (short_bytes version) _ 2 eq_refl
               (length_short_bytes _)) by lia.
    done. }
  assert (Hfuel : ∃ fuel, S (length (archive_bytes version [r1; r2]))
                          = S (S (S fuel))).
  { unfold archive_bytes. cbn [map concat]. rewrite !length_app.
    pose proof (length_record_bytes version r1).
    pose proof (length_record_bytes version r2).
    exists (length (header_bytes version) + (length (record_bytes version r1) - 1)
            + (length (record_bytes version r2) - 1) + length (@nil byte))%nat.
    lia. }
  destruct Hfuel as [fuel ->].
  cbn [load_loop]. unfold bind at 1.
  rewrite (load_record_head filename onDemandUncompress version
             {| f_rest := record_head name (rec_flag r1) (rec_len r1)
                          ++ record_head name (rec_flag r2) (rec_len r2);
                f_eof := false |} name
             (rec_flag r1) (rec_len r1)
             (record_head name (rec_flag r2) (rec_len r2)) w fc eq_refl)
    by (done || lia).
  cbv zeta. destruct (Z.ltb_spec 0 (rec_len r1)); [lia|]. unfold ret at 1.
  unfold bind at 1.
  cbn [f_eof].
  rewrite (load_record_head filename onDemandUncompress version
             {| f_rest := record_head name (rec_flag r2) (rec_len r2);
                f_eof := false |} name
             (rec_flag r2) (rec_len r2) [] w _
             (eq_sym (app_nil_r _))); [|done|lia|].
  2:{ by rewrite exists_after_store_other. }
  cbv zeta. destruct (Z.ltb_spec 0 (rec_len r2)); [lia|]. unfold ret at 1.
  unfold bind at 1. rewrite load_record_eof. unfold ret.
  cbn [with_files m_files m_fd m_size m_addr cache_manager_].
  by rewrite insert_insert_eq.
Qed.

End NulPaths.

(** ** The name length [save] writes *)

Section NameLength.
Context `{E : Externals}.

Lemma length_substring_prefix (s : string) n :
  (n ≤ String.length s)%nat → String.length (String.substring 0 n s) = n.
Proof.
  revert n. induction s as [|c s IH]; intros [|n] Hn; cbn in *; try done; try lia.
  rewrite IH; [done|lia].
Qed.

Lemma string_bytes_substring_prefix (s : string) n :
  string_bytes (String.substring 0 n s) = take n (string_bytes s).
Proof.
  unfold string_bytes, String.list_byte_of_string.
  revert n. induction s as [|c s IH]; intros [|n]; cbn; try done.
  by rewrite IH.
Qed.

(** X20: [save] keeps the length of a path in a [short].  For a path of
    up to 32767 characters that is its length.  Beyond that the length
    wraps: where it wraps to zero the assertion on it fails, where it
    wraps to a negative number [fwrite] is asked for more bytes than the
    path has, and where it wraps to a positive number [n] the record is
    the one [save] writes for the first [n] characters of the path. *)
Theorem save_wraps_name_length k b :
  let name_len := to_short (ssize k) in
  (ssize k < 32768 → name_len = ssize k)
  ∧ (name_len = 0 → save_record (k, b) = ([], Abort))
  ∧ (name_len < 0 → (save_record (k, b)).2 = Undefined)
  ∧ (0 < name_len →
     save_record (k, b)
     = save_record (String.substring 0 (Z.to_nat name_len) k, b)).
Proof.
  cbv zeta.
  pose proof (wrap_range 16 (ssize k) ltac:(lia)) as Hrange.
  fold (to_short (ssize k)) in Hrange.
  assert (Hle : to_short (ssize k) ≤ ssize k).
  { unfold to_short, wrap. unfold ssize.
    pose proof (Z.mod_le (Z.of_nat (String.length k) + 2 ^ (16 - 1)) (2 ^ 16)
                  ltac:(lia) ltac:(lia)). lia. }
  split; [|split; [|split]].
  - intros Hk. apply to_short_small. unfold ssize in *. lia.
  - intros H0. unfold save_record. cbn [fst snd]. by rewrite H0.
  - intros Hneg. unfold save_record. cbn [fst snd].
    destruct (Z.eqb_spec (to_short (ssize k)) 0); [lia|].
    by destruct (Z.ltb_spec (to_short (ssize k)) 0); [|lia].
  - intros Hpos. unfold save_record. cbn [fst snd].
    set (n := to_short (ssize k)) in *.
    assert (Hsub : ssize (String.substring 0 (Z.to_nat n) k) = n).
    { unfold ssize in *. rewrite length_substring_prefix by lia. lia. }
    rewrite Hsub. rewrite (to_short_small n) by (cbn in Hrange; lia).
    rewrite string_bytes_substring_prefix, take_take, Nat.min_id. done.
Qed.

End NameLength.

(** ** The terminator in the mapped region *)

Section MappedTerminator.
Context `{E : Externals}.

(** X21: [loadMmap] insists on the NUL after a payload, and fails hard
    without it.  For a record at offset [p] that lies within the region,
    has a positive length and a path not yet in the table: if the byte
    after the payload is NUL the turn of the loop stores the entry and
    goes on right after that byte; if it is anything else the
    [always_assert] ends the process, no exception is thrown. *)
Theorem loadMmap_checks_terminator filename region p w fc :
  0 ≤ p →
  truncated_record region p = false →
  let e := Z.of_nat (length region) in
  let name_len := bytes_short (take 2 (drop (Z.to_nat p) region)) in
  let file :=
    bytes_string (take (Z.to_nat name_len) (drop (Z.to_nat (p + 2)) region)) in
  let n := bytes_int (take 4 (drop (Z.to_nat (p + 2 + name_len + 1)) region)) in
  let q := p + 2 + name_len + 1 + 4 in
  0 < name_len → 0 < n →
  exists_ w fc file true = false →
  q + n < e
  ∧ (region !! Z.to_nat (q + n) = Some x00 →
     (loadMmap_record filename region e p w fc).1.1 = Ok (q + n + 1)
     ∧ is_Some (m_files (loadMmap_record filename region e p w fc).2 !! file))
  ∧ (region !! Z.to_nat (q + n) ≠ Some x00 →
     (loadMmap_record filename region e p w fc).1.1 = Abort).
Proof.
  intros Hp Htr. cbv zeta. intros Hname Hn Hex.
  rewrite loadMmap_record_plan_eq by done.
  unfold truncated_record in Htr. cbv zeta in Htr.
  unfold loadMmap_record_plan. cbv zeta.
  set (name_len := bytes_short _) in *.
  destruct (Z.ltb_spec (Z.of_nat (length region)) (p + 2)); [done|].
  destruct (Z.leb_spec name_len 0); [lia|].
  destruct (Z.ltb_spec (Z.of_nat (length region)) (p + 2 + name_len)); [done|].
  destruct (Z.ltb_spec (Z.of_nat (length region)) (p + 2 + name_len + 1)); [done|].
  destruct (Z.ltb_spec (Z.of_nat (length region)) (p + 2 + name_len + 1 + 4));
    [done|].
  rewrite Hex.
  set (n := bytes_int _) in *.
  destruct (Z.ltb_spec 0 n); [|lia]. cbn [andb] in Htr.
  apply Z.ltb_ge in Htr.
  destruct (Z.leb_spec n 0); [lia|].
  destruct (Z.leb_spec (Z.of_nat (length region)) (p + 2 + name_len + 1 + 4 + n));
    [lia|].
  split; [lia|].
  destruct (region !! Z.to_nat (p + 2 + name_len + 1 + 4 + n)) as [b|] eqn:Hb.
  2:{ apply lookup_ge_None in Hb. lia. }
  split.
  - intros [= ->]. rewrite bool_decide_true by done. cbn [fst snd]. split; [done|].
    cbn [m_files with_files]. rewrite lookup_insert_eq. by eexists.
  - intros Hne. rewrite bool_decide_false; [done|]. by intros ->.
Qed.

End MappedTerminator.

(** ** An archive that ends inside a record *)

Section TruncatedArchive.
Context `{E : Externals}.

Lemma take_drop_take (l : list byte) a m k :
  (a + m ≤ k)%nat → take m (drop a (take k l)) = take m (drop a l).
Proof.
  intros Hk. replace k with (a + (k - a))%nat by lia.
  rewrite <- take_drop_commute, take_take. f_equal. lia.
Qed.

Lemma load_record_truncated filename onDemandUncompress version r k f w fc :
  record_ok r →
  (2 ≤ k < length (record_bytes version r))%nat →
  f_rest f = take k (record_bytes version r) →
  is_Throw (load_record filename onDemandUncompress version f w fc).1.1 = true.
Proof.
  intros (Hs & Hc & Hn & Hp) Hk Hf.
  set (sb := short_bytes (ssize (rec_name r))).
  set (nb := string_bytes (rec_name r)).
  set (ib := int_bytes (rec_len r)).
  set (tail := if 0 <? rec_len r
               then rec_payload r ++ (if 0 <? version then [x00] else [])
               else []).
  assert (Hbytes : record_bytes version r = sb ++ nb ++ [rec_flag r] ++ ib ++ tail).
  { unfold record_bytes, record_head. by rewrite <- !app_assoc. }
  assert (Hsb : length sb = 2%nat) by apply length_short_bytes.
  assert (Hnb : Z.of_nat (length nb) = ssize (rec_name r)).
  { subst nb. by rewrite length_string_bytes. }
  assert (Hib : length ib = 4%nat) by apply length_int_bytes.
  assert (Htotal : Z.of_nat (length (record_bytes version r))
                   = 2 + ssize (rec_name r) + 1 + 4 + Z.of_nat (length tail)).
  { rewrite Hbytes, !length_app. cbn [length]. lia. }
  assert (Hlen : length (f_rest f) = k).
  { rewrite Hf, length_take. lia. }
  set (nl := Z.to_nat (ssize (rec_name r))).
  assert (Hread : ∀ a m, (a + m ≤ k)%nat →
            take m (drop a (f_rest f)) = take m (drop a (record_bytes version r))).
  { intros a m Ham. rewrite Hf. by apply take_drop_take. }
  assert (H1 : take 2 (f_rest f) = sb).
  { rewrite <- (drop_0 (f_rest f)), Hread by lia. rewrite drop_0, Hbytes.
    by apply take_prefix. }
  assert (H2 : (2 + nl ≤ k)%nat → take nl (drop 2 (f_rest f)) = nb).
  { intros Hle. rewrite Hread by lia. rewrite Hbytes.
    rewrite drop_app_length' by done. apply take_prefix. subst nl. lia. }
  assert (H3 : (2 + nl + 1 + 4 ≤ k)%nat →
               take 4 (drop 1 (drop nl (drop 2 (f_rest f)))) = ib).
  { intros Hle. rewrite !drop_drop. rewrite Hread by lia. rewrite Hbytes.
    rewrite (app_assoc sb), (app_assoc (sb ++ nb)).
    rewrite drop_app_length'
      by (rewrite !length_app; cbn [length]; subst nl; lia).
    by apply take_prefix. }
  unfold load_record. rewrite !read_bytes_spec. cbn [fst snd f_rest f_eof].
  rewrite H1. subst sb. rewrite bytes_short_short_bytes by lia. fold nl.
  rewrite (bool_decide_true (0 < 2 ≤ _)%nat) by lia.
  destruct (Z.leb_spec (ssize (rec_name r)) 0); [lia|]. cbn [negb orb].
  case_bool_decide as Hname; cbn [negb]; [|done].
  rewrite length_drop in Hname.
  unfold bind at 1. unfold world at 1. unfold bind at 1. unfold this at 1.
  destruct (exists_ _ _ _ _); [done|].
  case_bool_decide as Hflag; cbn [negb orb]; [|done].
  case_bool_decide as Hint; cbn [negb]; [|done].
  rewrite !length_drop in Hflag. rewrite !length_drop in Hint.
  rewrite H3 by lia. subst ib. rewrite bytes_int_int_bytes by lia.
  unfold bind at 1. unfold store at 1.
  destruct (Z.ltb_spec 0 (rec_len r)) as [Hpos|Hneg].
  2:{ subst tail. destruct (Z.ltb_spec 0 (rec_len r)); [lia|].
      cbn [length] in Htotal. subst nl. lia. }
  specialize (Hp Hpos).
  assert (Htail : Z.of_nat (length tail)
                  = rec_len r + (if 0 <? version then 1 else 0)).
  { subst tail. destruct (Z.ltb_spec 0 (rec_len r)); [|lia].
    rewrite length_app. destruct (0 <? version); cbn [length]; lia. }
  unfold bind at 1. unfold lift at 1. unfold load_payload.
  rewrite !read_bytes_spec. cbn [fst snd f_rest f_eof]. rewrite !length_drop.
  rewrite to_int_small by lia. destruct (Z.ltb_spec (rec_len r + 1) 0); [lia|].
  destruct (Z.ltb_spec 0 version).
  - rewrite bool_decide_false by (subst nl; lia). cbn [negb].
    unfold bind at 1. unfold store at 1. cbn [fst snd negb]. done.
  - rewrite bool_decide_false by (subst nl; lia). cbn [negb].
    unfold bind at 1. unfold store at 1. cbn [fst snd negb]. done.
Qed.

Lemma load_loop_records_then filename onDemandUncompress version tail rs :
  ∀ fuel f w fc,
    UseNewCache w = false → Forall record_ok rs →
    f_rest f = concat (map (record_bytes version) rs) ++ tail →
    (length rs < fuel)%nat →
    match (load_records filename onDemandUncompress rs (m_files fc)).1 with
    | Ok _ =>
        load_loop fuel filename onDemandUncompress version f w fc
        = load_loop (fuel - length rs) filename onDemandUncompress version
            {| f_rest := tail; f_eof := f_eof f |} w
            (with_files fc
               (load_records filename onDemandUncompress rs (m_files fc)).2)
    | o => (load_loop fuel filename onDemandUncompress version f w fc).1.1 = o
    end.
Proof.
  induction rs as [|r rs IH]; intros fuel f w fc Hw Hok Hf Hfuel.
  - cbn [load_records fst snd length]. rewrite Nat.sub_0_r, with_files_id.
    destruct f as [rest eof]. cbn in Hf. by subst rest.
  - destruct fuel as [|fuel]; [cbn in Hfuel; lia|].
    apply Forall_cons in Hok as [Hr Hok]. cbn [map concat] in Hf.
    rewrite <- app_assoc in Hf.
    cbn [load_loop load_records length Nat.sub].
    case_bool_decide as Hin.
    + cbn [fst]. unfold bind.
      rewrite (load_record_duplicate _ _ _ _ _ _ _ _ Hw Hr Hf Hin). done.
    + assert (m_files fc !! rec_name r = None) as Hnone
        by (by apply eq_None_not_Some).
      pose proof (load_record_step filename onDemandUncompress version f r _ w fc
                    Hw Hr Hf Hnone) as Hstep.
      cbv zeta in Hstep.
      destruct (record_buffer filename onDemandUncompress r) as [b| e | | |].
      * pose proof (IH fuel {| f_rest := concat (map (record_bytes version) rs) ++ tail;
                                f_eof := f_eof f |} w
                      (with_files fc (<[rec_name r := b]> (m_files fc)))
                      Hw Hok eq_refl ltac:(cbn in Hfuel; lia)) as IH'.
        cbn [m_files with_files f_eof] in IH'. unfold bind. rewrite Hstep.
        destruct (load_records filename onDemandUncompress rs _).1; apply IH'.
      * destruct Hstep as [Ho _]. cbn [fst]. unfold bind.
        destruct (load_record _ _ _ _ _ _) as [[o w'] fc']. cbn in Ho. by subst o.
      * destruct Hstep as [Ho _]. cbn [fst]. unfold bind.
        destruct (load_record _ _ _ _ _ _) as [[o w'] fc']. cbn in Ho. by subst o.
      * destruct Hstep as [Ho _]. cbn [fst]. unfold bind.
        destruct (load_record _ _ _ _ _ _) as [[o w'] fc']. cbn in Ho. by subst o.
      * destruct Hstep as [Ho _]. cbn [fst]. unfold bind.
        destruct (load_record _ _ _ _ _ _) as [[o w'] fc']. cbn in Ho. by subst o.
Qed.

Lemma load_records_Ok_or_Throw filename onDemandUncompress rs :
  ∀ m : gmap string Buffer,
    Forall record_ok rs →
    is_Ok (load_records filename onDemandUncompress rs m).1
    || is_Throw (load_records filename onDemandUncompress rs m).1 = true.
Proof.
  induction rs as [|r rs IH]; intros m Hok; [done|].
  apply Forall_cons in Hok as [Hr Hok]. cbn [load_records].
  case_bool_decide; [done|].
  destruct (record_buffer_defined filename onDemandUncompress r Hr)
    as [[b ->]|[e ->]]; [by apply IH|done].
Qed.

(** X22: [load] rejects an archive that ends inside a record.  When the
    file stops after at least two bytes of a record but before its end
    (the records before it well formed), [load] throws; the only
    truncation it lets pass is the one that leaves fewer than two
    bytes. *)
Theorem load_rejects_truncated_record filename onDemandUncompress version
    rs r k w fc :
  UseNewCache w = false → nonempty filename = true →
  Forall record_ok rs → record_ok r →
  (2 ≤ k < length (record_bytes version r))%nat →
  disk w !! c_str filename
  = Some (archive_bytes version rs ++ take k (record_bytes version r)) →
  is_Throw (load filename onDemandUncompress version w fc).1.1 = true.
Proof.
  intros Hw Hn Hok Hr Hk Hd.
  set (tail := take k (record_bytes version r)) in *.
  assert (load filename onDemandUncompress version w fc
          = load_loop (S (length (archive_bytes version rs ++ tail))) filename
              onDemandUncompress version
              {| f_rest := concat (map (record_bytes version) rs) ++ tail;
                 f_eof := false |}
              w fc) as ->.
  { unfold load. mrun. rewrite Hn, Hw, Hd. f_equal.
    unfold archive_bytes, header_bytes.
    destruct (0 <? version); [|done].
    rewrite <- !app_assoc.
    rewrite (read_bytes_app (fopen_r _) (short_bytes (-1)) _ 2 eq_refl
               (length_short_bytes _)) by lia.
    cbn [fst snd].
    rewrite (read_bytes_app {| f_rest := _ |} (short_bytes version) _ 2 eq_refl
               (length_short_bytes _)) by lia.
    done. }
  set (fuel := S (length (archive_bytes version rs ++ tail))).
  assert (Hfuel : (length rs < fuel)%nat ∧ (0 < fuel - length rs)%nat).
  { subst fuel. unfold archive_bytes. rewrite !length_app.
    pose proof (length_concat_records version rs). lia. }
  destruct Hfuel as [Hfuel1 Hfuel2].
  pose proof (load_loop_records_then filename onDemandUncompress version tail rs
                fuel {| f_rest := concat (map (record_bytes version) rs) ++ tail;
                        f_eof := false |} w fc Hw Hok eq_refl Hfuel1) as Hloop.
  pose proof (load_records_Ok_or_Throw filename onDemandUncompress rs (m_files fc)
                Hok) as Hor.
  destruct (load_records filename onDemandUncompress rs (m_files fc)).1
    as [[]|e| | |]; try done.
  - rewrite Hloop. destruct (fuel - length rs)%nat as [|fuel'] eqn:Hf'; [lia|].
    cbn [load_loop f_eof]. unfold bind.
    pose proof (load_record_truncated filename onDemandUncompress version r k
                  {| f_rest := tail; f_eof := false |} w
                  (with_files fc
                     (load_records filename onDemandUncompress rs (m_files fc)).2)
                  Hr Hk eq_refl) as Ht.
    destruct (load_record _ _ _ _ _ _) as [[o w'] fc']. cbn [fst snd] in *.
    by destruct o.
  - by rewrite Hloop.
Qed.

End TruncatedArchive.

(** ** The properties on the sample runs *)

Section FurtherExamples.
Import Toy Sample.

Lemma write_then_queries_witness :
  fileSize world0 (write "lib/util.php" true world0 new_FileCache).2
    "lib/util.php" true = Ok (-1).
Proof.
  refine (proj1 (proj2 (proj2 (proj2 (proj2
    (write_then_queries "lib/util.php" true world0 new_FileCache _ _ _))))));
    reflexivity.
Defined.

Lemma write_file_then_read_witness :
  fileSize world1 (write_file "assets/data.txt" "/src/a.txt" world1 new_FileCache).2
    "assets/data.txt" true = Ok 42.
Proof.
  refine (proj1 (proj2 (proj2 (proj2
    (write_file_then_read "assets/data.txt" "/src/a.txt"
       (replicate 40 x61 ++ [x62; x63]) world1 new_FileCache _ _ _ _ _ _)))));
    reflexivity.
Defined.

Lemma writeDirectories_registers_ancestors_witness :
  dirExists world0 (writeDirectories "a/b/c" world0 new_FileCache).2 "a/b" true
  = true.
Proof.
  refine (proj2 (proj1 (proj2
    (writeDirectories_registers_ancestors "a/b/c" world0 new_FileCache _ _ _))
    3%nat _ _) _); first [reflexivity | cbn; lia].
Defined.

Lemma built_paths_are_files_or_directories_witness :
  exists_ built.1.2 built.2 "assets" true
  = xorb (fileExists built.1.2 built.2 "assets" true)
         (dirExists built.1.2 built.2 "assets" true).
Proof.
  apply (built_paths_are_files_or_directories script1 world1 built.1.2 built.2
           "assets" true).
  - reflexivity.
  - apply (bool_decide_eq_true_1 (small_files _)). by vm_compute.
  - by vm_compute.
Defined.

Lemma save_then_getVersion_witness :
  (getVersion "/tmp/archive" (save "/tmp/archive" built.1.2 built.2).1.2
     new_FileCache).1.1 = Ok kCurrentFileCacheVersion.
Proof.
  apply (save_then_getVersion "/tmp/archive" built.1.2 built.2 new_FileCache).
  - reflexivity.
  - reflexivity.
  - reflexivity.
  - by vm_compute.
  - by vm_compute.
Defined.

Lemma getVersion_positive_needs_header_witness :
  ∃ v,
    getVersion "cache" world_short_header new_FileCache
    = (Ok v, world_short_header, new_FileCache)
    ∧ v < 0.
Proof.
  destruct (getVersion_positive_needs_header world_short_header new_FileCache
              "cache" [xff; xff; x01]) as (v & Hv & Hneg & _).
  - reflexivity.
  - reflexivity.
  - reflexivity.
  - exists v. split; [exact Hv|]. apply Hneg. cbn [length]. lia.
Defined.

Lemma new_cache_mode_bypasses_table_witness :
  m_files (call (CallWrite "app.php" true) world_new_cache new_FileCache).2
  = m_files new_FileCache.
Proof.
  refine (proj1 (new_cache_mode_bypasses_table (CallWrite "app.php" true)
                   world_new_cache new_FileCache _)).
  reflexivity.
Defined.

Lemma load_ignores_header_witness :
  (load "cache" false 1 world_marker new_FileCache).1.1
  = (load "cache" false 1 world_zero_tag new_FileCache).1.1.
Proof.
  refine (proj1 (load_ignores_header "cache" false 1 [xff; xff; x01; x00]
                   [x00; x00; x01; x00] [] world_marker world_zero_tag
                   new_FileCache _ _ _ _ _ _)); first [reflexivity | lia].
Defined.

Lemma load_ignores_trailing_byte_witness :
  (load "/tmp/pair" false 1 world_stray new_FileCache).1.1
  = (load "/tmp/pair" false 1 world_pair new_FileCache).1.1.
Proof.
  refine (proj1 (load_ignores_trailing_byte "/tmp/pair" false 1 pair x07
                   world_pair world_stray new_FileCache _ _ _ _ _ _)).
  - reflexivity.
  - reflexivity.
  - reflexivity.
  - repeat constructor; cbn; lia.
  - reflexivity.
  - reflexivity.
Defined.

Lemma loadMmap_rejects_trailing_byte_witness :
  (loadMmap "/tmp/pair" 1 world_pair new_FileCache).1.1 = Ok tt
  ∧ (loadMmap "/tmp/pair" 1 world_stray new_FileCache).1.1
    = Throw (BadFileNameLength "/tmp/pair").
Proof.
  apply (loadMmap_rejects_trailing_byte "/tmp/pair" 1 pair x07 world_pair
           world_stray new_FileCache).
  - reflexivity.
  - reflexivity.
  - reflexivity.
  - reflexivity.
  - reflexivity.
  - lia.
  - repeat constructor; cbn; lia.
  - apply (bool_decide_eq_true_1 (NoDup _)). by vm_compute.
  - reflexivity.
  - reflexivity.
  - reflexivity.
Defined.

Lemma absolute_paths_resolve_witness :
  GetRelativePath world1 ("/var/www/" +:+ "assets" +:+ "/") = "assets".
Proof.
  refine (proj1 (absolute_paths_resolve world1 built.2 "assets" _ _ _ _));
    first [reflexivity | done].
Defined.

Lemma read_hands_out_addressable_bytes_witness :
  0 ≤ 7 ≤ Z.of_nat (length [x1f; x28; x61; x01; x62; x01; x63]).
Proof.
  refine (proj1 (read_hands_out_addressable_bytes calls1 world1 session1.1.2
                   session1.2 _ _)
            "assets/data.txt" 0 true
            (mkRead (Some [x1f; x28; x61; x01; x62; x01; x63]) 7 true)
            [x1f; x28; x61; x01; x62; x01; x63] _ _).
  - by vm_compute.
  - reflexivity.
  - by vm_compute.
  - reflexivity.
Defined.

Lemma loaders_agree_witness :
  (load "/tmp/pair" true 1 world_pair new_FileCache).1.1
  = (loadMmap "/tmp/pair" 1 world_pair new_FileCache).1.1.
Proof.
  refine (proj1 (loaders_agree "/tmp/pair" 1 pair world_pair _ _ _ _ _ _)).
  - reflexivity.
  - reflexivity.
  - reflexivity.
  - lia.
  - repeat constructor; cbn; lia.
  - reflexivity.
Defined.

Lemma load_then_save_keeps_records_witness :
  (load "/tmp/pair" false 1 world_pair new_FileCache).1.1 = Ok tt.
Proof.
  refine (proj1 (load_then_save_keeps_records "/tmp/pair" "/tmp/out" false 1 pair
                   world_pair _ _ _ _ _ _ _ _ _)).
  - reflexivity.
  - reflexivity.
  - reflexivity.
  - reflexivity.
  - repeat constructor; cbn; lia.
  - apply Forall_cons. split; [by left|].
    apply Forall_cons. split; [by right|]. constructor.
  - apply (bool_decide_eq_true_1 (NoDup _)). by vm_compute.
  - intros _. apply Forall_cons. split; [by intros _ []|].
    apply Forall_cons. split; [|constructor]. intros _ _. by eexists.
  - reflexivity.
Defined.

Lemma destructor_after_loadMmap_witness :
  (destroy (loadMmap "/tmp/pair" 1 world_pair new_FileCache).1.2
     (loadMmap "/tmp/pair" 1 world_pair new_FileCache).2).1.1 = Ok tt.
Proof.
  refine (proj1 (proj2 (destructor_after_loadMmap "/tmp/pair" 1
                          (archive_bytes 1 pair) world_pair new_FileCache
                          _ _ _ _ _)) _).
  - reflexivity.
  - reflexivity.
  - reflexivity.
  - lia.
  - reflexivity.
  - by vm_compute.
Defined.

Lemma failed_load_keeps_earlier_records_witness :
  (load "/tmp/twice" true 1 world_twice new_FileCache).1.1
  = Throw (SameFileTwice "a/b" "/tmp/twice").
Proof.
  refine (proj1 (failed_load_keeps_earlier_records "/tmp/twice" true 1
                   [ {| rec_name := "a/b"; rec_flag := x00; rec_len := 2;
                        rec_payload := [x68; x69] |} ]
                   {| rec_name := "a/b"; rec_flag := x00; rec_len := -1;
                      rec_payload := [] |}
                   world_twice _ _ _ _ _ _ _ _)).
  - reflexivity.
  - reflexivity.
  - repeat constructor; cbn; lia.
  - repeat split; cbn; lia.
  - by intros [=].
  - apply (bool_decide_eq_true_1 (NoDup _)). by vm_compute.
  - by left.
  - reflexivity.
Defined.

Lemma nul_in_path_escapes_duplicate_check_witness :
  load "/tmp/nul" false 1 world_nul new_FileCache
  = (Ok tt, world_nul,
     with_files new_FileCache
       (<[nul_path := {| len := -2; data := None; clen := -1; cdata := None |}]>
          (m_files new_FileCache))).
Proof.
  apply (nul_in_path_escapes_duplicate_check "/tmp/nul" false 1
           {| rec_name := nul_path; rec_flag := x00; rec_len := -1;
              rec_payload := [] |}
           {| rec_name := nul_path; rec_flag := x00; rec_len := -2;
              rec_payload := [] |}
           world_nul new_FileCache).
  - reflexivity.
  - reflexivity.
  - reflexivity.
  - by vm_compute.
  - by vm_compute.
  - cbn [rec_len]. lia.
  - cbn [rec_len]. lia.
  - reflexivity.
  - reflexivity.
Defined.
Lemma loadMmap_checks_terminator_witness :
  (loadMmap_record "/tmp/pair" (archive_bytes 1 pair)
     (Z.of_nat (length (archive_bytes 1 pair))) 4 world_pair new_FileCache).1.1
  = Ok 17.
Proof.
  refine (proj1 (proj1 (proj2
    (loadMmap_checks_terminator "/tmp/pair" (archive_bytes 1 pair) 4 world_pair
       new_FileCache _ _ _ _ _)) _)).
  - lia.
  - reflexivity.
  - by vm_compute.
  - by vm_compute.
  - reflexivity.
  - reflexivity.
Defined.

Lemma load_rejects_truncated_record_witness :
  is_Throw (load "/tmp/cut" false 1 world_cut new_FileCache).1.1 = true.
Proof.
  apply (load_rejects_truncated_record "/tmp/cut" false 1
           [ {| rec_name := "a/b"; rec_flag := x00; rec_len := 2;
                rec_payload := [x68; x69] |} ]
           {| rec_name := "a/c"; rec_flag := x01; rec_len := 3;
              rec_payload := [x1f; x02; x61] |} 5 world_cut new_FileCache).
  - reflexivity.
  - reflexivity.
  - repeat constructor; cbn; lia.
  - repeat split; cbn; lia.
  - vm_compute. lia.
  - reflexivity.
Defined.

End FurtherExamples.
